(** * node-package-builder: a shallow embedding of [NodePackageBuilder]

    The class under study lives in [lib/index.js].  It turns a script into a
    single executable per target platform: it writes a SEA configuration,
    lets the running [node] compile it to a blob, copies a runtime binary
    (the host's own, or one fetched into a per-user cache), injects the blob
    with [postject], verifies and signs the result, and removes its
    temporary files.

    The development has two layers.

    - A pure layer: JavaScript strings, [Number] on strings, the version
      comparison, the executable name and the download URL.
    - An effectful layer: a world made of a file system, the console and a
      trace of calls leaving the process; every method of the class is a
      computation that returns a value or throws, and changes the world.
      Whatever the process cannot decide by itself (subprocess results, HTTP
      answers, archive contents, failing file operations) is read from an
      environment record, over which every statement quantifies. *)

From Stdlib Require Import QArith Ascii.
From stdpp Require Import gmap strings list.
Close Scope Q_scope.
Close Scope Z_scope.

Set Default Proof Using "Type".

(* ===================================================================== *)
(** ** JavaScript strings *)
(* ===================================================================== *)

(** A string is kept as the bytes of its UTF-8 encoding.  Searching and
    splitting on ASCII text is the same on the bytes as on the characters;
    white space beyond ASCII is recognised by its encoding. *)
Module JsString.

(** [s.includes(needle)] *)
Fixpoint includes (s needle : string) : bool :=
  String.prefix needle s ||
  match s with
  | EmptyString => false
  | String _ rest => includes rest needle
  end.

(** [s.endsWith(suffix)]: some tail of [s] is [suffix]. *)
Fixpoint endsWith (s suffix : string) : bool :=
  String.eqb s suffix ||
  match s with
  | EmptyString => false
  | String _ rest => endsWith rest suffix
  end.

(** [s.startsWith(p)] *)
Definition startsWith (s p : string) : bool := String.prefix p s.

(** [s.slice(1)]: without the first byte, which is the first character
    when that is an ASCII one, as the [v] of [process.version] is. *)
Definition slice1 (s : string) : string :=
  match s with
  | EmptyString => EmptyString
  | String _ rest => rest
  end.

(** [s.split(sep)] for a one-character separator; the result is never
    empty: a string without separator is returned whole. *)
Fixpoint split (sep : ascii) (s : string) : list string :=
  match s with
  | EmptyString => [EmptyString]
  | String c rest =>
      if Ascii.eqb c sep then EmptyString :: split sep rest
      else match split sep rest with
           | [] => [String c EmptyString]
           | w :: ws => String c w :: ws
           end
  end.

(** White space and line terminators beyond the six ASCII ones, by their
    encodings: U+00A0; U+1680, U+2000 to U+200A, U+2028, U+2029, U+202F,
    U+205F, U+3000 and U+FEFF. *)
Definition wideSpace2 (a b : ascii) : bool :=
  Ascii.eqb a "194" && Ascii.eqb b "160".

Definition wideSpace3 (a b c : ascii) : bool :=
  (Ascii.eqb a "225" && Ascii.eqb b "154" && Ascii.eqb c "128") ||
  (Ascii.eqb a "226" && Ascii.eqb b "128" &&
   ((128 <=? nat_of_ascii c) && (nat_of_ascii c <=? 138) ||
    Ascii.eqb c "168" || Ascii.eqb c "169" || Ascii.eqb c "175")) ||
  (Ascii.eqb a "226" && Ascii.eqb b "129" && Ascii.eqb c "159") ||
  (Ascii.eqb a "227" && Ascii.eqb b "128" && Ascii.eqb c "128") ||
  (Ascii.eqb a "239" && Ascii.eqb b "187" && Ascii.eqb c "191").

(** The string without the white space it starts with, for a given reading
    of two and three bytes as a white space character. *)
Fixpoint stripSpaces (wide2 : ascii -> ascii -> bool)
    (wide3 : ascii -> ascii -> ascii -> bool) (s : string) : string :=
  match s with
  | EmptyString => EmptyString
  | String a rest =>
      if Ascii.is_space a then stripSpaces wide2 wide3 rest
      else
        match rest with
        | String b rest2 =>
            if wide2 a b then stripSpaces wide2 wide3 rest2
            else
              match rest2 with
              | String c rest3 =>
                  if wide3 a b c then stripSpaces wide2 wide3 rest3 else s
              | EmptyString => s
              end
        | EmptyString => s
        end
  end.

(** [s.trimStart()], and [s.trimEnd()] on the reversed bytes. *)
Definition trimStart (s : string) : string :=
  stripSpaces wideSpace2 wideSpace3 s.

Definition trimEnd (s : string) : string :=
  String.rev
    (stripSpaces (fun a b => wideSpace2 b a) (fun a b c => wideSpace3 c b a)
       (String.rev s)).

(** [s.trim()] *)
Definition trim (s : string) : string := trimEnd (trimStart s).

End JsString.

Import JsString.

(* ===================================================================== *)
(** ** JavaScript numbers, as far as version components need them *)
(* ===================================================================== *)

(** A number is [NaN], an infinity or a finite double, kept as the
    rational it is.  [-0] and [0] are one value: the code only compares
    numbers and tests them for truth, which tells them apart nowhere. *)
Inductive JsNumber : Type :=
  | NaN
  | Infinity (negative : bool)
  | Finite (q : Q).

Definition js_zero : JsNumber := Finite (0 # 1)%Q.

(** [a > b] and [a < b]: every comparison with [NaN] is false. *)
Definition js_gt (a b : JsNumber) : bool :=
  match a, b with
  | NaN, _ | _, NaN => false
  | Infinity na, Infinity nb => negb na && nb
  | Infinity na, Finite _ => negb na
  | Finite _, Infinity nb => nb
  | Finite x, Finite y =>
      match (x ?= y)%Q with Gt => true | _ => false end
  end.

Definition js_lt (a b : JsNumber) : bool := js_gt b a.

(** Truthiness of a number: [NaN], [0] and [-0] are falsy. *)
Definition js_truthy (a : JsNumber) : bool :=
  match a with
  | NaN => false
  | Infinity _ => true
  | Finite q => negb (Z.eqb (Qnum q) 0)
  end.

(** [parts[i] || 0]: an index past the end reads [undefined]. *)
Definition or_zero (x : option JsNumber) : JsNumber :=
  match x with
  | Some a => if js_truthy a then a else js_zero
  | None => js_zero
  end.

(** *** Rounding to a double

    The Number value of a mathematical value: the nearest binary64, a tie
    going to the even significand; [2^1024] and beyond is an infinity, and
    what is nearer to 0 than to the least subnormal is 0. *)

(** [n / d] rounded to the nearest integer, a tie to the even one. *)
Definition roundHalfEven (n d : Z) : Z :=
  let q := (n / d)%Z in
  match (2 * (n mod d) ?= d)%Z with
  | Lt => q
  | Gt => (q + 1)%Z
  | Eq => if Z.even q then q else (q + 1)%Z
  end.

Definition toDouble (x : Q) : JsNumber :=
  let n := Qnum x in
  let d := Z.pos (Qden x) in
  let a := Z.abs n in
  if (a =? 0)%Z then Finite (0 # 1)%Q
  else
    (* the binary exponent of [a / d] is [e0] or [e0 - 1] *)
    let e0 := (Z.log2 a - Z.log2 d)%Z in
    let e := if (if (0 <=? e0)%Z then (d * 2 ^ e0 <=? a)%Z
                 else (d <=? a * 2 ^ (- e0))%Z)
             then e0 else (e0 - 1)%Z in
    (* the weight of the last of the 53 bits; subnormals end at 2^-1074 *)
    let u := Z.max (e - 52) (-1074) in
    let m := if (0 <=? u)%Z then roundHalfEven a (d * 2 ^ u)
             else roundHalfEven (a * 2 ^ (- u)) d in
    if ((0 <=? u) && (2 ^ 1024 <=? m * 2 ^ u))%Z then Infinity (n <? 0)%Z
    else
      let s := if (n <? 0)%Z then (- m)%Z else m in
      Finite (Qred (if (0 <=? u)%Z then ((s * 2 ^ u) # 1)%Q
                    else (s # Z.to_pos (2 ^ (- u)))%Q)).

Definition roundNumber (a : JsNumber) : JsNumber :=
  match a with
  | Finite q => toDouble q
  | _ => a
  end.

Module NumberParser.

Definition is_digit (c : ascii) : bool :=
  match Ascii.is_nat c with Some _ => true | None => false end.

Definition digit_val (c : ascii) : Z :=
  match Ascii.is_nat c with Some n => Z.of_nat n | None => 0%Z end.

Definition hex_val (c : ascii) : option Z :=
  let n := Z.of_nat (nat_of_ascii c) in
  if ((48 <=? n) && (n <=? 57))%Z then Some (n - 48)%Z
  else if ((65 <=? n) && (n <=? 70))%Z then Some (n - 55)%Z
  else if ((97 <=? n) && (n <=? 102))%Z then Some (n - 87)%Z
  else None.

(** The digits of [ds] in radix [base]; [None] on a character that is not a
    digit of that radix. *)
Fixpoint radix_value (base : Z) (acc : Z) (ds : list ascii) : option Z :=
  match ds with
  | [] => Some acc
  | c :: rest =>
      match hex_val c with
      | Some d => if (d <? base)%Z then radix_value base (acc * base + d)%Z rest
                  else None
      | None => None
      end
  end.

Fixpoint span_digits (l : list ascii) : list ascii * list ascii :=
  match l with
  | c :: rest =>
      if is_digit c then let '(ds, tl) := span_digits rest in (c :: ds, tl)
      else ([], l)
  | [] => ([], [])
  end.

Definition decimal_value (ds : list ascii) : Z :=
  fold_left (fun acc c => (acc * 10 + digit_val c)%Z) ds 0%Z.

(** ExponentPart: [e] or [E], an optional sign, at least one digit; the
    empty rest is the exponent 0. *)
Definition exponent (l : list ascii) : option Z :=
  match l with
  | [] => Some 0%Z
  | c :: rest =>
      if Ascii.eqb c "e" || Ascii.eqb c "E" then
        let '(neg, body) :=
          match rest with
          | s :: r => if Ascii.eqb s "-" then (true, r)
                      else if Ascii.eqb s "+" then (false, r)
                      else (false, rest)
          | [] => (false, rest)
          end in
        match span_digits body with
        | (d :: ds, []) =>
            let v := decimal_value (d :: ds) in
            Some (if neg then (- v)%Z else v)
        | _ => None
        end
      else None
  end.

(** mantissa * 10^scale *)
Definition scaled (mantissa scale : Z) : Q :=
  if (0 <=? scale)%Z then ((mantissa * 10 ^ scale) # 1)%Q
  else (mantissa # Z.to_pos (10 ^ (- scale)))%Q.

(** StrUnsignedDecimalLiteral *)
Definition unsigned_decimal (l : list ascii) : JsNumber :=
  if String.eqb (String.string_of_list_ascii l) "Infinity" then Infinity false
  else
    let '(ip, r1) := span_digits l in
    match r1 with
    | c :: r2 =>
        if Ascii.eqb c "." then
          let '(fp, r3) := span_digits r2 in
          match ip ++ fp, exponent r3 with
          | _ :: _, Some e =>
              Finite (scaled (decimal_value (ip ++ fp)) (e - Z.of_nat (length fp)))
          | _, _ => NaN
          end
        else
          match ip, exponent r1 with
          | _ :: _, Some e => Finite (scaled (decimal_value ip) e)
          | _, _ => NaN
          end
    | [] =>
        match ip with
        | _ :: _ => Finite (scaled (decimal_value ip) 0)
        | [] => NaN
        end
    end.

Definition js_negate (a : JsNumber) : JsNumber :=
  match a with
  | NaN => NaN
  | Infinity n => Infinity (negb n)
  | Finite q => Finite (- q)%Q
  end.

Definition radix_literal (base : Z) (ds : list ascii) : JsNumber :=
  match ds with
  | [] => NaN
  | _ => match radix_value base 0 ds with
         | Some v => Finite (v # 1)%Q
         | None => NaN
         end
  end.

(** The mathematical value of a string: white space is trimmed, the empty
    string is 0, then a radix-prefixed integer or a signed decimal literal;
    anything else is [NaN]. *)
Definition literalValue (s : string) : JsNumber :=
  match String.list_ascii_of_string (trim s) with
  | [] => js_zero
  | c0 :: c1 :: rest =>
      if Ascii.eqb c0 "0" && (Ascii.eqb c1 "x" || Ascii.eqb c1 "X")
      then radix_literal 16 rest
      else if Ascii.eqb c0 "0" && (Ascii.eqb c1 "o" || Ascii.eqb c1 "O")
      then radix_literal 8 rest
      else if Ascii.eqb c0 "0" && (Ascii.eqb c1 "b" || Ascii.eqb c1 "B")
      then radix_literal 2 rest
      else if Ascii.eqb c0 "-" then js_negate (unsigned_decimal (c1 :: rest))
      else if Ascii.eqb c0 "+" then unsigned_decimal (c1 :: rest)
      else unsigned_decimal (c0 :: c1 :: rest)
  | [c0] => unsigned_decimal [c0]
  end.

(** [Number(s)]: the value of the string, rounded to a double. *)
Definition Number (s : string) : JsNumber := roundNumber (literalValue s).

End NumberParser.

(* ===================================================================== *)
(** ** Values returned or thrown *)
(* ===================================================================== *)

(** An [Error] object; the code only ever reads its [message]. *)
Record JsError : Type := Error { message : string }.

Inductive Outcome (A : Type) : Type :=
  | Returned (a : A)
  | Thrown (e : JsError).
Arguments Returned {A} a.
Arguments Thrown {A} e.

(* ===================================================================== *)
(** ** isVersionGreaterOrEqual *)
(* ===================================================================== *)

Section VersionComparison.

(** The conversion applied to each component.  The comparison is written
    over an arbitrary conversion; the class uses [NumberParser.Number]. *)
Variable toNumber : string -> JsNumber.

(** The [for] loop with [todo] iterations left, at index [i]. *)
Fixpoint compareFrom (currentParts requiredParts : list JsNumber)
    (todo i : nat) : bool :=
  match todo with
  | O => true
  | S todo' =>
      let currentPart := or_zero (currentParts !! i) in
      let requiredPart := or_zero (requiredParts !! i) in
      if js_gt currentPart requiredPart then true
      else if js_lt currentPart requiredPart then false
      else compareFrom currentParts requiredParts todo' (S i)
  end.

Definition compareParts (currentParts requiredParts : list JsNumber) : bool :=
  compareFrom currentParts requiredParts
    (Nat.max (length currentParts) (length requiredParts)) 0.

Definition versionGreaterOrEqualWith (current required : string) : bool :=
  let currentParts := map toNumber (split "." current) in
  let requiredParts := map toNumber (split "." required) in
  compareParts currentParts requiredParts.

(** [checkNodeVersion], given [process.version]. *)
Definition checkNodeVersionWith (process_version : string) : Outcome unit :=
  let currentVersion := slice1 process_version in
  let requiredVersion := "19.9.0" in
  if negb (versionGreaterOrEqualWith currentVersion requiredVersion)
  then Thrown (Error ("Node.js version " +:+ requiredVersion +:+
                      " or higher is required. Current version: " +:+
                      currentVersion))
  else Returned tt.

End VersionComparison.

Definition isVersionGreaterOrEqual : string -> string -> bool :=
  versionGreaterOrEqualWith NumberParser.Number.

(** What the specification says the comparison is: the components, read
    left to right, with a missing component counting as 0. *)
Fixpoint spec_zero_ge (required : list Z) : bool :=
  match required with
  | [] => true
  | r :: rs =>
      if (r <? 0)%Z then true else if (0 <? r)%Z then false
      else spec_zero_ge rs
  end.

Fixpoint spec_components_ge (current required : list Z) : bool :=
  match current with
  | [] => spec_zero_ge required
  | c :: cs =>
      let r := hd 0%Z required in
      if (r <? c)%Z then true else if (c <? r)%Z then false
      else spec_components_ge cs (tl required)
  end.

Definition of_integer (z : Z) : JsNumber := Finite (z # 1)%Q.

(** A decimal numeral, which is what a version component is meant to be: a
    non-empty string of digits, read as the natural number it denotes. *)
Fixpoint numeralFrom (acc : Z) (s : string) : option Z :=
  match s with
  | EmptyString => Some acc
  | String c rest =>
      match Ascii.is_nat c with
      | Some d => numeralFrom (acc * 10 + Z.of_nat d)%Z rest
      | None => None
      end
  end.

Definition numeral (s : string) : option Z :=
  match s with
  | EmptyString => None
  | _ => numeralFrom 0 s
  end.

(* ===================================================================== *)
(** ** The exception monad of pure code *)
(* ===================================================================== *)

#[global] Instance Outcome_ret : MRet Outcome := fun _ a => Returned a.

#[global] Instance Outcome_bind : MBind Outcome := fun _ _ f m =>
  match m with
  | Returned a => f a
  | Thrown e => Thrown e
  end.

(** [l.filter(p)] and [l.find(p)] with a callback that may throw. *)
Fixpoint filterThrowing {A} (p : A -> Outcome bool) (l : list A)
    : Outcome (list A) :=
  match l with
  | [] => Returned []
  | x :: rest =>
      keep ← p x;
      kept ← filterThrowing p rest;
      Returned (if keep : bool then x :: kept else kept)
  end.

Fixpoint findThrowing {A} (p : A -> Outcome bool) (l : list A)
    : Outcome (option A) :=
  match l with
  | [] => Returned None
  | x :: rest =>
      hit ← p x;
      if hit : bool then Returned (Some x) else findThrowing p rest
  end.

(* ===================================================================== *)
(** ** The [semver] package: strict parsing and comparison *)
(* ===================================================================== *)

(** [semver] is a dependency of the class, not part of it.  This module
    follows its documented behaviour for the three functions the class
    calls ([gte], [lte], [major]) in strict mode: a version is
    [v?MAJOR.MINOR.PATCH(-PRERELEASE)?(+BUILD)?], at most 256 characters,
    numeric identifiers without leading zeros and at most
    [Number.MAX_SAFE_INTEGER]; every function throws a [TypeError] on a
    string that is not a version. *)
Module Semver.

Inductive Identifier : Type :=
  | NumId (n : Z)
  | StrId (s : string).

Record SemVer : Type := mkSemVer {
  major : Z;
  minor : Z;
  patch : Z;
  prerelease : list Identifier
}.

Definition MAX_LENGTH : nat := 256.
Definition MAX_SAFE_INTEGER : Z := 9007199254740991.

Definition all_chars (p : ascii -> bool) (s : string) : bool :=
  forallb p (String.list_ascii_of_string s).

Definition is_letter_dash_number (c : ascii) : bool :=
  let n := nat_of_ascii c in
  ((48 <=? n) && (n <=? 57)) || ((65 <=? n) && (n <=? 90)) ||
  ((97 <=? n) && (n <=? 122)) || Ascii.eqb c "-".

(** [0|[1-9]\d*] *)
Definition numeric_identifier (s : string) : option Z :=
  match s with
  | EmptyString => None
  | String c rest =>
      if all_chars NumberParser.is_digit s &&
         (negb (Ascii.eqb c "0") || String.eqb rest EmptyString)
      then Some (NumberParser.decimal_value (String.list_ascii_of_string s))
      else None
  end.

(** A prerelease identifier: numeric, or [\d*[a-zA-Z-][a-zA-Z0-9-]*]. *)
Definition prerelease_identifier (s : string) : option Identifier :=
  match numeric_identifier s with
  | Some n => Some (NumId n)
  | None =>
      if all_chars is_letter_dash_number s &&
         negb (all_chars NumberParser.is_digit s)
      then Some (StrId s) else None
  end.

Definition build_identifier (s : string) : bool :=
  negb (String.eqb s EmptyString) && all_chars is_letter_dash_number s.

Fixpoint all_some {A} (l : list (option A)) : option (list A) :=
  match l with
  | [] => Some []
  | Some x :: rest => match all_some rest with
                      | Some xs => Some (x :: xs)
                      | None => None
                      end
  | None :: _ => None
  end.

(** Cut [s] at the first occurrence of [c]. *)
Fixpoint cut (c : ascii) (s : string) : string * option string :=
  match s with
  | EmptyString => (EmptyString, None)
  | String d rest =>
      if Ascii.eqb d c then (EmptyString, Some rest)
      else let '(before, after) := cut c rest in (String d before, after)
  end.

Definition parse_main (s : string) : option (Z * Z * Z) :=
  match map numeric_identifier (split "." s) with
  | [Some a; Some b; Some c] =>
      if ((a <=? MAX_SAFE_INTEGER) && (b <=? MAX_SAFE_INTEGER) &&
          (c <=? MAX_SAFE_INTEGER))%Z
      then Some (a, b, c) else None
  | _ => None
  end.

Definition parse (version : string) : option SemVer :=
  if MAX_LENGTH <? String.length version then None
  else
    let trimmed := trim version in
    let plain := match trimmed with
                 | String "v" rest => rest
                 | _ => trimmed
                 end in
    let '(core, build) := cut "+" plain in
    let build_ok := match build with
                    | None => true
                    | Some b => forallb build_identifier (split "." b)
                    end in
    let '(main, pre) := cut "-" core in
    let pre_ids := match pre with
                   | None => Some []
                   | Some p => all_some (map prerelease_identifier (split "." p))
                   end in
    match parse_main main, pre_ids with
    | Some (a, b, c), Some ids =>
        if build_ok then Some (mkSemVer a b c ids) else None
    | _, _ => None
    end.

Definition compareIdentifiers (a b : Identifier) : comparison :=
  match a, b with
  | NumId x, NumId y => (x ?= y)%Z
  | NumId _, StrId _ => Lt
  | StrId _, NumId _ => Gt
  | StrId x, StrId y => String.compare x y
  end.

Definition compareMain (a b : SemVer) : comparison :=
  match (major a ?= major b)%Z with
  | Eq => match (minor a ?= minor b)%Z with
          | Eq => (patch a ?= patch b)%Z
          | c => c
          end
  | c => c
  end.

Fixpoint compareIdentifierLists (a b : list Identifier) : comparison :=
  match a, b with
  | [], [] => Eq
  | _ :: _, [] => Gt
  | [], _ :: _ => Lt
  | x :: a', y :: b' =>
      match compareIdentifiers x y with
      | Eq => compareIdentifierLists a' b'
      | c => c
      end
  end.

Definition comparePre (a b : SemVer) : comparison :=
  match prerelease a, prerelease b with
  | _ :: _, [] => Lt
  | [], _ :: _ => Gt
  | [], [] => Eq
  | pa, pb => compareIdentifierLists pa pb
  end.

Definition compareVersions (a b : SemVer) : comparison :=
  match compareMain a b with
  | Eq => comparePre a b
  | c => c
  end.

Definition construct (version : string) : Outcome SemVer :=
  match parse version with
  | Some v => Returned v
  | None => Thrown (Error ("Invalid Version: " +:+ version))
  end.

Definition compare (a b : string) : Outcome comparison :=
  va ← construct a; vb ← construct b; Returned (compareVersions va vb).

Definition gte (a b : string) : Outcome bool :=
  c ← compare a b;
  Returned (match c with Lt => false | _ => true end).

Definition lte (a b : string) : Outcome bool :=
  c ← compare a b;
  Returned (match c with Gt => false | _ => true end).

Definition semver_major (a : string) : Outcome Z :=
  v ← construct a; Returned (major v).

End Semver.

(* ===================================================================== *)
(** ** Options and the builder object *)
(* ===================================================================== *)

(** The options object handed to the constructor: every key is optional. *)
Record UserOptions : Type := mkUserOptions {
  user_main : option string;
  user_output : option string;
  user_disableExperimentalSEAWarning : option bool;
  user_useSnapshot : option bool;
  user_useCodeCache : option bool;
  user_assets : option (list (string * string));
  user_platforms : option (list string);
  user_tempDir : option string
}.

(** [this.options] *)
Record BuildOptions : Type := mkBuildOptions {
  opt_main : string;
  opt_output : string;
  opt_disableExperimentalSEAWarning : bool;
  opt_useSnapshot : bool;
  opt_useCodeCache : bool;
  opt_assets : list (string * string);
  opt_platforms : list string;
  opt_tempDir : string
}.

(** [this]: the options and the build identifier; [this.tempBuildDir] is
    derived from them once and never reassigned. *)
Record Builder : Type := mkBuilder {
  options : BuildOptions;
  buildId : string
}.

Definition withOutput (this : Builder) (name : string) : Builder :=
  let o := options this in
  mkBuilder
    (mkBuildOptions (opt_main o) name (opt_disableExperimentalSEAWarning o)
       (opt_useSnapshot o) (opt_useCodeCache o) (opt_assets o)
       (opt_platforms o) (opt_tempDir o))
    (buildId this).

Definition getExecutableName (this : Builder) (platform : string) : string :=
  let baseName := opt_output (options this) in
  if String.eqb platform "win32" then
    if endsWith baseName ".exe" then baseName else baseName +:+ ".exe"
  else baseName.

Definition getNodeDownloadUrl (version platform : string) : Outcome string :=
  let arch := "x64" in
  let baseUrl := "https://nodejs.org/dist" in
  if String.eqb platform "win32" then
    Returned (baseUrl +:+ "/v" +:+ version +:+ "/node-v" +:+ version +:+
              "-win-" +:+ arch +:+ ".zip")
  else if String.eqb platform "darwin" then
    Returned (baseUrl +:+ "/v" +:+ version +:+ "/node-v" +:+ version +:+
              "-darwin-" +:+ arch +:+ ".tar.gz")
  else if String.eqb platform "linux" then
    Returned (baseUrl +:+ "/v" +:+ version +:+ "/node-v" +:+ version +:+
              "-linux-" +:+ arch +:+ ".tar.gz")
  else Thrown (Error ("Unsupported platform: " +:+ platform)).

Definition getSupportedPlatforms : list string := ["linux"; "darwin"; "win32"].

(* ===================================================================== *)
(** ** The world around the process *)
(* ===================================================================== *)

(** A path names a directory or a regular file with its content; both carry
    permission bits, written as the octal string [chmodSync] takes. *)
Inductive Node : Type :=
  | Dir (mode : string)
  | File (content : string) (mode : string).

Definition modeOf (n : Node) : string :=
  match n with
  | Dir m => m
  | File _ m => m
  end.

Inductive Level : Type := LogLevel | WarnLevel | ErrorLevel.

(** Calls that leave the process. *)
Inductive Event : Type :=
  | Spawned (command : string)
  | Fetched (url : string)
  | Downloaded (url : string) (dest : string).

Record World : Type := mkWorld {
  fs : gmap string Node;
  console : list (Level * string);
  trace : list Event
}.

Definition withFs (w : World) (files : gmap string Node) : World :=
  mkWorld files (console w) (trace w).

Definition record (ev : Event) (w : World) : World :=
  mkWorld (fs w) (console w) (trace w ++ [ev]).

Inductive FsOp : Type :=
  | MkdirOp (p : string)
  | WriteOp (p : string)
  | CopyOp (src dst : string)
  | UnlinkOp (p : string)
  | RmOp (p : string)
  | ChmodOp (p : string)
  | RenameOp (src dst : string).

(** How a subprocess started by [execSync] ended.  [TimedOut]: it was still
    running when the [timeout] given to [execSync] expired, and was killed;
    [SpawnError]: it could not be run at all. *)
Inductive ExecResult : Type :=
  | Exited (status : Z) (stdout stderr : string)
  | TimedOut
  | SpawnError (code : string).

Inductive Stdio : Type := Inherit | Ignore | Pipe.

(** One entry of [https://nodejs.org/dist/index.json].  [ie_version] is
    [None] when the entry carries no string under [version]; [ie_lts] says
    whether its [lts] field is the literal [false]. *)
Inductive LtsField : Type := LtsFalse | LtsOther.

Record IndexEntry : Type := mkIndexEntry {
  ie_version : option string;
  ie_lts : LtsField
}.

(** [response.data]: an array of entries, or anything else (a body that is
    not JSON, or JSON that is not an array). *)
Inductive IndexData : Type :=
  | NotAnArray
  | Entries (entries : list IndexEntry).

(** A zip archive as [yauzl] presents it: its entries in order, each with
    the outcome of opening its read stream, and the way the listing ends
    ([None] for the [end] event, an error for the [error] event).  A stream
    that opens is taken to deliver its data: the code listens for no error
    of the stream itself, so a stream that breaks while it is piped ends
    the process instead of the call, which no outcome here stands for. *)
Record ZipEntry : Type := mkZipEntry {
  fileName : string;
  readStream : Outcome string
}.

Record ZipFile : Type := mkZipFile {
  zipEntries : list ZipEntry;
  zipTail : option JsError
}.

(** Values written by [JSON.stringify]. *)
Inductive Json : Type :=
  | JString (s : string)
  | JBool (b : bool)
  | JStringMap (entries : list (string * string)).

(** Everything the code reads from outside itself. *)
Record Env : Type := mkEnv {
  process_platform : string;
  process_execPath : string;
  process_version : string;
  os_homedir : string;
  os_tmpdir : string;
  (** the shell [execSync] starts, named in spawn errors *)
  shell : string;
  (** [Date.now()] and [crypto.randomBytes(4).toString('hex')] *)
  date_now : string;
  random_hex : string;
  path_join : list string -> string;
  path_resolve : string -> string;
  (** [path_inside d p]: [p] lies below the directory [d] *)
  path_inside : string -> string -> bool;
  (** [JSON.stringify(object, null, 2)] on an object given by its keys *)
  JSON_stringify : list (string * Json) -> string;
  (** a file operation that the system refuses, and the error it raises:
      whatever the map of paths cannot tell by itself, such as a parent that
      is missing or is no directory, permissions, or a file held open *)
  fs_fault : FsOp -> World -> option JsError;
  (** [rm_kept p w q]: when the recursive removal of [p] is refused, whether
      [q] below [p] was still there when it stopped *)
  rm_kept : string -> World -> string -> bool;
  (** the run of a command under an optional timeout (in milliseconds): how
      it ends and the file system it leaves *)
  spawn : string -> option Z -> World -> ExecResult * gmap string Node;
  (** [axios.get(url)], and the streamed body of [axios({url, ...})]: the
      bytes received and the error that cut the stream short, if any *)
  http_get : string -> World -> Outcome IndexData;
  http_stream : string -> World -> Outcome (string * option JsError);
  (** [tar.extract({file, cwd, filter})] and [yauzl.open(path)] *)
  tar_extract : string -> string -> (string -> bool) -> World ->
                Outcome unit * gmap string Node;
  yauzl_open : string -> World -> Outcome ZipFile
}.

(* ===================================================================== *)
(** ** Computations: a value or an exception, and a new world *)
(* ===================================================================== *)

Definition Js (A : Type) : Type := World -> Outcome A * World.

#[global] Instance Js_ret : MRet Js := fun _ a w => (Returned a, w).

#[global] Instance Js_bind : MBind Js := fun _ _ f m w =>
  match m w with
  | (Returned a, w') => f a w'
  | (Thrown e, w') => (Thrown e, w')
  end.

Definition throw {A} (e : JsError) : Js A := fun w => (Thrown e, w).

(** [try { body } catch (error) { handler }] *)
Definition tryCatch {A} (body : Js A) (handler : JsError -> Js A) : Js A :=
  fun w =>
    match body w with
    | (Returned a, w') => (Returned a, w')
    | (Thrown e, w') => handler e w'
    end.

(** [try { body } finally { finalizer }]: an exception of the finalizer
    replaces the outcome of the body. *)
Definition tryFinally {A} (body : Js A) (finalizer : Js unit) : Js A :=
  fun w =>
    match body w with
    | (r, w') =>
        match finalizer w' with
        | (Returned _, w'') => (r, w'')
        | (Thrown e, w'') => (Thrown e, w'')
        end
    end.

Definition liftOutcome {A} (r : Outcome A) : Js A := fun w => (r, w).

Definition when (b : bool) (m : Js unit) : Js unit :=
  if b then m else mret tt.

Definition consoleWrite (l : Level) (line : string) : Js unit :=
  fun w => (Returned tt, mkWorld (fs w) (console w ++ [(l, line)]) (trace w)).

Definition console_log := consoleWrite LogLevel.
Definition console_warn := consoleWrite WarnLevel.
Definition console_error := consoleWrite ErrorLevel.

Definition newline : string := String "010" EmptyString.

Section Primitives.

Context (E : Env).

(** *** File system *)

Definition existsSync (p : string) : Js bool :=
  fun w => (Returned (bool_decide (is_Some (fs w !! p))), w).

(** An operation on one file or directory: refused by the system, or
    carried out on the files; when it fails the files are as they were. *)
Definition fsOperation (op : FsOp)
    (act : gmap string Node -> Outcome (gmap string Node)) : Js unit :=
  fun w =>
    match fs_fault E op w with
    | Some e => (Thrown e, w)
    | None =>
        match act (fs w) with
        | Returned files => (Returned tt, withFs w files)
        | Thrown e => (Thrown e, w)
        end
    end.

(** [fs.mkdirSync(p, { recursive: true })] *)
Definition mkdirSync (p : string) : Js unit :=
  fsOperation (MkdirOp p) (fun files =>
    match files !! p with
    | Some (Dir _) => Returned files
    | Some (File _ _) =>
        Thrown (Error ("EEXIST: file already exists, mkdir '" +:+ p +:+ "'"))
    | None => Returned (<[p := Dir "755"]> files)
    end).

(** [fs.writeFileSync(p, data)] *)
Definition writeFileSync (p data : string) : Js unit :=
  fsOperation (WriteOp p) (fun files =>
    match files !! p with
    | Some (Dir _) =>
        Thrown (Error ("EISDIR: illegal operation on a directory, open '"
                       +:+ p +:+ "'"))
    | Some (File _ m) => Returned (<[p := File data m]> files)
    | None => Returned (<[p := File data "644"]> files)
    end).

(** [fs.copyFileSync(src, dst)] *)
Definition copyFileSync (src dst : string) : Js unit :=
  fsOperation (CopyOp src dst) (fun files =>
    match files !! src with
    | Some (File c m) => Returned (<[dst := File c m]> files)
    | Some (Dir _) =>
        Thrown (Error ("EISDIR: illegal operation on a directory, copyfile '"
                       +:+ src +:+ "' -> '" +:+ dst +:+ "'"))
    | None =>
        Thrown (Error ("ENOENT: no such file or directory, copyfile '"
                       +:+ src +:+ "' -> '" +:+ dst +:+ "'"))
    end).

(** [fs.unlinkSync(p)] *)
Definition unlinkSync (p : string) : Js unit :=
  fsOperation (UnlinkOp p) (fun files =>
    match files !! p with
    | Some (File _ _) => Returned (delete p files)
    | Some (Dir _) =>
        Thrown (Error ("EPERM: operation not permitted, unlink '" +:+ p +:+ "'"))
    | None =>
        Thrown (Error ("ENOENT: no such file or directory, unlink '"
                       +:+ p +:+ "'"))
    end).

(** [fs.rmSync(p, { recursive: true, force: true })]: [p] and all below
    it; a missing [p] is not an error.  A removal that is refused has
    removed what it came to before: [p] itself is still there, and of what
    lies below it whatever [rm_kept] says. *)
Definition rmSync (p : string) : Js unit :=
  fun w =>
    match fs_fault E (RmOp p) w with
    | Some e =>
        (Thrown e,
         withFs w (filter (fun kv => kv.1 = p ∨ path_inside E p kv.1 = false ∨
                                     rm_kept E p w kv.1 = true) (fs w)))
    | None =>
        (Returned tt,
         withFs w (filter (fun kv => kv.1 ≠ p ∧ path_inside E p kv.1 = false)
                          (fs w)))
    end.

(** [fs.chmodSync(p, mode)] *)
Definition chmodSync (p mode : string) : Js unit :=
  fsOperation (ChmodOp p) (fun files =>
    match files !! p with
    | Some (File c _) => Returned (<[p := File c mode]> files)
    | Some (Dir _) => Returned (<[p := Dir mode]> files)
    | None =>
        Thrown (Error ("ENOENT: no such file or directory, chmod '"
                       +:+ p +:+ "'"))
    end).

(** [fs.renameSync(src, dst)]; the class only moves a regular file. *)
Definition renameSync (src dst : string) : Js unit :=
  fsOperation (RenameOp src dst) (fun files =>
    match files !! src with
    | Some n => Returned (<[dst := n]> (delete src files))
    | None =>
        Thrown (Error ("ENOENT: no such file or directory, rename '"
                       +:+ src +:+ "' -> '" +:+ dst +:+ "'"))
    end).

(** *** Subprocesses *)

(** [execSync(command, { stdio, timeout })]: the standard output of a
    command that exits with status 0; otherwise the error Node builds, whose
    message quotes the command and, when the standard error is piped, what
    the command wrote there. *)
Definition execSync (command : string) (stdio : Stdio) (timeout : option Z)
    : Js string :=
  fun w =>
    let '(r, files) := spawn E command timeout w in
    let w' := record (Spawned command) (withFs w files) in
    match r with
    | Exited status stdout stderr =>
        if (status =? 0)%Z then
          (Returned (match stdio with Pipe => stdout | _ => EmptyString end), w')
        else
          (Thrown (Error ("Command failed: " +:+ command +:+
                          match stdio with
                          | Pipe => if String.eqb stderr EmptyString
                                    then EmptyString
                                    else newline +:+ stderr
                          | _ => EmptyString
                          end)), w')
    | TimedOut =>
        (Thrown (Error ("spawnSync " +:+ shell E +:+ " ETIMEDOUT")), w')
    | SpawnError code =>
        (Thrown (Error ("spawnSync " +:+ shell E +:+ " " +:+ code)), w')
    end.

(** *** Network *)

Definition axios_get (url : string) : Js IndexData :=
  fun w => (http_get E url w, record (Fetched url) w).

End Primitives.

(* ===================================================================== *)
(** ** The class *)
(* ===================================================================== *)

(** [sea-config] objects: keys in insertion order. *)
Definition JsObject : Type := list (string * Json).

(** [obj[key] = value]: an existing key keeps its place. *)
Fixpoint setProperty (key : string) (value : Json) (obj : JsObject) : JsObject :=
  match obj with
  | [] => [(key, value)]
  | (k, v) :: rest =>
      if String.eqb k key then (k, value) :: rest
      else (k, v) :: setProperty key value rest
  end.

Fixpoint getProperty (key : string) (obj : JsObject) : option Json :=
  match obj with
  | [] => None
  | (k, v) :: rest => if String.eqb k key then Some v else getProperty key rest
  end.

(** A [BuildResult]; the optional keys are those the object literal of the
    respective path sets. *)
Record BuildResult : Type := mkBuildResult {
  res_platform : string;
  res_success : bool;
  res_executable : option string;
  res_path : option string;
  res_buildId : option string;
  res_error : option string
}.

Definition failedResult (platform : string) (error : JsError) : BuildResult :=
  mkBuildResult platform false None None None (Some (message error)).

Section Class.

Context (E : Env).

(** *** Construction *)

Definition resolveOptions (o : UserOptions) : BuildOptions :=
  mkBuildOptions
    (default "index.js" (user_main o))
    (default "app" (user_output o))
    (default true (user_disableExperimentalSEAWarning o))
    (default false (user_useSnapshot o))
    (default false (user_useCodeCache o))
    (default [] (user_assets o))
    (default ["linux"; "darwin"; "win32"] (user_platforms o))
    (default (path_join E [os_tmpdir E; "node-package-builder"]) (user_tempDir o)).

Definition generateBuildId : string :=
  "build-" +:+ date_now E +:+ "-" +:+ random_hex E.

Definition checkNodeVersion : Outcome unit :=
  checkNodeVersionWith NumberParser.Number (process_version E).

Context (this : Builder).

Definition tempBuildDir : string :=
  path_join E [opt_tempDir (options this); buildId this].

Definition ensureTempDir : Js unit :=
  present ← existsSync (opt_tempDir (options this));
  when (negb present) (mkdirSync E (opt_tempDir (options this)));;
  present' ← existsSync tempBuildDir;
  when (negb present') (mkdirSync E tempBuildDir).

(** *** Temporary files *)

Fixpoint cleanup (files : list string) : Js unit :=
  match files with
  | [] => mret tt
  | file :: rest =>
      tryCatch
        (present ← existsSync file;
         when present (unlinkSync E file))
        (fun _ => console_warn ("Warning: Could not clean up " +:+ file));;
      cleanup rest
  end.

Definition cleanupTempDir : Js unit :=
  tryCatch
    (present ← existsSync tempBuildDir;
     when present
       (rmSync E tempBuildDir;;
        console_log ("Cleaned up temporary build directory: " +:+ tempBuildDir)))
    (fun error =>
       console_warn ("Warning: Could not clean up temp directory " +:+
                     tempBuildDir +:+ ": " +:+ message error)).

(** *** SEA configuration *)

Definition blobPathFor (platform : string) : string :=
  path_join E [tempBuildDir; "sea-prep-" +:+ platform +:+ ".blob"].

Definition configPathFor (platform : string) : string :=
  path_join E [tempBuildDir;
               "sea-config-" +:+ platform +:+ "-" +:+ buildId this +:+ ".json"].

(** The object [createSeaConfig] builds before it serializes it. *)
Definition seaConfig (platform : string) : JsObject :=
  let config : JsObject :=
    [ ("main", JString (opt_main (options this)));
      ("output", JString (blobPathFor platform));
      ("disableExperimentalSEAWarning",
         JBool (opt_disableExperimentalSEAWarning (options this)));
      ("useSnapshot", JBool (opt_useSnapshot (options this)));
      ("useCodeCache", JBool (opt_useCodeCache (options this))) ] in
  let config :=
    if negb (String.eqb platform (process_platform E)) then
      setProperty "useCodeCache" (JBool false)
        (setProperty "useSnapshot" (JBool false) config)
    else config in
  if 0 <? length (opt_assets (options this)) then
    setProperty "assets" (JStringMap (opt_assets (options this))) config
  else config.

Definition createSeaConfig (platform : string) : Js string :=
  let config := seaConfig platform in
  let configPath := configPathFor platform in
  writeFileSync E configPath (JSON_stringify E config);;
  mret configPath.

(** *** Blob generation *)

Definition dquote : string := String "034" EmptyString.

Definition generateBlob (configPath : string) : Js unit :=
  tryCatch
    (let nodeExecutable := process_execPath E in
     execSync E (dquote +:+ nodeExecutable +:+ dquote +:+
                 " --experimental-sea-config " +:+ configPath) Inherit None;;
     mret tt)
    (fun error => throw (Error ("Failed to generate blob: " +:+ message error))).

(** *** Version resolution *)

Definition typeError (what : string) : JsError := Error what.

(** [v.version.slice(1)] *)
Definition versionOf (v : IndexEntry) : Outcome string :=
  match ie_version v with
  | Some s => Returned (slice1 s)
  | None => Thrown (typeError "v.version.slice is not a function")
  end.

Definition minVersion : string := "19.9.0".
Definition maxVersion : string := "22.99.99".
Definition fallbackVersion : string := "20.18.0".
Definition preferredVersions : list string :=
  ["20.18.0"; "20.17.0"; "20.16.0"; "20.15.1"].

(** The callback of [versions.filter]. *)
Definition isValidVersion (v : IndexEntry) : Outcome bool :=
  version ← versionOf v;
  atLeast ← Semver.gte version minVersion;
  if atLeast : bool then
    atMost ← Semver.lte version maxVersion;
    if atMost : bool then
      Returned (negb (includes (default EmptyString (ie_version v)) "rc") &&
                negb (includes (default EmptyString (ie_version v)) "beta"))
    else Returned false
  else Returned false.

Definition isPreferred (preferred : string) (v : IndexEntry) : Outcome bool :=
  version ← versionOf v; Returned (String.eqb version preferred).

Definition isLTS20 (v : IndexEntry) : Outcome bool :=
  match ie_lts v with
  | LtsFalse => Returned false
  | LtsOther =>
      version ← versionOf v;
      m ← Semver.semver_major version;
      Returned (m =? 20)%Z
  end.

(** The [for] loop over [preferredVersions]; [None] when it falls through. *)
Fixpoint firstPreferred (preferred : list string) (validVersions : list IndexEntry)
    : Outcome (option string) :=
  match preferred with
  | [] => Returned None
  | p :: rest =>
      found ← findThrowing (isPreferred p) validVersions;
      match found with
      | Some v => version ← versionOf v; Returned (Some version)
      | None => firstPreferred rest validVersions
      end
  end.

(** The body of the [try] block once [response.data] is known. *)
Definition selectVersion (data : IndexData) : Outcome string :=
  match data with
  | NotAnArray => Thrown (typeError "versions.filter is not a function")
  | Entries versions =>
      validVersions ← filterThrowing isValidVersion versions;
      match validVersions with
      | [] => Thrown (Error ("No valid Node.js versions found (minimum: " +:+
                             minVersion +:+ ")"))
      | first :: _ =>
          preferred ← firstPreferred preferredVersions validVersions;
          match preferred with
          | Some version => Returned version
          | None =>
              latestLTS ← findThrowing isLTS20 validVersions;
              match latestLTS with
              | Some v => versionOf v
              | None => versionOf first
              end
          end
      end
  end.

Definition getRecommendedNodeVersion : Js string :=
  tryCatch
    (versions ← axios_get E "https://nodejs.org/dist/index.json";
     liftOutcome (selectVersion versions))
    (fun _ =>
       console_warn "Failed to fetch latest Node.js version, using fallback";;
       mret fallbackVersion).

(** *** Download and extraction *)

Definition downloadFile (url filePath : string) : Js unit :=
  fun w =>
    let w1 := record (Downloaded url filePath) w in
    match http_stream E url w with
    | Thrown e => (Thrown e, w1)
    | Returned (body, cut) =>
        (writeFileSync E filePath body;;
         match cut with
         | Some e => throw e
         | None => mret tt
         end) w1
    end.

(** The [entry] handler of [extractZip]: the first entry whose name ends in
    [node.exe] is written out and ends the walk. *)
Fixpoint walkZip (extractDir : string) (entries : list ZipEntry)
    (tail : option JsError) : Js unit :=
  match entries with
  | [] => match tail with
          | None => mret tt
          | Some e => throw e
          end
  | entry :: rest =>
      if endsWith (fileName entry) "node.exe" then
        match readStream entry with
        | Thrown err => throw err
        | Returned data =>
            let outputPath := path_join E [extractDir; "node.exe"] in
            writeFileSync E outputPath data
        end
      else walkZip extractDir rest tail
  end.

Definition extractZip (zipPath extractDir version platform : string) : Js unit :=
  zipfile ← (fun w => (yauzl_open E zipPath w, w));
  walkZip extractDir (zipEntries zipfile) (zipTail zipfile).

Definition extractTarGz (tarPath extractDir version platform : string) : Js unit :=
  let folderName := "node-v" +:+ version +:+ "-" +:+ platform +:+ "-x64" in
  let nodeBinaryPath := folderName +:+ "/bin/node" in
  (fun w =>
     let '(r, files) :=
       tar_extract E tarPath extractDir
         (fun path => String.eqb path nodeBinaryPath) w in
     (r, withFs w files));;
  let extractedPath := path_join E [extractDir; nodeBinaryPath] in
  let finalPath := path_join E [extractDir; "node"] in
  extracted ← existsSync extractedPath;
  when extracted
    (renameSync E extractedPath finalPath;;
     let folderPath := path_join E [extractDir; folderName] in
     present ← existsSync folderPath;
     when present (rmSync E folderPath)).

Definition extractNodeBinary (archivePath extractDir platform version : string)
    : Js unit :=
  if String.eqb platform "win32"
  then extractZip archivePath extractDir version platform
  else extractTarGz archivePath extractDir version platform.

(** The paths of the runtime cache. *)
Definition cacheDir : string :=
  path_join E [os_homedir E; ".node-package-builder"; "cache"].

Definition cachedBinaryName (platform : string) : string :=
  if String.eqb platform "win32" then "node.exe" else "node".

Definition cachedBinaryPath (platform version : string) : string :=
  path_join E [path_join E [path_join E [cacheDir; platform]; version];
               cachedBinaryName platform].

Definition archivePathFor (platform version : string) : string :=
  path_join E [path_join E [cacheDir; platform];
               "node-" +:+ version +:+ "-" +:+ platform +:+ "." +:+
               (if String.eqb platform "win32" then "zip" else "tar.gz")].

(** [downloadNodeBinary] once the cache has no binary, in two parts: up to
    the removal of the archive, and from the check of the extracted binary
    on. *)
Definition acquireArchive (platform version : string) : Js unit :=
  let platformDir := path_join E [cacheDir; platform] in
  let versionDir := path_join E [platformDir; version] in
  console_log ("Downloading Node.js " +:+ version +:+ " for " +:+ platform +:+
               "...");;
  downloadUrl ← liftOutcome (getNodeDownloadUrl version platform);
  let archivePath := archivePathFor platform version in
  downloadFile downloadUrl archivePath;;
  present ← existsSync versionDir;
  when (negb present) (mkdirSync E versionDir);;
  extractNodeBinary archivePath versionDir platform version;;
  unlinkSync E archivePath.

Definition fetchNodeBinary (platform version : string) : Js string :=
  let executablePath := cachedBinaryPath platform version in
  acquireArchive platform version;;
  extracted ← existsSync executablePath;
  if negb extracted then
    throw (Error ("Failed to extract Node.js executable for " +:+ platform))
  else
    when (negb (String.eqb platform "win32")) (chmodSync E executablePath "755");;
    mret executablePath.

(** The two directory checks at the head of [downloadNodeBinary]. *)
Definition ensureCacheDirs (platform : string) : Js unit :=
  let platformDir := path_join E [cacheDir; platform] in
  present ← existsSync cacheDir;
  when (negb present) (mkdirSync E cacheDir);;
  present' ← existsSync platformDir;
  when (negb present') (mkdirSync E platformDir).

Definition downloadNodeBinary (platform : string) : Js string :=
  version ← getRecommendedNodeVersion;
  ensureCacheDirs platform;;
  let executablePath := cachedBinaryPath platform version in
  cached ← existsSync executablePath;
  if cached : bool then
    console_log ("Using cached Node.js " +:+ version +:+ " for " +:+ platform);;
    mret executablePath
  else fetchNodeBinary platform version.

(* *** Assembling, injecting, verifying, signing *)

Definition createExecutable (platform executableName : string) : Js unit :=
  nodePath ← (if String.eqb platform (process_platform E)
              then mret (process_execPath E)
              else downloadNodeBinary platform);
  let executableName :=
    if String.eqb platform "win32" && negb (endsWith executableName ".exe")
    then executableName +:+ ".exe" else executableName in
  tryCatch
    (copyFileSync E nodePath executableName)
    (fun error =>
       throw (Error ("Failed to copy Node.js executable from '" +:+ nodePath +:+
                     "' to '" +:+ executableName +:+ "': " +:+ message error)));;
  when (String.eqb platform "darwin")
    (tryCatch
       (execSync E ("codesign --remove-signature " +:+ dquote +:+
                    executableName +:+ dquote) Ignore None;; mret tt)
       (fun _ => console_warn "Warning: Could not remove signature. Continuing..."));;
  when (String.eqb platform "win32")
    (tryCatch
       (execSync E ("signtool remove /s " +:+ dquote +:+ executableName +:+
                    dquote) Ignore None;; mret tt)
       (fun _ => console_warn "Warning: Could not remove signature. Continuing...")).

Definition replBanner : string := "Welcome to Node.js".
Definition replHint : string := "Type " +:+ dquote +:+ ".help" +:+ dquote.

Definition verifyCommand (executableName : string) : string :=
  dquote +:+ path_resolve E executableName +:+ dquote +:+ " --help".

Definition verifyWindowsExecutable (executableName : string) : Js unit :=
  tryCatch
    (result ← execSync E (verifyCommand executableName) Pipe (Some 5000%Z);
     if includes result replBanner || includes result replHint
     then throw (Error "Windows executable is still in REPL mode - blob injection failed")
     else mret tt)
    (fun error =>
       if includes (message error) "REPL mode" then throw error else mret tt).

Definition sentinelFuse : string :=
  "NODE_SEA_FUSE_fce680ab2cc467b6e072b8b5df1996b2".

Definition injectBlob (platform executableName blobPath : string) : Js unit :=
  let command :=
    if String.eqb platform "darwin" then
      "npx postject " +:+ dquote +:+ executableName +:+ dquote +:+
      " NODE_SEA_BLOB " +:+ dquote +:+ blobPath +:+ dquote +:+
      " --sentinel-fuse " +:+ sentinelFuse +:+ " --macho-segment-name NODE_SEA"
    else
      "npx postject " +:+ dquote +:+ executableName +:+ dquote +:+
      " NODE_SEA_BLOB " +:+ dquote +:+ blobPath +:+ dquote +:+
      " --sentinel-fuse " +:+ sentinelFuse in
  tryCatch
    (execSync E command Inherit None;;
     when (String.eqb platform "win32") (verifyWindowsExecutable executableName))
    (fun error => throw (Error ("Failed to inject blob: " +:+ message error))).

Definition signExecutable (platform executableName : string) : Js unit :=
  tryCatch
    (if String.eqb platform "darwin" then
       execSync E ("codesign --sign - " +:+ dquote +:+ executableName +:+ dquote)
         Ignore None;; mret tt
     else if String.eqb platform "win32" then
       execSync E ("signtool sign /fd SHA256 " +:+ dquote +:+ executableName +:+
                   dquote) Ignore None;; mret tt
     else mret tt)
    (fun _ =>
       console_warn ("Warning: Could not sign executable for " +:+ platform +:+
                     ". The executable should still work.")).

(** *** The pipeline of one platform, and the whole build *)

(** The statements of the [try] block of [buildForPlatform] before its
    [cleanup] call. *)
Definition pipelineSteps (platform configPath blobPath executableName : string)
    : Js unit :=
  generateBlob configPath;;
  createExecutable platform executableName;;
  injectBlob platform executableName blobPath;;
  when (String.eqb platform "darwin" || String.eqb platform "win32")
    (signExecutable platform executableName).

Definition successResult (platform executableName : string) : BuildResult :=
  mkBuildResult platform true (Some executableName)
    (Some (path_resolve E executableName)) (Some (buildId this)) None.

Definition buildForPlatform (platform : string) : Js BuildResult :=
  configPath ← createSeaConfig platform;
  let blobPath := blobPathFor platform in
  let executableName := getExecutableName this platform in
  tryCatch
    (pipelineSteps platform configPath blobPath executableName;;
     cleanup [configPath; blobPath];;
     mret (successResult platform executableName))
    (fun error =>
       cleanup [configPath; blobPath];;
       throw error).

(** One turn of the [for] loop of [build]. *)
Definition buildOne (platform : string) (results : list BuildResult)
    : Js (list BuildResult) :=
  tryCatch
    (result ← buildForPlatform platform;
     mret (results ++ [result]))
    (fun error =>
       console_error ("Failed to build for " +:+ platform +:+ ": " +:+
                      message error);;
       mret (results ++ [failedResult platform error])).

Fixpoint buildLoop (platforms : list string) (results : list BuildResult)
    : Js (list BuildResult) :=
  match platforms with
  | [] => mret results
  | platform :: rest =>
      results' ← buildOne platform results;
      buildLoop rest results'
  end.

Definition build : Js (list BuildResult) :=
  tryFinally (buildLoop (opt_platforms (options this)) []) cleanupTempDir.

End Class.

(** [new NodePackageBuilder(options)] *)
Definition newNodePackageBuilder (E : Env) (o : UserOptions) : Js Builder :=
  let this := mkBuilder (resolveOptions E o) (generateBuildId E) in
  liftOutcome (checkNodeVersion E);;
  ensureTempDir E this;;
  mret this.

(* ===================================================================== *)
(** ** Observations on a run *)
(* ===================================================================== *)

Definition indexUrl : string := "https://nodejs.org/dist/index.json".

(** The error [verifyWindowsExecutable] raises, and the message of the
    error [execSync] raises on a timeout. *)
Definition replModeError : JsError :=
  Error "Windows executable is still in REPL mode - blob injection failed".

Definition timeoutMessage (E : Env) : string :=
  "spawnSync " +:+ shell E +:+ " ETIMEDOUT".

Definition isDownload (ev : Event) : bool :=
  match ev with
  | Downloaded _ _ => true
  | _ => false
  end.

(** The downloads among the calls recorded so far. *)
Definition downloads (w : World) : list Event := List.filter isDownload (trace w).

(** A computation that makes no call leaving the process. *)
Definition keepsTrace {A} (m : Js A) : Prop := ∀ w, trace (m w).2 = trace w.


(** The lexicographic order on [(major, minor, patch)]. *)
Definition tripleLeb (a b : Z * Z * Z) : bool :=
  let '(a1, a2, a3) := a in
  let '(b1, b2, b3) := b in
  ((a1 <? b1) || ((a1 =? b1) && ((a2 <? b2) || ((a2 =? b2) && (a3 <=? b3)))))%Z.

Definition mainOf (v : Semver.SemVer) : Z * Z * Z :=
  (Semver.major v, Semver.minor v, Semver.patch v).

(** A version string within [19.9.0, 22.99.99]. *)
Definition withinSupportedRange (version : string) : Prop :=
  ∃ v, Semver.parse version = Some v ∧
       tripleLeb (19, 9, 0)%Z (mainOf v) = true ∧
       tripleLeb (mainOf v) (22, 99, 99)%Z = true.

(** The name the distribution host gives a platform in its file names. *)
Definition distributionToken (platform : string) : string :=
  if String.eqb platform "win32" then "win" else platform.

Definition archiveSuffix (platform : string) : string :=
  if String.eqb platform "win32" then ".zip" else ".tar.gz".

(** The template of the distribution host: the version twice, the name of
    the platform, the architecture and the archive suffix. *)
Definition distributionUrl (version token suffix : string) : string :=
  "https://nodejs.org/dist/v" +:+ version +:+ "/node-v" +:+ version +:+
  "-" +:+ token +:+ "-x64" +:+ suffix.

(** [NaN] read as the number it is compared as. *)
Definition nanAsZero (a : JsNumber) : JsNumber :=
  match a with
  | NaN => js_zero
  | _ => a
  end.

(** How [build] walks the platforms, with the entries written out: each
    platform is run in the world its predecessors left; a pipeline that
    returns is reported by the object it returned, one that throws by a
    line on the console and by [{platform, success: false, error}]. *)
Inductive Reported (E : Env) (this : Builder)
    : list string -> World -> list BuildResult -> World -> Prop :=
  | Reported_nil w : Reported E this [] w [] w
  | Reported_success platform platforms w w1 w2 results :
      buildForPlatform E this platform w =
        (Returned
           (mkBuildResult platform true
              (Some (getExecutableName this platform))
              (Some (path_resolve E (getExecutableName this platform)))
              (Some (buildId this)) None), w1) ->
      Reported E this platforms w1 results w2 ->
      Reported E this (platform :: platforms) w
        (mkBuildResult platform true
           (Some (getExecutableName this platform))
           (Some (path_resolve E (getExecutableName this platform)))
           (Some (buildId this)) None :: results) w2
  | Reported_failure platform platforms w w1 w2 results error :
      buildForPlatform E this platform w = (Thrown error, w1) ->
      Reported E this platforms
        (mkWorld (fs w1)
           (console w1 ++
            [(ErrorLevel, "Failed to build for " +:+ platform +:+ ": " +:+
                          message error)])
           (trace w1)) results w2 ->
      Reported E this (platform :: platforms) w
        (mkBuildResult platform false None None None (Some (message error))
         :: results) w2.

(* ===================================================================== *)
(** ** A concrete environment *)
(* ===================================================================== *)

(** A linux host with node 20.18.0.  The parameters are what a scenario
    varies: the refused file operations, the behaviour of subprocesses and
    the answer of the version index. *)
Module Scenario.

Definition renderJson (v : Json) : string :=
  match v with
  | JString s => dquote +:+ s +:+ dquote
  | JBool true => "true"
  | JBool false => "false"
  | JStringMap entries =>
      "{" +:+ String.concat ","
                (map (fun kv => dquote +:+ kv.1 +:+ dquote +:+ ":" +:+
                                dquote +:+ kv.2 +:+ dquote) entries) +:+ "}"
  end.

Definition stringify (obj : list (string * Json)) : string :=
  "{" +:+ String.concat ","
            (map (fun kv => dquote +:+ kv.1 +:+ dquote +:+ ":" +:+
                            renderJson kv.2) obj) +:+ "}".

(** A tar archive holding the runtime of [platform] and a README. *)
Definition untar (file cwd : string) (keep : string -> bool) (w : World)
    : Outcome unit * gmap string Node :=
  let members :=
    [ ("node-v20.18.0-darwin-x64/bin/node", "MACH-O");
      ("node-v20.18.0-darwin-x64/README.md", "readme") ] in
  (Returned tt,
   foldr (fun m files =>
            if keep m.1 then <[cwd +:+ "/" +:+ m.1 := File m.2 "644"]> files
            else files) (fs w) members).

Definition unzip (zipPath : string) (w : World) : Outcome ZipFile :=
  Returned (mkZipFile
    [ mkZipEntry "node-v20.18.0-win-x64/README.md" (Returned "readme");
      mkZipEntry "node-v20.18.0-win-x64/node.exe" (Returned "PE") ] None).

Definition env (faults : FsOp -> World -> option JsError)
    (run : string -> option Z -> World -> ExecResult * gmap string Node)
    (index : Outcome IndexData) : Env :=
  mkEnv "linux" "/usr/bin/node" "v20.18.0" "/home/user" "/tmp" "/bin/sh"
    "1700000000000" "9f8e7d6c"
    (String.concat "/")
    (fun p => if startsWith p "/" then p else "/work/" +:+ p)
    (fun d p => String.prefix (d +:+ "/") p)
    stringify
    faults (fun _ _ _ => true) run
    (fun _ _ => index)
    (fun _ _ => Returned ("archive-bytes", None))
    untar unzip.

Definition noFault : FsOp -> World -> option JsError := fun _ _ => None.

(** Every command exits with status 0, writes nothing and changes no file. *)
Definition quiet : string -> option Z -> World -> ExecResult * gmap string Node :=
  fun _ _ w => (Exited 0 EmptyString EmptyString, fs w).

Definition offline : Outcome IndexData :=
  Thrown (Error "getaddrinfo ENOTFOUND nodejs.org").

Definition builder (platforms : list string) : Builder :=
  mkBuilder
    (mkBuildOptions "index.js" "app" true false false [] platforms
       "/tmp/node-package-builder")
    "build-1700000000000-9f8e7d6c".

(** The disk after construction: the host runtime, the entry point and the
    temporary directory of the session. *)
Definition disk : gmap string Node :=
  list_to_map
    [ ("/usr/bin/node", File "ELF" "755");
      ("index.js", File "console.log(1)" "644");
      ("/tmp/node-package-builder", Dir "755");
      ("/tmp/node-package-builder/build-1700000000000-9f8e7d6c", Dir "755") ].

Definition start : World := mkWorld disk [] [].

(** The same disk with the path of the linux configuration file taken by a
    directory, and an older blob where the linux blob goes. *)
Definition occupied : World :=
  mkWorld
    (<["/tmp/node-package-builder/build-1700000000000-9f8e7d6c/sea-config-linux-build-1700000000000-9f8e7d6c.json"
         := Dir "755"]>
       (<["/tmp/node-package-builder/build-1700000000000-9f8e7d6c/sea-prep-linux.blob"
            := File "stale" "644"]> disk)) [] [].

(** The host when nothing goes wrong (and the version index is out of
    reach, so that the fallback version is used). *)
Definition calm : Env := env noFault quiet offline.

Definition linuxOnly : Builder := builder ["linux"].

(** A host on which every subprocess is still running when its timeout
    expires. *)
Definition hangs : string -> option Z -> World -> ExecResult * gmap string Node :=
  fun _ _ w => (TimedOut, fs w).

Definition hanging : Env := env noFault hangs offline.

(** A host on which the executable under test greets like the REPL. *)
Definition greets : string -> option Z -> World -> ExecResult * gmap string Node :=
  fun _ _ w => (Exited 0 "Welcome to Node.js v20.18.0." EmptyString, fs w).

Definition greeting : Env := env noFault greets offline.

(** A host that refuses recursive removals, as when a file of the directory
    is still held open. *)
Definition refuseRemoval : FsOp -> World -> option JsError :=
  fun op _ =>
    match op with
    | RmOp _ => Some (Error "EBUSY: resource busy or locked, rmdir")
    | _ => None
    end.

Definition busy : Env := env refuseRemoval quiet offline.

(** A host on which [postject] fails on Mach-O executables. *)
Definition failingPostject
    : string -> option Z -> World -> ExecResult * gmap string Node :=
  fun command _ w =>
    if includes command "--macho-segment-name"
    then (Exited 1 EmptyString "postject: injection failed", fs w)
    else (Exited 0 EmptyString EmptyString, fs w).

Definition brokenInjection : Env := env noFault failingPostject offline.

(** A host that reaches a version index listing a release beyond the
    range, a release candidate, two LTS releases and an old release. *)
Definition mockIndex : IndexData :=
  Entries
    [ mkIndexEntry (Some "v23.1.0") LtsFalse;
      mkIndexEntry (Some "v22.12.0-rc.1") LtsFalse;
      mkIndexEntry (Some "v22.11.0") LtsOther;
      mkIndexEntry (Some "v20.11.1") LtsOther;
      mkIndexEntry (Some "v18.20.4") LtsOther ].

Definition online : Env := env noFault quiet (Returned mockIndex).

(** A host whose version index lists pre-releases only. *)
Definition preReleasesOnly : Env :=
  env noFault quiet
    (Returned (Entries [ mkIndexEntry (Some "v22.0.0-rc.2") LtsFalse;
                         mkIndexEntry (Some "v21.0.0-beta.1") LtsFalse ])).

(** Options that ask for both flags and carry one asset. *)
Definition flagsRequested : UserOptions :=
  mkUserOptions None None None (Some true) (Some true)
    (Some [("logo.png", "assets/logo.png")]) None None.

Definition requested : Builder :=
  mkBuilder (resolveOptions calm flagsRequested) "build-1".


End Scenario.

(* ===================================================================== *)
(** ** The rest of the class and its observations *)
(* ===================================================================== *)

(** What reading the disk needs beyond [Env]: [path.basename], and the
    refusal of a read ([readdirSync]) by the system. *)
Record Reads : Type := mkReads {
  path_basename : string -> string;
  read_fault : string -> World -> option JsError
}.

Section Statics.

Context (E : Env) (R : Reads).

(** [fs.readdirSync(dir)]: the names [n] for which [dir/n] is on the disk. *)
Definition readdirSync (dir : string) : Js (list string) :=
  fun w =>
    match read_fault R dir w with
    | Some e => (Thrown e, w)
    | None =>
        match fs w !! dir with
        | Some (Dir _) =>
            (Returned
               (omap (fun kv : string * Node =>
                        let name := path_basename R kv.1 in
                        if String.eqb (path_join E [dir; name]) kv.1
                        then Some name else None)
                     (map_to_list (fs w))), w)
        | Some (File _ _) =>
            (Thrown (Error ("ENOTDIR: not a directory, scandir '" +:+ dir +:+ "'")),
             w)
        | None =>
            (Thrown (Error ("ENOENT: no such file or directory, scandir '" +:+
                            dir +:+ "'")), w)
        end
    end.

(** The [forEach] of [cleanupAllTempDirs]. *)
Fixpoint sweep (tempDir : string) (buildDirs : list string) : Js unit :=
  match buildDirs with
  | [] => mret tt
  | buildDir :: rest =>
      let fullPath := path_join E [tempDir; buildDir] in
      tryCatch
        (rmSync E fullPath;;
         console_log ("Cleaned up old build directory: " +:+ fullPath))
        (fun error =>
           console_warn ("Warning: Could not clean up " +:+ fullPath +:+ ": " +:+
                         message error));;
      sweep tempDir rest
  end.

Definition sharedTempDir : string :=
  path_join E [os_tmpdir E; "node-package-builder"].

Definition cleanupAllTempDirs : Js unit :=
  tryCatch
    (let tempDir := sharedTempDir in
     present ← existsSync tempDir;
     if present : bool then
       names ← readdirSync tempDir;
       let buildDirs := List.filter (fun dir => startsWith dir "build-") names in
       sweep tempDir buildDirs
     else mret tt)
    (fun error =>
       console_warn ("Warning: Could not clean up temp directories: " +:+
                     message error)).

End Statics.

(** What [|| 0] yields is never [NaN]. *)
Definition proper (a : JsNumber) : Prop := a ≠ NaN.

(** The commands of [generateBlob] and [injectBlob], and the name under
    which [createExecutable] copies the runtime. *)
Definition blobCommand (E : Env) (configPath : string) : string :=
  dquote +:+ process_execPath E +:+ dquote +:+ " --experimental-sea-config " +:+
  configPath.

Definition postjectCommand (platform executableName blobPath : string) : string :=
  if String.eqb platform "darwin" then
    "npx postject " +:+ dquote +:+ executableName +:+ dquote +:+
    " NODE_SEA_BLOB " +:+ dquote +:+ blobPath +:+ dquote +:+
    " --sentinel-fuse " +:+ sentinelFuse +:+ " --macho-segment-name NODE_SEA"
  else
    "npx postject " +:+ dquote +:+ executableName +:+ dquote +:+
    " NODE_SEA_BLOB " +:+ dquote +:+ blobPath +:+ dquote +:+
    " --sentinel-fuse " +:+ sentinelFuse.

Definition copiedName (platform executableName : string) : string :=
  if String.eqb platform "win32" && negb (endsWith executableName ".exe")
  then executableName +:+ ".exe" else executableName.

(** How [createExecutable] obtains the runtime to copy. *)
Definition acquireRuntime (E : Env) (platform : string) : Js string :=
  if String.eqb platform (process_platform E)
  then mret (process_execPath E)
  else downloadNodeBinary E platform.

(** [p] names a regular file. *)
Definition regular (w : World) (p : string) : Prop :=
  ∃ c m, fs w !! p = Some (File c m).

(** Calls to the network among the calls recorded so far. *)
Definition isNetwork (ev : Event) : bool :=
  match ev with
  | Spawned _ => false
  | Fetched _ | Downloaded _ _ => true
  end.

Definition networkCalls (w : World) : list Event := List.filter isNetwork (trace w).

(** A computation that stays off the network. *)
Definition staysOffline {A} (m : Js A) : Prop :=
  ∀ w, networkCalls (m w).2 = networkCalls w.

(** The entries of the index read without exceptions: the version of an
    entry, whether it passes the filter, whether it is an LTS release of the
    20 line. *)
Definition entryVersion (v : IndexEntry) : string :=
  slice1 (default EmptyString (ie_version v)).

Definition entryIsValid (v : IndexEntry) : bool :=
  match isValidVersion v with
  | Returned b => b
  | Thrown _ => false
  end.

Definition entryIsLTS20 (v : IndexEntry) : bool :=
  match ie_lts v with
  | LtsFalse => false
  | LtsOther =>
      match Semver.parse (entryVersion v) with
      | Some sv => (Semver.major sv =? 20)%Z
      | None => false
      end
  end.

(** The choice among the entries that passed the filter, in words: the
    first preferred version that is listed; failing that the first listed
    LTS release of the 20 line; failing that the first entry. *)
Definition chooseVersion (validVersions : list IndexEntry) : option string :=
  match validVersions with
  | [] => None
  | first :: _ =>
      Some
        match List.find (fun preferred =>
                           existsb (fun v => String.eqb (entryVersion v) preferred)
                                   validVersions)
                        preferredVersions with
        | Some preferred => preferred
        | None =>
            match List.find entryIsLTS20 validVersions with
            | Some v => entryVersion v
            | None => entryVersion first
            end
        end
  end.

(* ===================================================================== *)
(** ** Further hosts *)
(* ===================================================================== *)

Module Cases.

(** A host that refuses to unlink its own runtime. *)
Definition keepRuntime : FsOp -> World -> option JsError :=
  fun op _ =>
    match op with
    | UnlinkOp p =>
        if String.eqb p "/usr/bin/node"
        then Some (Error "EPERM: operation not permitted, unlink '/usr/bin/node'")
        else None
    | _ => None
    end.

Definition stubborn : Env :=
  Scenario.env keepRuntime Scenario.quiet Scenario.offline.

(** The scenario host with an older runtime. *)
Definition node18 : Env :=
  mkEnv "linux" "/usr/bin/node" "v18.20.4" "/home/user" "/tmp" "/bin/sh"
    "1700000000000" "9f8e7d6c"
    (path_join Scenario.calm) (path_resolve Scenario.calm)
    (path_inside Scenario.calm) (JSON_stringify Scenario.calm)
    Scenario.noFault (rm_kept Scenario.calm) Scenario.quiet
    (http_get Scenario.calm) (http_stream Scenario.calm)
    Scenario.untar Scenario.unzip.

(** Reading the disk of the scenario: the last component of a path, and no
    read refused. *)
Definition posix : Reads :=
  mkReads (fun p => List.last (split "/" p) EmptyString) (fun _ _ => None).

(** The disk two earlier sessions left behind, beside a file that is not
    theirs. *)
Definition leftovers : World :=
  mkWorld
    (list_to_map
       [ ("/tmp/node-package-builder", Dir "755");
         ("/tmp/node-package-builder/build-1-aa", Dir "755");
         ("/tmp/node-package-builder/build-1-aa/sea-prep-linux.blob",
          File "blob" "644");
         ("/tmp/node-package-builder/build-2-bb", Dir "755");
         ("/tmp/node-package-builder/notes.txt", File "keep" "644") ]) [] [].

(** The scenario host on a connection that drops during a download, and on
    one that delivers an archive without the runtime. *)
Definition dropping : Env :=
  mkEnv "linux" "/usr/bin/node" "v20.18.0" "/home/user" "/tmp" "/bin/sh"
    "1700000000000" "9f8e7d6c"
    (path_join Scenario.calm) (path_resolve Scenario.calm)
    (path_inside Scenario.calm) (JSON_stringify Scenario.calm)
    Scenario.noFault (rm_kept Scenario.calm) Scenario.quiet
    (http_get Scenario.calm)
    (fun _ _ => Returned ("archive-by", Some (Error "aborted")))
    Scenario.untar Scenario.unzip.

Definition docsOnly : ZipFile :=
  mkZipFile [ mkZipEntry "node-v20.18.0-win-x64/README.md" (Returned "readme") ]
            None.

Definition incomplete : Env :=
  mkEnv "linux" "/usr/bin/node" "v20.18.0" "/home/user" "/tmp" "/bin/sh"
    "1700000000000" "9f8e7d6c"
    (path_join Scenario.calm) (path_resolve Scenario.calm)
    (path_inside Scenario.calm) (JSON_stringify Scenario.calm)
    Scenario.noFault (rm_kept Scenario.calm) Scenario.quiet
    (http_get Scenario.calm) (http_stream Scenario.calm)
    Scenario.untar (fun _ _ => Returned docsOnly).

(** A host on which every subprocess exits with status 3 after a line on its
    standard error. *)
Definition crashes : string -> option Z -> World -> ExecResult * gmap string Node :=
  fun _ _ w => (Exited 3 EmptyString "boom", fs w).

Definition crashing : Env := Scenario.env Scenario.noFault crashes Scenario.offline.

End Cases.

(* ===================================================================== *)
(** ** Facts about strings *)
(* ===================================================================== *)

Section StringFacts.

Lemma prefix_append (v rest : string) : String.prefix v (v +:+ rest) = true.
Proof.
  induction v as [|c v IH]; simpl.
  - by destruct rest.
  - destruct (ascii_dec c c) as [_|Hne]; [exact IH | by destruct Hne].
Qed.

Lemma includes_prefix (s needle : string) :
  String.prefix needle s = true -> includes s needle = true.
Proof. intros H. destruct s; cbn [includes]; rewrite H; done. Qed.

Lemma includes_append_left (a s needle : string) :
  includes s needle = true -> includes (a +:+ s) needle = true.
Proof.
  intros H. induction a as [|c a IH]; simpl; [done|].
  rewrite IH. apply orb_true_r.
Qed.

Lemma includes_middle (a v b : string) : includes (a +:+ v +:+ b) v = true.
Proof. apply includes_append_left, includes_prefix, prefix_append. Qed.

Lemma includes_slice1 (s needle : string) :
  includes s needle = false -> includes (slice1 s) needle = false.
Proof.
  destruct s as [|c s]; simpl; [done|].
  intros H. by apply orb_false_iff in H as [_ H].
Qed.

Lemma endsWith_refl (s : string) : endsWith s s = true.
Proof. destruct s; cbn [endsWith]; rewrite String.eqb_refl; done. Qed.

Lemma endsWith_append_left (a s suffix : string) :
  endsWith s suffix = true -> endsWith (a +:+ s) suffix = true.
Proof.
  intros H. induction a as [|c a IH]; simpl; [done|].
  rewrite IH. apply orb_true_r.
Qed.

Lemma endsWith_append (a suffix : string) : endsWith (a +:+ suffix) suffix = true.
Proof. apply endsWith_append_left, endsWith_refl. Qed.

End StringFacts.

(* ===================================================================== *)
(** ** The executable name and the download URL *)
(* ===================================================================== *)

(** C9.  On win32 the executable name is the base name when that already
    ends in [.exe] and the base name followed by one [.exe] otherwise; it
    always ends in [.exe], and taking the name of a name changes nothing.
    On linux and darwin the base name is returned as it is. *)
Theorem getExecutableName_exe_once (this : Builder) :
  let baseName := opt_output (options this) in
  getExecutableName this "win32" =
    (if endsWith baseName ".exe" then baseName else baseName +:+ ".exe") ∧
  endsWith (getExecutableName this "win32") ".exe" = true ∧
  getExecutableName (withOutput this (getExecutableName this "win32")) "win32" =
    getExecutableName this "win32" ∧
  getExecutableName this "linux" = baseName ∧
  getExecutableName this "darwin" = baseName.
Proof.
  intros baseName. unfold getExecutableName. simpl. fold baseName.
  destruct (endsWith baseName ".exe") eqn:Hexe.
  - rewrite Hexe. done.
  - rewrite (endsWith_append baseName ".exe"). done.
Qed.

Lemma distributionUrl_version (version token suffix : string) :
  includes (distributionUrl version token suffix) version = true.
Proof. apply (includes_middle "https://nodejs.org/dist/v" version). Qed.

Lemma distributionUrl_token (version token suffix : string) :
  includes (distributionUrl version token suffix) token = true.
Proof.
  unfold distributionUrl.
  apply (includes_append_left "https://nodejs.org/dist/v"),
        (includes_append_left version), (includes_append_left "/node-v"),
        (includes_append_left version), (includes_append_left "-").
  apply includes_prefix, prefix_append.
Qed.

Lemma distributionUrl_suffix (version token suffix : string) :
  endsWith (distributionUrl version token suffix) suffix = true.
Proof.
  unfold distributionUrl.
  apply (endsWith_append_left "https://nodejs.org/dist/v"),
        (endsWith_append_left version), (endsWith_append_left "/node-v"),
        (endsWith_append_left version), (endsWith_append_left "-"),
        (endsWith_append_left token), (endsWith_append_left "-x64").
  apply endsWith_refl.
Qed.

(** C7 as the code has it.  For a supported platform the URL contains the
    version and the distribution's name of the platform ([win] for win32,
    the platform itself for linux and darwin) and ends in [.zip] for win32
    and in [.tar.gz] otherwise; any other platform is refused. *)
Theorem getNodeDownloadUrl_supported (version platform : string) :
  (platform ∈ getSupportedPlatforms ->
   ∃ url, getNodeDownloadUrl version platform = Returned url ∧
          includes url version = true ∧
          includes url (distributionToken platform) = true ∧
          endsWith url (archiveSuffix platform) = true) ∧
  (platform ∉ getSupportedPlatforms ->
   getNodeDownloadUrl version platform =
     Thrown (Error ("Unsupported platform: " +:+ platform))).
Proof.
  split.
  - intros Hin. unfold getSupportedPlatforms in Hin.
    apply list_elem_of_In in Hin. simpl in Hin.
    exists (distributionUrl version (distributionToken platform)
              (archiveSuffix platform)).
    split; [by destruct Hin as [<- | [<- | [<- | []]]]|].
    split; [apply distributionUrl_version|].
    split; [apply distributionUrl_token | apply distributionUrl_suffix].
  - intros Hnot. unfold getSupportedPlatforms in Hnot. unfold getNodeDownloadUrl.
    rewrite list_elem_of_In in Hnot. simpl in Hnot.
    destruct (String.eqb_spec platform "win32") as [->|_]; [tauto|].
    destruct (String.eqb_spec platform "darwin") as [->|_]; [tauto|].
    destruct (String.eqb_spec platform "linux") as [->|_]; [tauto|].
    reflexivity.
Qed.

Lemma getNodeDownloadUrl_supported_witness :
  (∃ url, getNodeDownloadUrl "20.18.0" "win32" = Returned url ∧
          includes url "20.18.0" = true ∧
          includes url (distributionToken "win32") = true ∧
          endsWith url (archiveSuffix "win32") = true) ∧
  getNodeDownloadUrl "20.18.0" "freebsd" =
    Thrown (Error ("Unsupported platform: " +:+ "freebsd")).
Proof.
  split.
  - apply (proj1 (getNodeDownloadUrl_supported "20.18.0" "win32")).
    apply list_elem_of_In. simpl. tauto.
  - apply (proj2 (getNodeDownloadUrl_supported "20.18.0" "freebsd")).
    rewrite list_elem_of_In. simpl. intuition discriminate.
Defined.

(** C7 as stated fails on win32: the URL of node 20.18.0 for win32 names the
    platform [win] and does not contain the platform token [win32]. *)
Lemma getNodeDownloadUrl_win32_token_absent :
  getNodeDownloadUrl "20.18.0" "win32" =
    Returned "https://nodejs.org/dist/v20.18.0/node-v20.18.0-win-x64.zip" ∧
  includes "https://nodejs.org/dist/v20.18.0/node-v20.18.0-win-x64.zip" "win32"
    = false.
Proof. split; reflexivity. Qed.

(* ===================================================================== *)
(** ** The version comparison *)
(* ===================================================================== *)

Section ComparisonFacts.

Lemma js_gt_integers (a b : Z) : js_gt (of_integer a) (of_integer b) = (b <? a)%Z.
Proof.
  unfold js_gt, of_integer, Qcompare. simpl. rewrite !Z.mul_1_r.
  rewrite Z.ltb_antisym, Z.leb_compare. by destruct (a ?= b)%Z.
Qed.

Lemma js_lt_integers (a b : Z) : js_lt (of_integer a) (of_integer b) = (a <? b)%Z.
Proof. apply js_gt_integers. Qed.

Lemma or_zero_integer (o : option Z) :
  or_zero (of_integer <$> o) = of_integer (default 0%Z o).
Proof.
  destruct o as [z|]; simpl; [|done].
  destruct (Z.eqb_spec z 0) as [->|]; done.
Qed.

Lemma drop_lookup_cons {A} (l : list A) (i : nat) :
  drop i l = match l !! i with
             | Some x => x :: drop (S i) l
             | None => []
             end.
Proof.
  destruct (l !! i) as [x|] eqn:Hi.
  - by apply drop_S.
  - apply drop_ge. by apply lookup_ge_None.
Qed.

Lemma tail_drop {A} (l : list A) (i : nat) : tl (drop i l) = drop (S i) l.
Proof.
  revert i; induction l as [|x l IH]; intros i; [by destruct i|].
  destruct i; simpl; [by rewrite drop_0 | apply IH].
Qed.

Lemma spec_components_ge_nil (required : list Z) :
  spec_components_ge [] required = spec_zero_ge required.
Proof. done. Qed.

(** The loop, started at index [i] with as many turns as the longer list
    has components left, is the left-to-right comparison of what is left. *)
Lemma compareFrom_spec (current required : list Z) (todo i : nat) :
  Nat.max (length (drop i current)) (length (drop i required)) = todo ->
  compareFrom (map of_integer current) (map of_integer required) todo i =
    spec_components_ge (drop i current) (drop i required).
Proof.
  revert i. induction todo as [|todo IH]; intros i Hmax.
  - assert (drop i current = []) as -> by (apply length_zero_iff_nil; lia).
    assert (drop i required = []) as -> by (apply length_zero_iff_nil; lia).
    done.
  - cbn [compareFrom].
    rewrite !list_lookup_fmap, !or_zero_integer, js_gt_integers, js_lt_integers.
    rewrite IH.
    2:{ rewrite <- !tail_drop. destruct (drop i current), (drop i required);
        simpl in *; lia. }
    rewrite (drop_lookup_cons current i), (drop_lookup_cons required i).
    destruct (current !! i) as [c|] eqn:Hc, (required !! i) as [r|] eqn:Hr;
      simpl.
    + reflexivity.
    + apply lookup_ge_None in Hr.
      rewrite (drop_ge required (S i)) by lia. reflexivity.
    + apply lookup_ge_None in Hc.
      rewrite (drop_ge current (S i)) by lia. reflexivity.
    + apply lookup_ge_None in Hc. apply lookup_ge_None in Hr.
      rewrite !drop_ge in Hmax by lia. discriminate.
Qed.

Lemma compareParts_spec (current required : list Z) :
  compareParts (map of_integer current) (map of_integer required) =
    spec_components_ge current required.
Proof.
  unfold compareParts. rewrite !length_map.
  rewrite (compareFrom_spec current required _ 0); [by rewrite !drop_0|].
  by rewrite !drop_0.
Qed.

Lemma or_zero_nanAsZero (o : option JsNumber) :
  or_zero (nanAsZero <$> o) = or_zero o.
Proof. by destruct o as [[]|]. Qed.

Lemma compareFrom_nanAsZero (current required : list JsNumber) (todo i : nat) :
  compareFrom (map nanAsZero current) (map nanAsZero required) todo i =
    compareFrom current required todo i.
Proof.
  revert i. induction todo as [|todo IH]; intros i; [done|].
  cbn [compareFrom]. rewrite !list_lookup_fmap, !or_zero_nanAsZero, IH. done.
Qed.

End ComparisonFacts.

(** C10 as stated fails: [abc] has no numeric component, yet it is not
    greater than or equal to [19.9.0], and a host reporting the version
    [vabc] is rejected by [checkNodeVersion]. *)
Lemma non_numeric_version_is_rejected :
  isVersionGreaterOrEqual "abc" "19.9.0" = false ∧
  checkNodeVersionWith NumberParser.Number "vabc" =
    Thrown (Error "Node.js version 19.9.0 or higher is required. Current version: abc").
Proof. split; vm_compute; reflexivity. Qed.

(** C10 as the code has it.  A component that [Number] turns into [NaN] is
    replaced by 0 by [|| 0] and compared as 0, it is not skipped: the
    comparison cannot tell [NaN] from 0.  So a version whose components are
    all [NaN] is below [19.9.0], and [checkNodeVersion] rejects a host that
    reports such a version. *)
Theorem nan_component_counts_as_zero :
  (∀ currentParts requiredParts : list JsNumber,
     compareParts currentParts requiredParts =
       compareParts (map nanAsZero currentParts) (map nanAsZero requiredParts)) ∧
  (∀ current : string,
     Forall (fun c => NumberParser.Number c = NaN) (split "." current) ->
     isVersionGreaterOrEqual current "19.9.0" = false ∧
     ∀ c : ascii,
       checkNodeVersionWith NumberParser.Number (String c current) =
         Thrown (Error ("Node.js version 19.9.0 or higher is required. " +:+
                        "Current version: " +:+ current))).
Proof.
  split.
  - intros cs rs. unfold compareParts.
    by rewrite !length_map, compareFrom_nanAsZero.
  - intros current Hnan.
    assert (isVersionGreaterOrEqual current "19.9.0" = false) as Hlt.
    { unfold isVersionGreaterOrEqual, versionGreaterOrEqualWith, compareParts.
      destruct (split "." current) as [|c cs] eqn:Hsplit.
      - vm_compute. reflexivity.
      - apply Forall_cons in Hnan as [Hc _].
        change (split "." "19.9.0") with ["19"; "9"; "0"].
        cbn [map length Nat.max]. rewrite Hc.
        destruct (length (map NumberParser.Number cs)) as [|[|[|n]]];
          vm_compute; reflexivity. }
    split; [exact Hlt|].
    intros c. unfold checkNodeVersionWith. cbn [slice1].
    fold isVersionGreaterOrEqual. rewrite Hlt. reflexivity.
Qed.

Lemma nan_component_counts_as_zero_witness :
  isVersionGreaterOrEqual "abc" "19.9.0" = false ∧
  ∀ c : ascii,
    checkNodeVersionWith NumberParser.Number (String c "abc") =
      Thrown (Error ("Node.js version 19.9.0 or higher is required. " +:+
                     "Current version: " +:+ "abc")).
Proof.
  apply (proj2 nan_component_counts_as_zero "abc").
  change (split "." "abc") with ["abc"].
  constructor; [reflexivity | constructor].
Defined.

(* ===================================================================== *)
(** ** Version resolution *)
(* ===================================================================== *)

Section ResolverFacts.

Lemma filterThrowing_kept {A} (p : A -> Outcome bool) (l kept : list A) :
  filterThrowing p l = Returned kept ->
  Forall (fun x => p x = Returned true) kept.
Proof.
  revert kept. induction l as [|x l IH]; intros kept; simpl.
  - intros [= <-]. constructor.
  - unfold mbind, Outcome_bind.
    destruct (p x) as [[]|] eqn:Hp; [| |discriminate];
      (destruct (filterThrowing p l) as [kept'|]; [|discriminate]);
      intros [= <-]; [constructor|]; auto.
Qed.

Lemma findThrowing_found {A} (p : A -> Outcome bool) (l : list A) (x : A) :
  findThrowing p l = Returned (Some x) -> x ∈ l.
Proof.
  induction l as [|y l IH]; simpl; [discriminate|].
  unfold mbind, Outcome_bind.
  destruct (p y) as [[]|]; [| |discriminate].
  - intros [= <-]. left.
  - intros H. right. auto.
Qed.

Lemma firstPreferred_found (preferred : list string)
    (validVersions : list IndexEntry) (version : string) :
  firstPreferred preferred validVersions = Returned (Some version) ->
  ∃ v, v ∈ validVersions ∧ versionOf v = Returned version.
Proof.
  induction preferred as [|p rest IH]; simpl; [discriminate|].
  unfold mbind, Outcome_bind.
  destruct (findThrowing (isPreferred p) validVersions) as [[v|]|] eqn:Hfind;
    [| auto | discriminate].
  destruct (versionOf v) as [s|] eqn:Hv; [|discriminate].
  intros [= <-]. exists v. split; [|done].
  by apply findThrowing_found in Hfind.
Qed.

(** Whatever [selectVersion] returns is the version of an entry that passed
    the filter. *)
Lemma selectVersion_valid (data : IndexData) (version : string) :
  selectVersion data = Returned version ->
  ∃ v, isValidVersion v = Returned true ∧ versionOf v = Returned version.
Proof.
  destruct data as [|versions]; unfold selectVersion; [discriminate|].
  unfold mbind at 1, Outcome_bind at 1.
  destruct (filterThrowing isValidVersion versions) as [valid|] eqn:Hfilter;
    [|discriminate].
  apply filterThrowing_kept in Hfilter.
  destruct valid as [|first valid']; [discriminate|].
  unfold mbind at 1, Outcome_bind at 1.
  destruct (firstPreferred preferredVersions (first :: valid'))
    as [[preferred|]|] eqn:Hpref; [| |discriminate].
  - intros [= <-]. apply firstPreferred_found in Hpref as (v & Hin & Hv).
    exists v. split; [|done]. by eapply Forall_forall in Hfilter.
  - unfold mbind at 1, Outcome_bind at 1.
    destruct (findThrowing isLTS20 (first :: valid')) as [[v|]|] eqn:Hlts;
      [| |discriminate]; intros Hv.
    + exists v. split; [|done]. apply findThrowing_found in Hlts.
      by eapply Forall_forall in Hfilter.
    + exists first. split; [|done]. by apply Forall_inv in Hfilter.
Qed.

Lemma compare_min_bound (v : Semver.SemVer) :
  Semver.compareVersions v (Semver.mkSemVer 19 9 0 []) ≠ Lt ->
  tripleLeb (19, 9, 0)%Z (mainOf v) = true.
Proof.
  unfold Semver.compareVersions, Semver.compareMain, tripleLeb, mainOf.
  cbn -[Z.ltb Z.eqb Z.leb Z.compare]. intros H.
  repeat (rewrite orb_true_iff || rewrite andb_true_iff || rewrite Z.ltb_lt ||
          rewrite Z.eqb_eq || rewrite Z.leb_le).
  destruct (Z.compare_spec (Semver.major v) 19); [|done|lia].
  destruct (Z.compare_spec (Semver.minor v) 9); [|done|lia].
  destruct (Z.compare_spec (Semver.patch v) 0); [lia|done|lia].
Qed.

Lemma compare_max_bound (v : Semver.SemVer) :
  Semver.compareVersions v (Semver.mkSemVer 22 99 99 []) ≠ Gt ->
  tripleLeb (mainOf v) (22, 99, 99)%Z = true.
Proof.
  unfold Semver.compareVersions, Semver.compareMain, tripleLeb, mainOf.
  cbn -[Z.ltb Z.eqb Z.leb Z.compare]. intros H.
  repeat (rewrite orb_true_iff || rewrite andb_true_iff || rewrite Z.ltb_lt ||
          rewrite Z.eqb_eq || rewrite Z.leb_le).
  destruct (Z.compare_spec (Semver.major v) 22); [|lia|done].
  destruct (Z.compare_spec (Semver.minor v) 99); [|lia|done].
  destruct (Z.compare_spec (Semver.patch v) 99); [lia|lia|done].
Qed.

(** An entry that passes the filter has a version within the range, and
    neither [rc] nor [beta] occurs in it. *)
Lemma isValidVersion_sound (v : IndexEntry) (version : string) :
  isValidVersion v = Returned true ->
  versionOf v = Returned version ->
  withinSupportedRange version ∧
  includes version "rc" = false ∧ includes version "beta" = false.
Proof.
  unfold isValidVersion, versionOf.
  destruct (ie_version v) as [s|]; [|discriminate].
  intros Hvalid [= <-]. revert Hvalid.
  unfold mbind at 1, Outcome_bind at 1.
  unfold Semver.gte, Semver.lte, Semver.compare, Semver.construct.
  change (Semver.parse minVersion) with (Some (Semver.mkSemVer 19 9 0 [])).
  change (Semver.parse maxVersion) with (Some (Semver.mkSemVer 22 99 99 [])).
  unfold mbind, Outcome_bind.
  destruct (Semver.parse (slice1 s)) as [sv|] eqn:Hparse; [|discriminate].
  destruct (Semver.compareVersions sv (Semver.mkSemVer 19 9 0 [])) eqn:Hmin;
    try discriminate;
    (destruct (Semver.compareVersions sv (Semver.mkSemVer 22 99 99 [])) eqn:Hmax;
     try discriminate);
    cbn [default from_option id];
    intros [= Hpre]; apply andb_true_iff in Hpre as [Hrc Hbeta];
    apply negb_true_iff in Hrc; apply negb_true_iff in Hbeta;
    (split; [|by split; apply includes_slice1]);
    exists sv; (split; [done|]);
    (split; [apply compare_min_bound | apply compare_max_bound]); congruence.
Qed.

Lemma fallbackVersion_supported :
  withinSupportedRange fallbackVersion ∧
  includes fallbackVersion "rc" = false ∧ includes fallbackVersion "beta" = false.
Proof.
  split; [|split; reflexivity].
  exists (Semver.mkSemVer 20 18 0 []). repeat split.
Qed.

(** The two ways [getRecommendedNodeVersion] ends. *)
Lemma getRecommendedNodeVersion_run (E : Env) (w : World) :
  getRecommendedNodeVersion E w =
    match http_get E indexUrl w ≫= selectVersion with
    | Returned version => (Returned version, record (Fetched indexUrl) w)
    | Thrown _ =>
        (Returned fallbackVersion,
         mkWorld (fs w)
           (console w ++
              [(WarnLevel, "Failed to fetch latest Node.js version, using fallback")])
           (trace w ++ [Fetched indexUrl]))
    end.
Proof.
  unfold getRecommendedNodeVersion, tryCatch, axios_get, liftOutcome.
  unfold mbind, Js_bind, Outcome_bind. fold indexUrl.
  destruct (http_get E indexUrl w) as [data|]; [|done].
  destruct (selectVersion data); done.
Qed.

End ResolverFacts.

(** C4.  Whatever the version index answers, and also when it cannot be
    fetched, [getRecommendedNodeVersion] returns (it never throws) a version
    within [19.9.0, 22.99.99] in which neither [rc] nor [beta] occurs; when
    the request fails, the answer is not an array, an entry is not a version
    or no entry passes the filter, that version is the fallback 20.18.0. *)
Theorem getRecommendedNodeVersion_supported (E : Env) (w : World) :
  ∃ version w',
    getRecommendedNodeVersion E w = (Returned version, w') ∧
    withinSupportedRange version ∧
    includes version "rc" = false ∧
    includes version "beta" = false ∧
    match http_get E "https://nodejs.org/dist/index.json" w with
    | Thrown _ | Returned NotAnArray => version = "20.18.0"
    | Returned (Entries versions) =>
        match filterThrowing isValidVersion versions with
        | Thrown _ | Returned [] => version = "20.18.0"
        | Returned (_ :: _) => True
        end
    end.
Proof.
  rewrite getRecommendedNodeVersion_run. unfold indexUrl.
  destruct (http_get E _ w) as [data|e] eqn:Hget; cbn [mbind Outcome_bind].
  2:{ eexists _, _. split; [done|].
      destruct fallbackVersion_supported as (? & ? & ?). done. }
  destruct (selectVersion data) as [version|e] eqn:Hsel.
  - eexists _, _. split; [done|].
    destruct (selectVersion_valid _ _ Hsel) as (v & Hvalid & Hv).
    destruct (isValidVersion_sound _ _ Hvalid Hv) as (Hrange & Hrc & Hbeta).
    repeat (split; [done|]).
    destruct data as [|versions]; [discriminate|].
    unfold selectVersion in Hsel. unfold mbind at 1, Outcome_bind at 1 in Hsel.
    destruct (filterThrowing isValidVersion versions) as [[|]|]; done.
  - eexists _, _. split; [done|].
    destruct fallbackVersion_supported as (Hrange & Hrc & Hbeta).
    repeat (split; [done|]).
    destruct data as [|versions]; [done|].
    by destruct (filterThrowing isValidVersion versions) as [[|]|].
Qed.

(** With the mock index the newest LTS release of the 20 line within the
    range is chosen; an index of pre-releases only leads to the fallback. *)
Example getRecommendedNodeVersion_mock_index :
  (getRecommendedNodeVersion Scenario.online Scenario.start).1 = Returned "20.11.1" ∧
  (getRecommendedNodeVersion Scenario.preReleasesOnly Scenario.start).1
    = Returned "20.18.0".
Proof. split; vm_compute; reflexivity. Qed.

(* ===================================================================== *)
(** ** Running computations *)
(* ===================================================================== *)

Section MonadFacts.

Lemma bind_run {A B} (m : Js A) (f : A -> Js B) (w : World) :
  (m ≫= f) w = match m w with
               | (Returned a, w') => f a w'
               | (Thrown e, w') => (Thrown e, w')
               end.
Proof. reflexivity. Qed.

Lemma bind_returned {A B} (m : Js A) (f : A -> Js B) (w w1 : World) (a : A) :
  m w = (Returned a, w1) -> (m ≫= f) w = f a w1.
Proof. intros H. by rewrite bind_run, H. Qed.

Lemma bind_thrown {A B} (m : Js A) (f : A -> Js B) (w w1 : World) (e : JsError) :
  m w = (Thrown e, w1) -> (m ≫= f) w = (Thrown e, w1).
Proof. intros H. by rewrite bind_run, H. Qed.

Lemma bind_returned_inv {A B} (m : Js A) (f : A -> Js B) (w w' : World) (b : B) :
  (m ≫= f) w = (Returned b, w') ->
  ∃ a w1, m w = (Returned a, w1) ∧ f a w1 = (Returned b, w').
Proof.
  rewrite bind_run. destruct (m w) as [[a|e] w1]; [eauto | discriminate].
Qed.

(** A run is the pair of its outcome and its final world. *)
Lemma run_outcome {A} (m : Js A) (w : World) (r : Outcome A) :
  (m w).1 = r -> m w = (r, (m w).2).
Proof. intros <-. by destruct (m w). Qed.

Lemma when_false (m : Js unit) (w : World) : when false m w = (Returned tt, w).
Proof. reflexivity. Qed.

Lemma when_true (m : Js unit) (w : World) : when true m w = m w.
Proof. reflexivity. Qed.

(** A file operation that returns leaves console and trace as they were, and
    one that throws leaves the whole world. *)
Lemma fsOperation_inv (E : Env) (op : FsOp)
    (act : gmap string Node -> Outcome (gmap string Node)) (w : World) :
  (∃ files, fs_fault E op w = None ∧ act (fs w) = Returned files ∧
            fsOperation E op act w = (Returned tt, withFs w files)) ∨
  (∃ e, fsOperation E op act w = (Thrown e, w)).
Proof.
  unfold fsOperation. destruct (fs_fault E op w) as [e|]; [right; eauto|].
  destruct (act (fs w)) as [files|e]; [left|right]; eauto.
Qed.

Lemma writeFileSync_returned (E : Env) (p data : string) (w w' : World) :
  writeFileSync E p data w = (Returned tt, w') ->
  (∃ m, fs w' !! p = Some (File data m)) ∧
  console w' = console w ∧ trace w' = trace w.
Proof.
  unfold writeFileSync, fsOperation.
  destruct (fs_fault E (WriteOp p) w); [discriminate|].
  destruct (fs w !! p) as [[]|]; [discriminate| |];
    intros [= <-]; (split; [|done]); eexists; apply lookup_insert_eq.
Qed.

End MonadFacts.

(* ===================================================================== *)
(** ** The SEA configuration *)
(* ===================================================================== *)

Lemma createSeaConfig_written (E : Env) (this : Builder) (platform : string)
    (w w' : World) (p : string) :
  createSeaConfig E this platform w = (Returned p, w') ->
  p = configPathFor E this platform ∧
  ∃ m, fs w' !! p = Some (File (JSON_stringify E (seaConfig E this platform)) m).
Proof.
  unfold createSeaConfig. intros H.
  apply bind_returned_inv in H as ([] & w1 & Hwrite & [= <- <-]).
  split; [done|]. by apply writeFileSync_returned in Hwrite as [? _].
Qed.

(** C6.  The object that [createSeaConfig] serializes has both flags off
    when the target is not the host, has the values of the options when it
    is, and has a key [assets] exactly when the assets are not empty; the
    serialized object is what ends up in the configuration file. *)
Theorem createSeaConfig_flags (E : Env) (o : UserOptions) (id platform : string) :
  let this := mkBuilder (resolveOptions E o) id in
  let config := seaConfig E this platform in
  (platform ≠ process_platform E ->
   getProperty "useSnapshot" config = Some (JBool false) ∧
   getProperty "useCodeCache" config = Some (JBool false)) ∧
  (platform = process_platform E ->
   getProperty "useSnapshot" config =
     Some (JBool (default false (user_useSnapshot o))) ∧
   getProperty "useCodeCache" config =
     Some (JBool (default false (user_useCodeCache o)))) ∧
  (is_Some (getProperty "assets" config) ↔ default [] (user_assets o) ≠ []) ∧
  (∀ w p w', createSeaConfig E this platform w = (Returned p, w') ->
     p = configPathFor E this platform ∧
     ∃ m, fs w' !! p = Some (File (JSON_stringify E config) m)).
Proof.
  intros this config.
  split; [|split; [|split]]; [| | |intros w p w'; apply createSeaConfig_written].
  all: subst config; unfold seaConfig;
    cbn [options this resolveOptions opt_main opt_useSnapshot opt_useCodeCache
         opt_assets opt_disableExperimentalSEAWarning].
  - intros Hne. destruct (String.eqb_spec platform (process_platform E)); [done|].
    by destruct (default [] (user_assets o)).
  - intros Heq. destruct (String.eqb_spec platform (process_platform E)); [|done].
    by destruct (default [] (user_assets o)).
  - destruct (default [] (user_assets o)) as [|a l];
      destruct (String.eqb platform (process_platform E)); cbn;
      (split; [intros Hsome | intros Hne]); try done;
      try (by destruct Hsome); eauto.
Qed.

(** An instance: a darwin target on a linux host, with both flags requested
    and one asset. *)
Lemma createSeaConfig_flags_witness :
  (getProperty "useSnapshot" (seaConfig Scenario.calm Scenario.requested "darwin")
     = Some (JBool false) ∧
   getProperty "useCodeCache" (seaConfig Scenario.calm Scenario.requested "darwin")
     = Some (JBool false)) ∧
  is_Some (getProperty "assets" (seaConfig Scenario.calm Scenario.requested "darwin")).
Proof.
  split.
  - apply (proj1 (createSeaConfig_flags Scenario.calm Scenario.flagsRequested
                    "build-1" "darwin")). discriminate.
  - apply (proj1 (proj2 (proj2 (createSeaConfig_flags Scenario.calm
                                  Scenario.flagsRequested "build-1" "darwin")))).
    discriminate.
Defined.

(* ===================================================================== *)
(** ** Verification of the windows executable *)
(* ===================================================================== *)

(** C3 as stated fails on a timeout: when the re-invocation is still running
    after the 5000 ms it is given, [execSync] throws its [ETIMEDOUT] error,
    the [catch] block drops it, and the verification returns normally. *)
Lemma verifyWindowsExecutable_timeout_passes :
  (spawn Scenario.hanging (verifyCommand Scenario.hanging "app.exe")
     (Some 5000%Z) Scenario.start).1 = TimedOut ∧
  (verifyWindowsExecutable Scenario.hanging "app.exe" Scenario.start).1 = Returned tt.
Proof. split; vm_compute; reflexivity. Qed.

(** C3 as the code has it.  The executable is run once, as
    [<resolved path> --help] in double quotes, with a timeout of 5000 ms.
    If it exits with status 0, the verification throws exactly when its
    output contains [Welcome to Node.js] or [Type .help] (with [.help] in
    double quotes), and returns otherwise.  If the run fails, by another
    exit status, by not starting, or by the timeout, the verification
    returns normally and the error is lost; only an error whose message
    contains [REPL mode] is thrown on, unchanged. *)
Theorem verifyWindowsExecutable_outcome (E : Env) (executableName : string)
    (w : World) :
  let quote := String "034" EmptyString in
  let command := quote +:+ path_resolve E executableName +:+ quote +:+ " --help" in
  let run := (spawn E command (Some 5000%Z) w).1 in
  let outcome := (verifyWindowsExecutable E executableName w).1 in
  let swallowed (failure : string) :=
    outcome = if includes failure "REPL mode"
              then Thrown (Error failure) else Returned tt in
  trace (verifyWindowsExecutable E executableName w).2 =
    trace w ++ [Spawned command] ∧
  (∀ stdout stderr, run = Exited 0 stdout stderr ->
     outcome =
       if includes stdout "Welcome to Node.js" ||
          includes stdout ("Type " +:+ quote +:+ ".help" +:+ quote)
       then Thrown (Error "Windows executable is still in REPL mode - blob injection failed")
       else Returned tt) ∧
  (∀ status stdout stderr, run = Exited status stdout stderr -> status ≠ 0%Z ->
     swallowed ("Command failed: " +:+ command +:+
                (if String.eqb stderr EmptyString then EmptyString
                 else String "010" stderr))) ∧
  (run = TimedOut -> swallowed ("spawnSync " +:+ shell E +:+ " ETIMEDOUT")) ∧
  (∀ code, run = SpawnError code ->
     swallowed ("spawnSync " +:+ shell E +:+ " " +:+ code)).
Proof.
  intros quote command run outcome swallowed. subst run outcome swallowed.
  unfold verifyWindowsExecutable, tryCatch.
  rewrite bind_run. unfold execSync.
  change (verifyCommand E executableName) with command.
  destruct (spawn E command (Some 5000%Z) w) as [r files].
  cbn [fst]. cbv beta.
  destruct r as [status stdout stderr| |code].
  - destruct (Z.eqb_spec status 0) as [->|Hstatus].
    + change replBanner with "Welcome to Node.js".
      change replHint with ("Type " +:+ quote +:+ ".help" +:+ quote).
      destruct (includes stdout "Welcome to Node.js" ||
                includes stdout ("Type " +:+ quote +:+ ".help" +:+ quote))
        eqn:Hrepl.
      * cbn. repeat split; try done.
        -- intros ? ? [= <- _]. by rewrite Hrepl.
        -- by intros ? ? ? [= <- _ _].
      * cbn. repeat split; try done.
        -- intros ? ? [= <- _]. by rewrite Hrepl.
        -- by intros ? ? ? [= <- _ _].
    + change (newline +:+ stderr) with (String "010" stderr).
      match goal with
      | |- context [includes (message ?err) "REPL mode"] =>
          destruct (includes (message err) "REPL mode") eqn:Hmsg
      end; cbn [message] in Hmsg; cbn [fst snd trace record withFs];
        (split; [done|]); (split; [by intros ? ? [= -> _ _]|]);
        (split; [|done]); intros ? ? ? [= <- <- <-] _; by rewrite Hmsg.
  - cbn [message].
    destruct (includes ("spawnSync " +:+ shell E +:+ " ETIMEDOUT") "REPL mode")
      eqn:Hmsg; cbn [fst snd trace record withFs];
      (split; [done|]); (split; [done|]); (split; [done|]);
      (split; [|done]); by intros _.
  - cbn [message].
    destruct (includes ("spawnSync " +:+ shell E +:+ " " +:+ code) "REPL mode")
      eqn:Hmsg; cbn [fst snd trace record withFs];
      (split; [done|]); (split; [done|]); (split; [done|]);
      (split; [done|]); intros ? [= <-]; by rewrite Hmsg.
Qed.

(** Instances: an executable that prints the REPL greeting is refused; one
    that exits with status 3 and one that hangs both pass. *)
Lemma verifyWindowsExecutable_outcome_witness :
  (verifyWindowsExecutable Scenario.greeting "app.exe" Scenario.start).1
    = Thrown (Error "Windows executable is still in REPL mode - blob injection failed") ∧
  (verifyWindowsExecutable Cases.crashing "app.exe" Scenario.start).1
    = Returned tt ∧
  (verifyWindowsExecutable Scenario.hanging "app.exe" Scenario.start).1
    = Returned tt.
Proof.
  split; [|split].
  - apply (proj1 (proj2 (verifyWindowsExecutable_outcome Scenario.greeting
                           "app.exe" Scenario.start))
             "Welcome to Node.js v20.18.0." EmptyString).
    reflexivity.
  - apply (proj1 (proj2 (proj2 (verifyWindowsExecutable_outcome Cases.crashing
                                  "app.exe" Scenario.start)))
             3%Z EmptyString "boom"); [reflexivity | discriminate].
  - apply (proj1 (proj2 (proj2 (proj2
             (verifyWindowsExecutable_outcome Scenario.hanging
                "app.exe" Scenario.start))))).
    reflexivity.
Defined.

(* ===================================================================== *)
(** ** Cleanup *)
(* ===================================================================== *)

Section CleanupFacts.

Context (E : Env).

Lemma cleanup_returns (files : list string) (w : World) :
  ∃ w', cleanup E files w = (Returned tt, w').
Proof.
  revert w. induction files as [|file rest IH]; intros w; [by eexists|].
  cbn [cleanup]. rewrite bind_run. unfold tryCatch at 1.
  rewrite bind_run. unfold existsSync at 1.
  destruct (bool_decide (is_Some (fs w !! file))).
  - rewrite when_true.
    destruct (fsOperation_inv E (UnlinkOp file)
                (fun files =>
                   match files !! file with
                   | Some (File _ _) => Returned (delete file files)
                   | Some (Dir _) =>
                       Thrown (Error ("EPERM: operation not permitted, unlink '"
                                      +:+ file +:+ "'"))
                   | None =>
                       Thrown (Error ("ENOENT: no such file or directory, unlink '"
                                      +:+ file +:+ "'"))
                   end) w) as [(files' & _ & _ & Hrun) | (e & Hrun)];
      unfold unlinkSync; rewrite Hrun; apply IH.
  - rewrite when_false. apply IH.
Qed.

(** One turn of [cleanup]: a missing file is passed over, a regular file
    is unlinked, and a refused unlink is warned about and passed over. *)
Lemma cleanup_step (file : string) (rest : list string) (w : World) :
  ∃ w1,
    cleanup E (file :: rest) w = cleanup E rest w1 ∧
    trace w1 = trace w ∧
    (fs w !! file = None -> w1 = w) ∧
    (∀ content mode,
       fs w !! file = Some (File content mode) ->
       fs_fault E (UnlinkOp file) w = None ->
       fs w1 = delete file (fs w) ∧ console w1 = console w) ∧
    (∀ e, is_Some (fs w !! file) ->
       fs_fault E (UnlinkOp file) w = Some e ->
       fs w1 = fs w ∧
       console w1 = console w ++
         [(WarnLevel, "Warning: Could not clean up " +:+ file)]).
Proof.
  cbn [cleanup]. rewrite bind_run. unfold tryCatch at 1. rewrite bind_run.
  unfold existsSync.
  destruct (bool_decide_reflect (is_Some (fs w !! file))) as [Hsome|Hnone].
  - rewrite when_true. unfold unlinkSync, fsOperation.
    destruct (fs_fault E (UnlinkOp file) w) as [e|] eqn:Hfault.
    + eexists. split; [reflexivity|].
      cbn [trace fs console]. split; [done|].
      split; [intros Hnone; rewrite Hnone in Hsome; by destruct Hsome|].
      split; [done|]. by intros e' _ [= <-].
    + destruct (fs w !! file) as [[dmode|content mode]|] eqn:Hfile.
      * eexists. split; [reflexivity|]. cbn [trace]. by repeat split.
      * eexists. split; [reflexivity|].
        cbn [trace fs withFs console]. split; [done|]. split; [done|].
        split; [by intros ? ? [= <- <-] | done].
      * by destruct Hsome.
  - rewrite when_false. exists w. split; [reflexivity|].
    split; [done|]. split; [done|].
    split; [intros content mode Hfile; rewrite Hfile in Hnone;
            by destruct Hnone|].
    intros e Hsome. by destruct Hnone.
Qed.

Context (this : Builder).

(** The shape of [buildForPlatform] once the configuration is written: the
    steps, then the same cleanup whether they returned or threw. *)
Lemma buildForPlatform_cleanup (platform configPath : string)
    (w w1 w2 : World) (r : Outcome unit) :
  createSeaConfig E this platform w = (Returned configPath, w1) ->
  pipelineSteps E platform configPath (blobPathFor E this platform)
    (getExecutableName this platform) w1 = (r, w2) ->
  buildForPlatform E this platform w =
    (match r with
     | Returned _ =>
         Returned (successResult E this platform (getExecutableName this platform))
     | Thrown e => Thrown e
     end,
     (cleanup E [configPath; blobPathFor E this platform] w2).2).
Proof.
  intros Hconfig Hsteps. unfold buildForPlatform.
  rewrite (bind_returned _ _ _ _ _ Hconfig). unfold tryCatch.
  rewrite bind_run, Hsteps.
  destruct (cleanup_returns [configPath; blobPathFor E this platform] w2)
    as [w3 Hclean].
  destruct r as [[]|e]; rewrite bind_run, Hclean; reflexivity.
Qed.

Lemma buildForPlatform_outcome (platform : string) (w : World) :
  ∃ w',
    buildForPlatform E this platform w =
      (Returned (successResult E this platform (getExecutableName this platform)), w')
    ∨ ∃ e, buildForPlatform E this platform w = (Thrown e, w').
Proof.
  destruct (createSeaConfig E this platform w) as [[configPath|e] w1] eqn:Hconfig.
  - destruct (pipelineSteps E platform configPath (blobPathFor E this platform)
                (getExecutableName this platform) w1) as [r w2] eqn:Hsteps.
    rewrite (buildForPlatform_cleanup _ _ _ _ _ _ Hconfig Hsteps).
    eexists. destruct r; [left | right; eexists]; reflexivity.
  - unfold buildForPlatform. rewrite (bind_thrown _ _ _ _ _ Hconfig). eauto.
Qed.

Lemma buildLoop_Reported (platforms : list string) (results : list BuildResult)
    (w : World) :
  ∃ reported w',
    buildLoop E this platforms results w = (Returned (results ++ reported), w') ∧
    Reported E this platforms w reported w'.
Proof.
  revert results w. induction platforms as [|platform rest IH]; intros results w.
  - exists [], w. rewrite app_nil_r. split; [reflexivity | constructor].
  - cbn [buildLoop]. rewrite bind_run. unfold buildOne, tryCatch.
    rewrite bind_run.
    destruct (buildForPlatform_outcome platform w) as [w1 [Hrun | [e Hrun]]];
      rewrite Hrun.
    + cbn [mret Js_ret].
      destruct (IH (results ++ [successResult E this platform
                                  (getExecutableName this platform)]) w1)
        as (reported & w2 & Hloop & Hrep).
      rewrite Hloop, <- app_assoc. eexists _, _. split; [reflexivity|].
      by eapply Reported_success.
    + rewrite bind_run. cbn [console_error consoleWrite mret Js_ret].
      match goal with
      | |- context [buildLoop E this rest _ ?w'] =>
          destruct (IH (results ++ [failedResult platform e]) w')
            as (reported & w2 & Hloop & Hrep)
      end.
      rewrite Hloop, <- app_assoc. eexists _, _. split; [reflexivity|].
      by eapply Reported_failure.
Qed.




(** [cleanupTempDir] in full: nothing when the directory is not there, else
    one removal, logged when it succeeds and warned about when it is
    refused. *)
Lemma cleanupTempDir_run (w : World) :
  cleanupTempDir E this w =
    (Returned tt,
     if bool_decide (is_Some (fs w !! tempBuildDir E this)) then
       match fs_fault E (RmOp (tempBuildDir E this)) w with
       | None =>
           mkWorld
             (filter (fun kv : string * Node =>
                        kv.1 ≠ tempBuildDir E this ∧
                        path_inside E (tempBuildDir E this) kv.1 = false) (fs w))
             (console w ++
              [(LogLevel, "Cleaned up temporary build directory: " +:+
                          tempBuildDir E this)])
             (trace w)
       | Some e =>
           mkWorld
             (filter (fun kv : string * Node =>
                        kv.1 = tempBuildDir E this ∨
                        path_inside E (tempBuildDir E this) kv.1 = false ∨
                        rm_kept E (tempBuildDir E this) w kv.1 = true) (fs w))
             (console w ++
              [(WarnLevel, "Warning: Could not clean up temp directory " +:+
                           tempBuildDir E this +:+ ": " +:+ message e)])
             (trace w)
       end
     else w).
Proof.
  unfold cleanupTempDir, tryCatch. rewrite bind_run. unfold existsSync.
  destruct (bool_decide (is_Some (fs w !! tempBuildDir E this))).
  - rewrite when_true, bind_run. unfold rmSync.
    by destruct (fs_fault E (RmOp (tempBuildDir E this)) w).
  - by rewrite when_false.
Qed.

End CleanupFacts.

(* ===================================================================== *)
(** ** The build *)
(* ===================================================================== *)



(** A failed injection on darwin does not keep linux, next in the list, from
    being built and reported as a success. *)
Example build_isolates_failure :
  (build Scenario.brokenInjection (Scenario.builder ["darwin"; "linux"])
     Scenario.start).1 =
    Returned
      [ mkBuildResult "darwin" false None None None
          (Some ("Failed to inject blob: Command failed: npx postject " +:+
                 dquote +:+ "app" +:+ dquote +:+ " NODE_SEA_BLOB " +:+ dquote +:+
                 "/tmp/node-package-builder/build-1700000000000-9f8e7d6c/sea-prep-darwin.blob"
                 +:+ dquote +:+
                 " --sentinel-fuse NODE_SEA_FUSE_fce680ab2cc467b6e072b8b5df1996b2" +:+
                 " --macho-segment-name NODE_SEA"));
        mkBuildResult "linux" true (Some "app") (Some "/work/app")
          (Some "build-1700000000000-9f8e7d6c") None ].
Proof. vm_compute. reflexivity. Qed.

(** C2 as stated fails in two ways.  When the removal of the temporary
    directory is refused, the build of linux on a linux host succeeds,
    [build] returns, and the directory of the session is still there.  And
    when [createSeaConfig] throws, here because a directory has the name of
    the configuration file, [buildForPlatform] throws without any cleanup:
    the older blob stays, which the cleanup would have removed. *)
Lemma build_can_leave_files_behind :
  ((build Scenario.busy Scenario.linuxOnly Scenario.start).1 =
     Returned [mkBuildResult "linux" true (Some "app") (Some "/work/app")
                 (Some "build-1700000000000-9f8e7d6c") None] ∧
   fs (build Scenario.busy Scenario.linuxOnly Scenario.start).2
     !! "/tmp/node-package-builder/build-1700000000000-9f8e7d6c"
   = Some (Dir "755")) ∧
  ((buildForPlatform Scenario.calm Scenario.linuxOnly "linux" Scenario.occupied).1 =
     Thrown (Error ("EISDIR: illegal operation on a directory, open '" +:+
                    "/tmp/node-package-builder/build-1700000000000-9f8e7d6c/" +:+
                    "sea-config-linux-build-1700000000000-9f8e7d6c.json'")) ∧
   fs (buildForPlatform Scenario.calm Scenario.linuxOnly "linux"
         Scenario.occupied).2
     !! "/tmp/node-package-builder/build-1700000000000-9f8e7d6c/sea-prep-linux.blob"
   = Some (File "stale" "644") ∧
   fs (cleanup Scenario.calm
         [ "/tmp/node-package-builder/build-1700000000000-9f8e7d6c/sea-config-linux-build-1700000000000-9f8e7d6c.json";
           "/tmp/node-package-builder/build-1700000000000-9f8e7d6c/sea-prep-linux.blob" ]
         Scenario.occupied).2
     !! "/tmp/node-package-builder/build-1700000000000-9f8e7d6c/sea-prep-linux.blob"
   = None).
Proof. repeat split; vm_compute; reflexivity. Qed.

(** C2 as the code has it.  [cleanup] never throws: it takes the files one
    by one, passes over a missing one, unlinks a regular one, and only warns
    when the unlink is refused.  [buildForPlatform] enters its [try] block
    once [createSeaConfig] has returned the path
    [sea-config-<platform>-<buildId>.json] in the directory of the session:
    from then on it ends with the same [cleanup] of that file and of
    [sea-prep-<platform>.blob], whether its steps returned or threw.  When
    [createSeaConfig] throws, [buildForPlatform] throws the same error and
    cleans up nothing.  [build] always returns what its loop produced, and
    its [finally] block removes the directory of the session at most once:
    nothing happens when the directory is not there; a removal that
    succeeds is logged and the directory is gone; a removal that is refused
    is warned about with the message of the error, the directory stays and
    the results are returned all the same. *)
Theorem cleanup_on_every_path (E : Env) (this : Builder) :
  let sessionDir := path_join E [opt_tempDir (options this); buildId this] in
  (∀ files w, ∃ w', cleanup E files w = (Returned tt, w')) ∧
  (∀ file rest w, ∃ w1,
     cleanup E (file :: rest) w = cleanup E rest w1 ∧
     trace w1 = trace w ∧
     (fs w !! file = None -> w1 = w) ∧
     (∀ content mode,
        fs w !! file = Some (File content mode) ->
        fs_fault E (UnlinkOp file) w = None ->
        fs w1 = delete file (fs w) ∧ console w1 = console w) ∧
     (∀ e, is_Some (fs w !! file) ->
        fs_fault E (UnlinkOp file) w = Some e ->
        fs w1 = fs w ∧
        console w1 = console w ++
          [(WarnLevel, "Warning: Could not clean up " +:+ file)])) ∧
  (∀ platform configPath w w1 w2 r,
     let blobPath := path_join E [sessionDir; "sea-prep-" +:+ platform +:+ ".blob"] in
     createSeaConfig E this platform w = (Returned configPath, w1) ->
     pipelineSteps E platform configPath blobPath
       (getExecutableName this platform) w1 = (r, w2) ->
     configPath = path_join E [sessionDir;
                               "sea-config-" +:+ platform +:+ "-" +:+
                               buildId this +:+ ".json"] ∧
     buildForPlatform E this platform w =
       (match r with
        | Returned _ =>
            Returned (mkBuildResult platform true
                        (Some (getExecutableName this platform))
                        (Some (path_resolve E (getExecutableName this platform)))
                        (Some (buildId this)) None)
        | Thrown e => Thrown e
        end,
        (cleanup E [configPath; blobPath] w2).2)) ∧
  (∀ platform w w1 e,
     createSeaConfig E this platform w = (Thrown e, w1) ->
     buildForPlatform E this platform w = (Thrown e, w1)) ∧
  (∀ w, ∃ results w1 w2,
     buildLoop E this (opt_platforms (options this)) [] w = (Returned results, w1) ∧
     build E this w = (Returned results, w2) ∧
     trace w2 = trace w1 ∧
     (fs w1 !! sessionDir = None -> w2 = w1) ∧
     (is_Some (fs w1 !! sessionDir) ->
      fs_fault E (RmOp sessionDir) w1 = None ->
      fs w2 !! sessionDir = None ∧
      console w2 = console w1 ++
        [(LogLevel, "Cleaned up temporary build directory: " +:+ sessionDir)]) ∧
     (∀ e, is_Some (fs w1 !! sessionDir) ->
      fs_fault E (RmOp sessionDir) w1 = Some e ->
      is_Some (fs w2 !! sessionDir) ∧
      console w2 = console w1 ++
        [(WarnLevel, "Warning: Could not clean up temp directory " +:+
                     sessionDir +:+ ": " +:+ message e)])).
Proof.
  intros sessionDir. change sessionDir with (tempBuildDir E this).
  split; [apply cleanup_returns|].
  split; [apply cleanup_step|].
  split; [|split].
  - intros platform configPath w w1 w2 r blobPath Hconfig Hsteps.
    split; [by apply createSeaConfig_written in Hconfig as [-> _]|].
    by apply (buildForPlatform_cleanup E this _ _ _ w1 w2).
  - intros platform w w1 e Hconfig. unfold buildForPlatform.
    by rewrite (bind_thrown _ _ _ _ _ Hconfig).
  - intros w.
    destruct (buildLoop_Reported E this (opt_platforms (options this)) [] w)
      as (results & w1 & Hloop & _).
    exists results, w1, (cleanupTempDir E this w1).2.
    unfold build, tryFinally. rewrite Hloop, (cleanupTempDir_run E this w1).
    cbn [fst snd]. split; [done|]. split; [done|].
    destruct (bool_decide_reflect (is_Some (fs w1 !! tempBuildDir E this)))
      as [Hsome|Hnone].
    + destruct (fs_fault E (RmOp (tempBuildDir E this)) w1) as [e0|] eqn:Hfault.
      * split; [done|]. split; [intros Habsent; rewrite Habsent in Hsome;
                                by destruct Hsome|].
        split; [done|]. intros e [n Hn] [= <-]. split; [|done]. cbn [fs].
        exists n. apply map_lookup_filter_Some. split; [done | by left].
      * split; [done|]. split; [intros Habsent; rewrite Habsent in Hsome;
                                by destruct Hsome|].
        split; [|done]. intros _ _. split; [|done]. cbn [fs].
        apply map_lookup_filter_None. right. intros n _ [Hne _]. by apply Hne.
    + split; [done|]. split; [done|].
      split; [intros Hs | intros e Hs]; by destruct Hnone.
Qed.

Lemma cleanup_on_every_path_witness :
  (∃ w', buildForPlatform Scenario.calm Scenario.linuxOnly "linux" Scenario.start =
           (Returned (mkBuildResult "linux" true (Some "app") (Some "/work/app")
                        (Some "build-1700000000000-9f8e7d6c") None), w') ∧
         fs w' !! "/tmp/node-package-builder/build-1700000000000-9f8e7d6c/sea-config-linux-build-1700000000000-9f8e7d6c.json"
         = None) ∧
  (∃ results w2,
     build Scenario.calm Scenario.linuxOnly Scenario.start = (Returned results, w2) ∧
     fs w2 !! "/tmp/node-package-builder/build-1700000000000-9f8e7d6c" = None) ∧
  (∃ results w2,
     build Scenario.busy Scenario.linuxOnly Scenario.start = (Returned results, w2) ∧
     console w2 = console (buildLoop Scenario.busy Scenario.linuxOnly ["linux"] []
                             Scenario.start).2 ++
       [(WarnLevel, "Warning: Could not clean up temp directory " +:+
                    "/tmp/node-package-builder/build-1700000000000-9f8e7d6c" +:+
                    ": EBUSY: resource busy or locked, rmdir")]).
Proof.
  split; [|split].
  - pose (E := Scenario.calm). pose (this := Scenario.linuxOnly).
    pose (w1 := (createSeaConfig E this "linux" Scenario.start).2).
    pose (w2 := (pipelineSteps E "linux" (configPathFor E this "linux")
                   (blobPathFor E this "linux") "app" w1).2).
    exists (cleanup E [configPathFor E this "linux"; blobPathFor E this "linux"]
              w2).2.
    split; [|vm_compute; reflexivity].
    apply (proj2 (proj1 (proj2 (proj2 (cleanup_on_every_path E this))) "linux"
                    (configPathFor E this "linux") Scenario.start w1 w2
                    (Returned tt)
                    ltac:(apply (run_outcome (createSeaConfig E this "linux")
                                   Scenario.start); vm_compute; reflexivity)
                    ltac:(apply (run_outcome
                                   (pipelineSteps E "linux"
                                      (configPathFor E this "linux")
                                      (blobPathFor E this "linux") "app") w1);
                          vm_compute; reflexivity))).
  - destruct (proj2 (proj2 (proj2 (proj2 (cleanup_on_every_path Scenario.calm
                                     Scenario.linuxOnly)))) Scenario.start)
      as (results & w1 & w2 & Hloop & Hbuild & _ & _ & Hgone & _).
    exists results, w2. split; [exact Hbuild|].
    apply Hgone; [|reflexivity].
    replace w1 with (buildLoop Scenario.calm Scenario.linuxOnly ["linux"] []
                       Scenario.start).2
      by (change (opt_platforms (options Scenario.linuxOnly)) with ["linux"]
            in Hloop; by rewrite Hloop).
    vm_compute. eauto.
  - destruct (proj2 (proj2 (proj2 (proj2 (cleanup_on_every_path Scenario.busy
                                     Scenario.linuxOnly)))) Scenario.start)
      as (results & w1 & w2 & Hloop & Hbuild & _ & _ & _ & Hkept).
    exists results, w2. split; [exact Hbuild|].
    assert (w1 = (buildLoop Scenario.busy Scenario.linuxOnly ["linux"] []
                    Scenario.start).2) as Hw1
      by (change (opt_platforms (options Scenario.linuxOnly)) with ["linux"]
            in Hloop; by rewrite Hloop).
    rewrite <- Hw1.
    apply (Hkept (Error "EBUSY: resource busy or locked, rmdir")); [|reflexivity].
    rewrite Hw1. vm_compute. eauto.
Defined.

(* ===================================================================== *)
(** ** The runtime cache *)
(* ===================================================================== *)

Section TraceFacts.

Context (E : Env).

Lemma keepsTrace_run {A} (m : Js A) (w w' : World) (r : Outcome A) :
  keepsTrace m -> m w = (r, w') -> trace w' = trace w.
Proof. intros Hm Hrun. specialize (Hm w). by rewrite Hrun in Hm. Qed.

Lemma keepsTrace_ret {A} (a : A) : keepsTrace (mret a : Js A).
Proof. by intros w. Qed.

Lemma keepsTrace_throw {A} (e : JsError) : keepsTrace (throw e : Js A).
Proof. by intros w. Qed.

Lemma keepsTrace_bind {A B} (m : Js A) (f : A -> Js B) :
  keepsTrace m -> (∀ a, keepsTrace (f a)) -> keepsTrace (m ≫= f).
Proof.
  intros Hm Hf w. rewrite bind_run. specialize (Hm w).
  destruct (m w) as [[a|e] w1]; cbn in *; [|done].
  by rewrite Hf.
Qed.

Lemma keepsTrace_when (b : bool) (m : Js unit) :
  keepsTrace m -> keepsTrace (when b m).
Proof. destruct b; [done | intros _; apply keepsTrace_ret]. Qed.

Lemma keepsTrace_existsSync (p : string) : keepsTrace (existsSync p).
Proof. by intros w. Qed.

Lemma keepsTrace_console (l : Level) (line : string) : keepsTrace (consoleWrite l line).
Proof. by intros w. Qed.

Lemma keepsTrace_fsOperation (op : FsOp)
    (act : gmap string Node -> Outcome (gmap string Node)) :
  keepsTrace (fsOperation E op act).
Proof.
  intros w. unfold fsOperation.
  destruct (fs_fault E op w); [done|]. by destruct (act (fs w)).
Qed.

Lemma keepsTrace_rmSync (p : string) : keepsTrace (rmSync E p).
Proof. intros w. unfold rmSync. by destruct (fs_fault E (RmOp p) w). Qed.

Lemma keepsTrace_walkZip (extractDir : string) (entries : list ZipEntry)
    (tail : option JsError) :
  keepsTrace (walkZip E extractDir entries tail).
Proof.
  induction entries as [|entry rest IH]; cbn [walkZip].
  - destruct tail; [apply keepsTrace_throw | apply keepsTrace_ret].
  - destruct (endsWith (fileName entry) "node.exe"); [|done].
    destruct (readStream entry); [apply keepsTrace_fsOperation | apply keepsTrace_throw].
Qed.

Lemma keepsTrace_extractNodeBinary (archivePath extractDir platform version : string) :
  keepsTrace (extractNodeBinary E archivePath extractDir platform version).
Proof.
  unfold extractNodeBinary. destruct (String.eqb platform "win32").
  - unfold extractZip. apply keepsTrace_bind.
    + intros w. by destruct (yauzl_open E archivePath w).
    + intros zip. apply keepsTrace_walkZip.
  - unfold extractTarGz. apply keepsTrace_bind.
    + intros w. by destruct (tar_extract E _ _ _ w).
    + intros _. apply keepsTrace_bind; [apply keepsTrace_existsSync|].
      intros extracted. apply keepsTrace_when.
      apply keepsTrace_bind; [apply keepsTrace_fsOperation|].
      intros _. apply keepsTrace_bind; [apply keepsTrace_existsSync|].
      intros present. apply keepsTrace_when, keepsTrace_rmSync.
Qed.


Lemma downloads_same (w w' : World) : trace w' = trace w -> downloads w' = downloads w.
Proof. unfold downloads. by intros ->. Qed.

Lemma downloadFile_returned (url filePath : string) (w w' : World) :
  downloadFile E url filePath w = (Returned tt, w') ->
  trace w' = trace w ++ [Downloaded url filePath].
Proof.
  unfold downloadFile.
  destruct (http_stream E url w) as [[body cut]|e]; [|discriminate].
  rewrite bind_run.
  destruct (writeFileSync E filePath body (record (Downloaded url filePath) w))
    as [[[]|e] w1] eqn:Hwrite; [|discriminate].
  apply writeFileSync_returned in Hwrite as (_ & _ & Htrace).
  destruct cut; [discriminate|]. by intros [= <-].
Qed.

Lemma unlinkSync_returned (p : string) (w w' : World) :
  unlinkSync E p w = (Returned tt, w') ->
  fs w' !! p = None ∧ trace w' = trace w.
Proof.
  unfold unlinkSync, fsOperation.
  destruct (fs_fault E (UnlinkOp p) w); [discriminate|].
  destruct (fs w !! p) as [[]|]; [discriminate| |discriminate].
  intros [= <-]. split; [apply lookup_delete_eq | done].
Qed.

Lemma acquireArchive_returned (platform version : string) (w w2 : World) :
  acquireArchive E platform version w = (Returned tt, w2) ->
  (∃ url, getNodeDownloadUrl version platform = Returned url ∧
          trace w2 = trace w ++ [Downloaded url (archivePathFor E platform version)]) ∧
  fs w2 !! archivePathFor E platform version = None.
Proof.
  unfold acquireArchive. intros H.
  apply bind_returned_inv in H as ([] & wa & Hlog & H).
  apply bind_returned_inv in H as (url & wb & Hurl & H).
  apply bind_returned_inv in H as ([] & wc & Hdownload & H).
  apply bind_returned_inv in H as (present & wd & Hpresent & H).
  apply bind_returned_inv in H as ([] & we & Hmkdir & H).
  apply bind_returned_inv in H as ([] & wf & Hextract & Hunlink).
  fold (archivePathFor E platform version) in Hdownload, Hunlink.
  apply unlinkSync_returned in Hunlink as [Hgone Htrace].
  split; [|done]. exists url.
  unfold liftOutcome in Hurl. injection Hurl as Hurl <-.
  split; [done|].
  rewrite Htrace.
  rewrite (keepsTrace_run _ _ _ _ (keepsTrace_extractNodeBinary _ _ _ _) Hextract).
  rewrite (keepsTrace_run _ _ _ _
             (keepsTrace_when _ _ (keepsTrace_fsOperation _ _)) Hmkdir).
  rewrite (keepsTrace_run _ _ _ _ (keepsTrace_existsSync _) Hpresent).
  rewrite (downloadFile_returned _ _ _ _ Hdownload).
  by rewrite (keepsTrace_run _ _ _ _ (keepsTrace_console _ _) Hlog).
Qed.

Lemma getRecommendedNodeVersion_returns (w : World) :
  ∃ version wv,
    getRecommendedNodeVersion E w = (Returned version, wv) ∧
    fs wv = fs w ∧ downloads wv = downloads w.
Proof.
  rewrite getRecommendedNodeVersion_run.
  destruct (http_get E indexUrl w ≫= selectVersion);
    eexists _, _; (split; [reflexivity|]); (split; [reflexivity|]);
    unfold downloads; cbn [trace record]; rewrite List.filter_app; cbn;
    apply app_nil_r.
Qed.

End TraceFacts.

Section DownloadCount.

Context (E : Env).








End DownloadCount.

Section CacheFacts.

Context (E : Env).

Lemma ensureCacheDirs_present (platform : string) (w : World) :
  is_Some (fs w !! cacheDir E) ->
  is_Some (fs w !! path_join E [cacheDir E; platform]) ->
  ensureCacheDirs E platform w = (Returned tt, w).
Proof.
  intros Hcache Hplatform. unfold ensureCacheDirs, existsSync.
  rewrite bind_run, (bool_decide_eq_true_2 _ Hcache).
  cbn [negb]. rewrite bind_run, when_false, bind_run.
  rewrite (bool_decide_eq_true_2 _ Hplatform). reflexivity.
Qed.

(** [downloadNodeBinary] from the world in which the cache is looked up. *)
Lemma downloadNodeBinary_lookup (platform version : string) (w wv w1 : World) :
  getRecommendedNodeVersion E w = (Returned version, wv) ->
  ensureCacheDirs E platform wv = (Returned tt, w1) ->
  downloadNodeBinary E platform w =
    if bool_decide (is_Some (fs w1 !! cachedBinaryPath E platform version))
    then (Returned (cachedBinaryPath E platform version),
          mkWorld (fs w1)
            (console w1 ++ [(LogLevel, "Using cached Node.js " +:+ version +:+
                                       " for " +:+ platform)])
            (trace w1))
    else fetchNodeBinary E platform version w1.
Proof.
  intros Hversion Hdirs. unfold downloadNodeBinary.
  rewrite (bind_returned _ _ _ _ _ Hversion), (bind_returned _ _ _ _ _ Hdirs).
  rewrite bind_run. unfold existsSync at 1.
  by destruct (bool_decide (is_Some (fs w1 !! cachedBinaryPath E platform version))).
Qed.


Lemma chmodSync_allowed (p mode : string) (w : World) :
  is_Some (fs w !! p) ->
  fs_fault E (ChmodOp p) w = None ->
  ∃ w', chmodSync E p mode w = (Returned tt, w') ∧
        modeOf <$> fs w' !! p = Some mode ∧
        trace w' = trace w ∧
        ∀ q, q ≠ p -> fs w' !! q = fs w !! q.
Proof.
  intros [n Hn] Hfault. unfold chmodSync, fsOperation. rewrite Hfault, Hn.
  destruct n; eexists; (split; [reflexivity|]); cbn [fs withFs trace];
    (split; [by rewrite lookup_insert_eq|]); (split; [done|]);
    intros q Hq; by rewrite lookup_insert_ne.
Qed.

Lemma fetchNodeBinary_path (platform version p : string) (w w' : World) :
  fetchNodeBinary E platform version w = (Returned p, w') ->
  p = cachedBinaryPath E platform version.
Proof.
  unfold fetchNodeBinary. intros H.
  apply bind_returned_inv in H as ([] & w1 & _ & H).
  apply bind_returned_inv in H as (extracted & w2 & _ & H).
  destruct extracted; cbn [negb] in H; [|discriminate].
  apply bind_returned_inv in H as ([] & w3 & _ & H).
  by injection H as <- _.
Qed.

End CacheFacts.


(* ===================================================================== *)
(** ** The version comparison as an order *)
(* ===================================================================== *)

Section ComparisonOrder.

Lemma or_zero_proper (o : option JsNumber) : proper (or_zero o).
Proof. destruct o as [[| |q]|]; cbn; try done. by destruct (negb _). Qed.

Lemma js_gt_irrefl (a : JsNumber) : js_gt a a = false.
Proof.
  destruct a as [|n|q]; cbn; [done | by destruct n |].
  by rewrite (proj1 (Qeq_alt q q) (Qeq_refl q)).
Qed.

Lemma js_gt_finite (x y : Q) : js_gt (Finite x) (Finite y) = true ↔ (y < x)%Q.
Proof.
  cbn. rewrite Qgt_alt. destruct (x ?= y)%Q; split; congruence.
Qed.

Lemma js_gt_finite_false (x y : Q) : js_gt (Finite x) (Finite y) = false ↔ (x <= y)%Q.
Proof.
  rewrite Qle_alt. cbn. destruct (x ?= y)%Q; split; congruence.
Qed.

Lemma js_gt_trans (a b c : JsNumber) :
  js_gt a b = true -> js_gt b c = true -> js_gt a c = true.
Proof.
  destruct a as [|na|x], b as [|nb|y], c as [|nc|z]; try done;
    try (by destruct na, nb, nc); try (by destruct na, nb);
    try (by destruct nb, nc); try (by destruct na, nc);
    try (by destruct na); try (by destruct nb); try (by destruct nc).
  rewrite !js_gt_finite. intros Hxy Hyz. by apply (Qlt_trans z y x).
Qed.

(** Neither greater nor smaller, passed along a strict comparison. *)
Lemma js_gt_equiv_l (a b c : JsNumber) :
  proper a -> proper b -> proper c ->
  js_gt a b = false -> js_gt b a = false -> js_gt b c = js_gt a c.
Proof.
  unfold proper.
  destruct a as [|na|x], b as [|nb|y], c as [|nc|z]; try done;
    try (by destruct na, nb, nc); try (by destruct na, nb);
    try (by destruct nb, nc); try (by destruct na, nc);
    try (by destruct na); try (by destruct nb); try (by destruct nc).
  intros _ _ _. rewrite !js_gt_finite_false. intros Hxy Hyx.
  assert (x == y)%Q as Heq by (by apply Qle_antisym).
  cbn. by rewrite Heq.
Qed.

Lemma js_gt_equiv_r (a b c : JsNumber) :
  proper a -> proper b -> proper c ->
  js_gt b c = false -> js_gt c b = false -> js_gt a b = js_gt a c.
Proof.
  unfold proper.
  destruct a as [|na|x], b as [|nb|y], c as [|nc|z]; try done;
    try (by destruct na, nb, nc); try (by destruct na, nb);
    try (by destruct nb, nc); try (by destruct na, nc);
    try (by destruct na); try (by destruct nb); try (by destruct nc).
  intros _ _ _. rewrite !js_gt_finite_false. intros Hyz Hzy.
  assert (y == z)%Q as Heq by (by apply Qle_antisym).
  cbn. by rewrite Heq.
Qed.

(** A turn more than the lists are long changes nothing: past the end both
    components are 0. *)
Lemma compareFrom_one_more (current required : list JsNumber) (todo i : nat) :
  length current ≤ i + todo -> length required ≤ i + todo ->
  compareFrom current required (S todo) i = compareFrom current required todo i.
Proof.
  revert i. induction todo as [|todo IH]; intros i Hc Hr.
  - cbn [compareFrom].
    rewrite (lookup_ge_None_2 current i), (lookup_ge_None_2 required i) by lia.
    reflexivity.
  - change (compareFrom current required (S (S todo)) i)
      with (let currentPart := or_zero (current !! i) in
            let requiredPart := or_zero (required !! i) in
            if js_gt currentPart requiredPart then true
            else if js_lt currentPart requiredPart then false
            else compareFrom current required (S todo) (S i)).
    cbn zeta. rewrite IH by lia. reflexivity.
Qed.

Lemma compareFrom_more (current required : list JsNumber) (todo extra : nat) :
  length current ≤ todo -> length required ≤ todo ->
  compareFrom current required (todo + extra) 0 = compareFrom current required todo 0.
Proof.
  intros Hc Hr. induction extra as [|extra IH].
  - by rewrite Nat.add_0_r.
  - rewrite Nat.add_succ_r, compareFrom_one_more by lia. exact IH.
Qed.

(** The comparison with as many turns as one likes beyond the lengths. *)
Lemma compareParts_fuel (current required : list JsNumber) (todo : nat) :
  length current ≤ todo -> length required ≤ todo ->
  compareParts current required = compareFrom current required todo 0.
Proof.
  intros Hc Hr. unfold compareParts.
  set (n := Nat.max (length current) (length required)).
  replace todo with (n + (todo - n)) by lia.
  symmetry. apply compareFrom_more; lia.
Qed.

Lemma compareFrom_refl (parts : list JsNumber) (todo i : nat) :
  compareFrom parts parts todo i = true.
Proof.
  revert i. induction todo as [|todo IH]; intros i; [done|].
  cbn [compareFrom]. unfold js_lt. by rewrite js_gt_irrefl, IH.
Qed.

Lemma compareFrom_connex (a b : list JsNumber) (todo i : nat) :
  compareFrom a b todo i = false -> compareFrom b a todo i = true.
Proof.
  revert i. induction todo as [|todo IH]; intros i; [done|].
  cbn [compareFrom]. unfold js_lt.
  destruct (js_gt (or_zero (a !! i)) (or_zero (b !! i))); [done|].
  destruct (js_gt (or_zero (b !! i)) (or_zero (a !! i))); [done|].
  apply IH.
Qed.

Lemma compareFrom_trans (a b c : list JsNumber) (todo i : nat) :
  compareFrom a b todo i = true -> compareFrom b c todo i = true ->
  compareFrom a c todo i = true.
Proof.
  revert i. induction todo as [|todo IH]; intros i; [done|].
  cbn [compareFrom]. unfold js_lt.
  pose proof (or_zero_proper (a !! i)) as Hx.
  pose proof (or_zero_proper (b !! i)) as Hy.
  pose proof (or_zero_proper (c !! i)) as Hz.
  set (x := or_zero (a !! i)) in *. set (y := or_zero (b !! i)) in *.
  set (z := or_zero (c !! i)) in *.
  destruct (js_gt x y) eqn:Hxy.
  - intros _. destruct (js_gt y z) eqn:Hyz.
    + intros _. by rewrite (js_gt_trans x y z).
    + destruct (js_gt z y) eqn:Hzy; [done|]. intros _.
      by rewrite <- (js_gt_equiv_r x y z), Hxy.
  - destruct (js_gt y x) eqn:Hyx; [done|]. intros Hab.
    rewrite <- (js_gt_equiv_l x y z) by done.
    destruct (js_gt y z) eqn:Hyz; [done|].
    destruct (js_gt z y) eqn:Hzy; [done|]. intros Hbc.
    assert (js_gt z x = false) as ->.
    { by rewrite <- (js_gt_equiv_r z y x), Hzy. }
    by apply IH.
Qed.

Lemma compareParts_trans (a b c : list JsNumber) :
  compareParts a b = true -> compareParts b c = true -> compareParts a c = true.
Proof.
  set (n := Nat.max (length a) (Nat.max (length b) (length c))).
  rewrite (compareParts_fuel a b n), (compareParts_fuel b c n),
    (compareParts_fuel a c n) by lia.
  apply compareFrom_trans.
Qed.

End ComparisonOrder.

(** X1.  On all strings, numeric or not, [isVersionGreaterOrEqual] is a
    total preorder: every version is at least itself, of two versions one
    is at least the other, and the relation is transitive. *)
Theorem isVersionGreaterOrEqual_total_preorder :
  (∀ a, isVersionGreaterOrEqual a a = true) ∧
  (∀ a b, isVersionGreaterOrEqual a b = true ∨ isVersionGreaterOrEqual b a = true) ∧
  (∀ a b c, isVersionGreaterOrEqual a b = true ->
            isVersionGreaterOrEqual b c = true ->
            isVersionGreaterOrEqual a c = true).
Proof.
  unfold isVersionGreaterOrEqual, versionGreaterOrEqualWith.
  split; [|split].
  - intros a. apply compareFrom_refl.
  - intros a b.
    destruct (compareParts (map NumberParser.Number (split "." a))
                (map NumberParser.Number (split "." b))) eqn:Hab; [by left|].
    right. unfold compareParts in *. rewrite Nat.max_comm.
    by apply compareFrom_connex.
  - intros a b c. apply compareParts_trans.
Qed.

Lemma isVersionGreaterOrEqual_total_preorder_witness :
  isVersionGreaterOrEqual "22.3.0" "19.9.0" = true.
Proof.
  apply (proj2 (proj2 isVersionGreaterOrEqual_total_preorder)
           "22.3.0" "20.18" "19.9.0"); reflexivity.
Defined.

Section TrailingComponents.

Lemma split_nonempty (sep : ascii) (s : string) : split sep s ≠ [].
Proof.
  destruct s as [|c s]; cbn; [done|].
  destruct (Ascii.eqb c sep); [done|]. by destruct (split sep s).
Qed.

Lemma split_append (sep : ascii) (s t : string) :
  split sep (s +:+ String sep t) = split sep s ++ split sep t.
Proof.
  induction s as [|c s IH].
  - change (EmptyString +:+ String sep t) with (String sep t).
    cbn [split app]. by rewrite Ascii.eqb_refl.
  - change (String c s +:+ String sep t) with (String c (s +:+ String sep t)).
    cbn [split]. rewrite IH. destruct (Ascii.eqb c sep); [done|].
    pose proof (split_nonempty sep s) as Hne.
    by destruct (split sep s).
Qed.

Lemma or_zero_falsy_tail (parts zeros : list JsNumber) (i : nat) :
  Forall (fun z => js_truthy z = false) zeros ->
  or_zero ((parts ++ zeros) !! i) = or_zero (parts !! i).
Proof.
  intros Hzeros. destruct (decide (i < length parts)) as [Hlt|Hge].
  - by rewrite lookup_app_l.
  - rewrite lookup_app_r, (lookup_ge_None_2 parts i) by lia.
    destruct (zeros !! (i - length parts)) as [z|] eqn:Hz; [|done].
    apply list_elem_of_lookup_2 in Hz.
    rewrite Forall_forall in Hzeros. cbn. by rewrite (Hzeros z Hz).
Qed.

Lemma compareFrom_falsy_tail_l (current required zeros : list JsNumber)
    (todo i : nat) :
  Forall (fun z => js_truthy z = false) zeros ->
  compareFrom (current ++ zeros) required todo i =
    compareFrom current required todo i.
Proof.
  intros Hzeros. revert i. induction todo as [|todo IH]; intros i; [done|].
  cbn [compareFrom]. by rewrite or_zero_falsy_tail, IH.
Qed.

Lemma compareFrom_falsy_tail_r (current required zeros : list JsNumber)
    (todo i : nat) :
  Forall (fun z => js_truthy z = false) zeros ->
  compareFrom current (required ++ zeros) todo i =
    compareFrom current required todo i.
Proof.
  intros Hzeros. revert i. induction todo as [|todo IH]; intros i; [done|].
  cbn [compareFrom]. by rewrite or_zero_falsy_tail, IH.
Qed.

Lemma compareParts_falsy_tail (current required zeros : list JsNumber) :
  Forall (fun z => js_truthy z = false) zeros ->
  compareParts (current ++ zeros) required = compareParts current required ∧
  compareParts current (required ++ zeros) = compareParts current required.
Proof.
  intros Hzeros.
  set (n := Nat.max (length (current ++ zeros)) (length (required ++ zeros))).
  assert (length current ≤ n ∧ length required ≤ n) as [Hc Hr]
    by (subst n; rewrite !length_app; lia).
  split.
  - rewrite (compareParts_fuel (current ++ zeros) required n),
      (compareParts_fuel current required n) by (subst n; lia).
    by apply compareFrom_falsy_tail_l.
  - rewrite (compareParts_fuel current (required ++ zeros) n),
      (compareParts_fuel current required n) by (subst n; lia).
    by apply compareFrom_falsy_tail_r.
Qed.

End TrailingComponents.

(** X2.  Trailing components that are 0 or not numbers at all never change
    the answer, on either side: [20], [20.0.0] and [20.x] compare alike. *)
Theorem isVersionGreaterOrEqual_trailing_components (version tail other : string) :
  Forall (fun c => js_truthy (NumberParser.Number c) = false) (split "." tail) ->
  isVersionGreaterOrEqual (version +:+ String "." tail) other =
    isVersionGreaterOrEqual version other ∧
  isVersionGreaterOrEqual other (version +:+ String "." tail) =
    isVersionGreaterOrEqual other version.
Proof.
  intros Htail. unfold isVersionGreaterOrEqual, versionGreaterOrEqualWith.
  rewrite split_append, map_app.
  assert (Forall (fun z => js_truthy z = false)
            (map NumberParser.Number (split "." tail))) as Hzeros
    by (by apply Forall_fmap).
  split.
  - by apply (proj1 (compareParts_falsy_tail _ _ _ Hzeros)).
  - by apply (proj2 (compareParts_falsy_tail _ _ _ Hzeros)).
Qed.

Lemma isVersionGreaterOrEqual_trailing_components_witness :
  isVersionGreaterOrEqual ("20" +:+ String "." "0.x") "20.0.1" =
    isVersionGreaterOrEqual "20" "20.0.1" ∧
  isVersionGreaterOrEqual "20.0.1" ("20" +:+ String "." "0.x") =
    isVersionGreaterOrEqual "20.0.1" "20".
Proof.
  apply (isVersionGreaterOrEqual_trailing_components "20" "0.x" "20.0.1").
  change (split "." "0.x") with ["0"; "x"].
  repeat constructor.
Defined.

(* ===================================================================== *)
(** ** The comparison on decimal numerals *)
(* ===================================================================== *)

Section NumeralFacts.

Lemma roundHalfEven_1 (n : Z) : roundHalfEven n 1 = n.
Proof. unfold roundHalfEven. by rewrite Z.mod_1_r, Z.div_1_r. Qed.

(** Below [2^53] every natural number is a double. *)
Lemma toDouble_exact (n : Z) :
  (0 <= n < 2 ^ 53)%Z -> toDouble (n # 1)%Q = of_integer n.
Proof.
  intros [Hpos Hlt]. unfold toDouble, of_integer. cbn [Qnum Qden].
  rewrite (Z.abs_eq n Hpos).
  destruct (Z.eqb_spec n 0) as [->|Hne]; [done|].
  assert (0 < n)%Z as Hn by lia.
  change (Z.log2 1) with 0%Z. rewrite Z.sub_0_r, Z.mul_1_l.
  pose proof (Z.log2_nonneg n) as Hlog.
  pose proof (Z.log2_spec n Hn) as [Hlow _].
  assert (Z.log2 n < 53)%Z as Hhigh by (by apply Z.log2_lt_pow2).
  rewrite (proj2 (Z.leb_le 0 (Z.log2 n)) Hlog), (proj2 (Z.leb_le _ _) Hlow).
  rewrite Z.max_l by lia.
  assert ((n <? 0)%Z = false) as -> by (apply Z.ltb_ge; lia).
  destruct (Z.leb_spec 0 (Z.log2 n - 52)) as [Hu|Hu].
  - assert (Z.log2 n - 52 = 0)%Z as -> by lia.
    change (2 ^ 0)%Z with 1%Z. rewrite roundHalfEven_1, Z.mul_1_r.
    assert ((2 ^ 1024 <=? n)%Z = false) as ->.
    { apply Z.leb_gt. etrans; [exact Hlt|]. done. }
    cbn [andb]. f_equal. apply (inject_Z_Qred n).
  - cbn [andb]. rewrite roundHalfEven_1. f_equal.
    etrans; [|apply (inject_Z_Qred n)]. apply Qred_complete.
    unfold Qeq, inject_Z. cbn [Qnum Qden].
    rewrite Z2Pos.id by (apply Z.pow_pos_nonneg; lia). lia.
Qed.

Lemma digit_character (c : ascii) (d : nat) :
  Ascii.is_nat c = Some d ->
  Ascii.is_space c = false ∧ Ascii.eqb c "." = false ∧
  NumberParser.is_digit c = true ∧ NumberParser.digit_val c = Z.of_nat d ∧
  Ascii.eqb c "x" = false ∧ Ascii.eqb c "X" = false ∧
  Ascii.eqb c "o" = false ∧ Ascii.eqb c "O" = false ∧
  Ascii.eqb c "b" = false ∧ Ascii.eqb c "B" = false ∧
  Ascii.eqb c "-" = false ∧ Ascii.eqb c "+" = false ∧
  Ascii.eqb c "I" = false.
Proof.
  intros Hd. unfold NumberParser.is_digit, NumberParser.digit_val. rewrite Hd.
  destruct c as [[] [] [] [] [] [] [] []]; try discriminate Hd; done.
Qed.

(** No digit is the first or the last byte of a wider white space. *)
Lemma digit_no_space (c : ascii) (d : nat) :
  Ascii.is_nat c = Some d ->
  (∀ b, wideSpace2 c b = false) ∧ (∀ b, wideSpace2 b c = false) ∧
  (∀ a b, wideSpace3 c a b = false) ∧ (∀ a b, wideSpace3 a b c = false).
Proof.
  intros Hd. unfold wideSpace2, wideSpace3.
  destruct c as [[] [] [] [] [] [] [] []]; try discriminate Hd;
    (split; [done|]); (split; [intros b; apply andb_false_r|]);
    (split; [done|]); intros a b; cbn;
    by rewrite ?andb_false_r, ?orb_false_r.
Qed.

Lemma stripSpaces_head (wide2 : ascii -> ascii -> bool)
    (wide3 : ascii -> ascii -> ascii -> bool) (a : ascii) (rest : string) :
  Ascii.is_space a = false ->
  (∀ b, wide2 a b = false) -> (∀ b c, wide3 a b c = false) ->
  stripSpaces wide2 wide3 (String a rest) = String a rest.
Proof.
  intros Ha H2 H3. cbn [stripSpaces]. rewrite Ha.
  destruct rest as [|b [|c rest]]; [done| |]; rewrite H2; [done|].
  by rewrite H3.
Qed.

(** The characters of a numeral are digits, and folding them gives its
    value. *)
Lemma numeralFrom_digits (s : string) (acc n : Z) :
  numeralFrom acc s = Some n ->
  Forall (fun c => is_Some (Ascii.is_nat c)) (String.list_ascii_of_string s) ∧
  fold_left (fun a c => (a * 10 + NumberParser.digit_val c)%Z)
            (String.list_ascii_of_string s) acc = n ∧
  ((0 <= acc)%Z -> (acc <= n)%Z).
Proof.
  revert acc. induction s as [|c s IH]; intros acc; cbn.
  - intros [= <-]. by repeat split.
  - destruct (Ascii.is_nat c) as [d|] eqn:Hd; [|done]. intros Hrest.
    destruct (IH _ Hrest) as (Hall & Hfold & Hle).
    destruct (digit_character c d Hd) as (_ & _ & _ & -> & _).
    split; [constructor; eauto|]. split; [done | lia].
Qed.

Lemma span_digits_all (l : list ascii) :
  Forall (fun c => is_Some (Ascii.is_nat c)) l ->
  NumberParser.span_digits l = (l, []).
Proof.
  induction 1 as [|c l [d Hd] _ IH]; cbn; [done|].
  destruct (digit_character c d Hd) as (_ & _ & -> & _). by rewrite IH.
Qed.

Lemma rev_app_rev_app (s a b : string) :
  String.rev_app (String.rev_app s a) b = String.rev_app a (s +:+ b).
Proof.
  revert a. induction s as [|c s IH]; intros a; [done|].
  change (String c s +:+ b) with (String c (s +:+ b)).
  cbn [String.rev_app]. apply IH.
Qed.

Lemma append_empty (s : string) : s +:+ EmptyString = s.
Proof.
  induction s as [|c s IH]; [done|].
  change (String c s +:+ EmptyString) with (String c (s +:+ EmptyString)).
  by rewrite IH.
Qed.

Lemma rev_app_characters (P : ascii -> Prop) (s a : string) :
  Forall P (String.list_ascii_of_string s) ->
  Forall P (String.list_ascii_of_string a) ->
  Forall P (String.list_ascii_of_string (String.rev_app s a)).
Proof.
  revert a. induction s as [|c s IH]; intros a Hs Ha; cbn in *; [done|].
  inversion_clear Hs. apply IH; [done|]. by constructor.
Qed.

Lemma trim_digits (s : string) :
  Forall (fun c => is_Some (Ascii.is_nat c)) (String.list_ascii_of_string s) ->
  trim s = s.
Proof.
  intros Hs. unfold trim, trimEnd, trimStart.
  assert (stripSpaces wideSpace2 wideSpace3 s = s) as ->.
  { destruct s as [|a rest]; [done|]. inversion_clear Hs as [|? ? [d Hd] _].
    destruct (digit_character a d Hd) as (Ha & _).
    destruct (digit_no_space a d Hd) as (H2 & _ & H3 & _).
    by apply stripSpaces_head. }
  assert (Forall (fun c => is_Some (Ascii.is_nat c))
                 (String.list_ascii_of_string (String.rev s))) as Hrev
    by (by apply rev_app_characters; [|constructor]).
  assert (stripSpaces (fun a b => wideSpace2 b a) (fun a b c => wideSpace3 c b a)
            (String.rev s) = String.rev s) as ->.
  { destruct (String.rev s) as [|a rest]; [done|].
    inversion_clear Hrev as [|? ? [d Hd] _].
    destruct (digit_character a d Hd) as (Ha & _).
    destruct (digit_no_space a d Hd) as (_ & H2 & _ & H3).
    apply stripSpaces_head; [done | done |]. intros b c. apply H3. }
  unfold String.rev. rewrite rev_app_rev_app. cbn. apply append_empty.
Qed.

(** [Number] on a numeral below [2^53] is the number it denotes. *)
Lemma Number_numeral (s : string) (n : Z) :
  numeral s = Some n -> (n < 2 ^ 53)%Z ->
  NumberParser.Number s = of_integer n.
Proof.
  intros Hnumeral Hsafe.
  assert (s ≠ EmptyString ∧ numeralFrom 0 s = Some n) as [Hne Hfrom]
    by (by destruct s).
  destruct (numeralFrom_digits s 0 n Hfrom) as (Hdigits & Hvalue & Hpos).
  assert (NumberParser.unsigned_decimal (String.list_ascii_of_string s)
          = Finite (n # 1)%Q) as Hdecimal.
  { unfold NumberParser.unsigned_decimal.
    rewrite String.string_of_list_ascii_of_string.
    assert (String.eqb s "Infinity" = false) as ->.
    { destruct s as [|c s]; [done|]. inversion_clear Hdigits as [|? ? [d Hd] _].
      destruct (digit_character c d Hd) as (_&_&_&_&_&_&_&_&_&_&_&_&HI).
      cbn. by rewrite HI. }
    rewrite (span_digits_all _ Hdigits).
    destruct (String.list_ascii_of_string s) as [|c l] eqn:Hl.
    { destruct s; [done | discriminate Hl]. }
    unfold NumberParser.scaled, NumberParser.decimal_value. cbn [Z.leb Z.compare].
    rewrite Hvalue. change (10 ^ 0)%Z with 1%Z. by rewrite Z.mul_1_r. }
  unfold NumberParser.Number, NumberParser.literalValue.
  rewrite (trim_digits s Hdigits).
  destruct (String.list_ascii_of_string s) as [|c0 [|c1 rest]] eqn:Hl.
  - destruct s; [done | discriminate Hl].
  - rewrite Hdecimal. cbn [roundNumber]. apply toDouble_exact. lia.
  - inversion_clear Hdigits as [|? ? [d0 Hd0] Hrest].
    inversion_clear Hrest as [|? ? [d1 Hd1] _].
    destruct (digit_character c0 d0 Hd0) as (_&_&_&_&_&_&_&_&_&_&Hminus&Hplus&_).
    destruct (digit_character c1 d1 Hd1) as (_&_&_&_&Hx&HX&Ho&HO&Hb&HB&_).
    rewrite Hx, HX, Ho, HO, Hb, HB, Hminus, Hplus, !andb_false_r.
    rewrite Hdecimal. cbn [roundNumber]. apply toDouble_exact. lia.
Qed.

Lemma split_undotted (s : string) :
  Forall (fun c => Ascii.eqb c "." = false) (String.list_ascii_of_string s) ->
  split "." s = [s].
Proof.
  induction s as [|c s IH]; [done|].
  cbn [split String.list_ascii_of_string].
  inversion_clear 1 as [|? ? Hc Hs]. by rewrite Hc, (IH Hs).
Qed.

Lemma numeral_undotted (s : string) (n : Z) :
  numeral s = Some n ->
  Forall (fun c => Ascii.eqb c "." = false) (String.list_ascii_of_string s).
Proof.
  intros Hnumeral.
  assert (numeralFrom 0 s = Some n) as Hfrom by (by destruct s).
  destruct (numeralFrom_digits s 0 n Hfrom) as (Hdigits & _).
  eapply Forall_impl; [exact Hdigits|]. intros c [d Hd].
  by destruct (digit_character c d Hd) as (_ & ? & _).
Qed.

(** The components of a dotted list of numerals, converted. *)
Lemma dotted_components (components : list string) (values : list Z) :
  Forall2 (fun s n => numeral s = Some n ∧ (n < 2 ^ 53)%Z) components values ->
  components ≠ [] ->
  map NumberParser.Number (split "." (String.concat "." components))
  = map of_integer values.
Proof.
  induction 1 as [|s n components values [Hs Hn] Hrest IH]; [done|]. intros _.
  destruct components as [|s' components].
  - inversion_clear Hrest. cbn [String.concat].
    rewrite (split_undotted s (numeral_undotted s n Hs)). cbn.
    by rewrite (Number_numeral s n Hs Hn).
  - change (String.concat "." (s :: s' :: components))
      with (s +:+ String "." (String.concat "." (s' :: components))).
    rewrite split_append, (split_undotted s (numeral_undotted s n Hs)).
    cbn [app map]. rewrite (Number_numeral s n Hs Hn). f_equal. by apply IH.
Qed.

End NumeralFacts.

(** C8 read as a rule on all numerals fails: components are compared as
    JavaScript numbers, and beyond [2^53] two numerals that denote
    different integers can be the same number.  Here the left-to-right
    comparison of the integers says no, and the code says yes. *)
Lemma isVersionGreaterOrEqual_rounds_large_components :
  numeral "9007199254740992" = Some 9007199254740992%Z ∧
  numeral "9007199254740993" = Some 9007199254740993%Z ∧
  spec_components_ge [9007199254740992%Z] [9007199254740993%Z] = false ∧
  isVersionGreaterOrEqual "9007199254740992" "9007199254740993" = true.
Proof. repeat split; vm_compute; reflexivity. Qed.

(** C8 as the code has it.  The three comparisons the specification lists,
    and the rule behind them, on the version strings themselves: when both
    versions are dotted lists of decimal numerals, each below [2^53] (up to
    which every natural number is a number of its own), the answer is the
    left-to-right comparison of the integers, a missing component counting
    as 0. *)
Theorem isVersionGreaterOrEqual_components :
  isVersionGreaterOrEqual "20.1.0" "19.9.0" = true ∧
  isVersionGreaterOrEqual "19.8.9" "19.9.0" = false ∧
  isVersionGreaterOrEqual "20" "20.0.0" = true ∧
  ∀ (current required : list string) (currentValues requiredValues : list Z),
    Forall2 (fun s n => numeral s = Some n ∧ (n < 2 ^ 53)%Z)
            current currentValues ->
    Forall2 (fun s n => numeral s = Some n ∧ (n < 2 ^ 53)%Z)
            required requiredValues ->
    current ≠ [] -> required ≠ [] ->
    isVersionGreaterOrEqual (String.concat "." current)
                            (String.concat "." required)
    = spec_components_ge currentValues requiredValues.
Proof.
  split; [vm_compute; reflexivity|].
  split; [vm_compute; reflexivity|].
  split; [vm_compute; reflexivity|].
  intros current required currentValues requiredValues Hcurrent Hrequired Hc Hr.
  unfold isVersionGreaterOrEqual, versionGreaterOrEqualWith.
  rewrite (dotted_components current currentValues Hcurrent Hc).
  rewrite (dotted_components required requiredValues Hrequired Hr).
  apply compareParts_spec.
Qed.

(** Instances: a third component decides, a missing one counts as 0, and
    leading zeros do not matter. *)
Lemma isVersionGreaterOrEqual_components_witness :
  isVersionGreaterOrEqual "19.9.0" "19.9.5" = false ∧
  isVersionGreaterOrEqual "19.10" "19.9.5" = true ∧
  isVersionGreaterOrEqual "020.01" "20.1.0.0" = true.
Proof.
  pose proof (proj2 (proj2 (proj2 isVersionGreaterOrEqual_components))) as Hrule.
  split; [|split].
  - apply (Hrule ["19"; "9"; "0"] ["19"; "9"; "5"] [19; 9; 0]%Z [19; 9; 5]%Z);
      repeat constructor; done.
  - apply (Hrule ["19"; "10"] ["19"; "9"; "5"] [19; 10]%Z [19; 9; 5]%Z);
      repeat constructor; done.
  - apply (Hrule ["020"; "01"] ["20"; "1"; "0"; "0"] [20; 1]%Z [20; 1; 0; 0]%Z);
      repeat constructor; done.
Defined.

(* ===================================================================== *)
(** ** How a version is chosen *)
(* ===================================================================== *)

Section ChoiceFacts.

Lemma isValidVersion_entry (v : IndexEntry) :
  isValidVersion v = Returned true ->
  versionOf v = Returned (entryVersion v) ∧
  ∃ sv, Semver.parse (entryVersion v) = Some sv.
Proof.
  unfold isValidVersion, versionOf, entryVersion.
  destruct (ie_version v) as [s|]; [|discriminate].
  cbn [default from_option id]. intros Hvalid. split; [done|].
  revert Hvalid. unfold mbind at 1, Outcome_bind at 1.
  unfold Semver.gte, Semver.compare, Semver.construct.
  unfold mbind, Outcome_bind.
  destruct (Semver.parse (slice1 s)) as [sv|]; [eauto | discriminate].
Qed.

Lemma filterThrowing_filter (versions validVersions : list IndexEntry) :
  filterThrowing isValidVersion versions = Returned validVersions ->
  validVersions = List.filter entryIsValid versions.
Proof.
  revert validVersions.
  induction versions as [|v rest IH]; intros valid;
    cbn [filterThrowing List.filter].
  - by intros [= <-].
  - unfold mbind, Outcome_bind.
    destruct (isValidVersion v) as [keep|] eqn:Hv; [|discriminate].
    assert (entryIsValid v = keep) as -> by (unfold entryIsValid; by rewrite Hv).
    destruct (filterThrowing isValidVersion rest) as [kept|]; [|discriminate].
    intros [= <-]. by rewrite <- (IH kept eq_refl).
Qed.

Lemma findThrowing_find {A} (p : A -> Outcome bool) (q : A -> bool) (l : list A) :
  Forall (fun x => p x = Returned (q x)) l ->
  findThrowing p l = Returned (List.find q l).
Proof.
  induction 1 as [|x l Hx _ IH]; cbn; [done|].
  unfold mbind, Outcome_bind. rewrite Hx. by destruct (q x).
Qed.

Context (validVersions : list IndexEntry).
Hypothesis Hvalid : Forall (fun v => isValidVersion v = Returned true) validVersions.

Lemma find_preferred (preferred : string) :
  findThrowing (isPreferred preferred) validVersions =
    Returned (List.find (fun v => String.eqb (entryVersion v) preferred)
                        validVersions).
Proof using Hvalid.
  apply findThrowing_find. eapply Forall_impl; [exact Hvalid|].
  intros v Hv. unfold isPreferred.
  by rewrite (proj1 (isValidVersion_entry v Hv)).
Qed.

Lemma find_lts20 :
  findThrowing isLTS20 validVersions =
    Returned (List.find entryIsLTS20 validVersions).
Proof using Hvalid.
  apply findThrowing_find. eapply Forall_impl; [exact Hvalid|].
  intros v Hv. unfold isLTS20, entryIsLTS20.
  destruct (ie_lts v); [done|].
  destruct (isValidVersion_entry v Hv) as [-> [sv Hsv]].
  cbn [mbind Outcome_bind]. unfold Semver.semver_major, Semver.construct.
  by rewrite Hsv.
Qed.

Lemma firstPreferred_find (preferred : list string) :
  firstPreferred preferred validVersions =
    Returned (List.find (fun p =>
                           existsb (fun v => String.eqb (entryVersion v) p)
                                   validVersions) preferred).
Proof using Hvalid.
  induction preferred as [|p rest IH]; cbn [firstPreferred List.find]; [done|].
  rewrite find_preferred. cbn [mbind Outcome_bind].
  destruct (List.find _ validVersions) as [v|] eqn:Hfind.
  - apply find_some in Hfind as [Hin Heq].
    assert (existsb (fun v => String.eqb (entryVersion v) p) validVersions = true)
      as -> by (apply existsb_exists; eauto).
    rewrite Forall_forall in Hvalid.
    rewrite (proj1 (isValidVersion_entry v (Hvalid v (proj2 (list_elem_of_In _ _) Hin)))).
    cbn. by apply String.eqb_eq in Heq as ->.
  - assert (existsb (fun v => String.eqb (entryVersion v) p) validVersions = false)
      as ->.
    { apply not_true_is_false. intros (v & Hin & Heq)%existsb_exists.
      by rewrite (find_none _ _ Hfind v Hin) in Heq. }
    exact IH.
Qed.

End ChoiceFacts.

(** X3.  When no entry of the index makes the filter throw, the entries
    that pass are kept in the order of the index, and the version returned
    is: the first of 20.18.0, 20.17.0, 20.16.0, 20.15.1 that is listed among
    them; failing that the first listed LTS release of the 20 line; failing
    that the first entry; and with no entry left the selection throws. *)
Theorem selectVersion_choice (versions validVersions : list IndexEntry) :
  filterThrowing isValidVersion versions = Returned validVersions ->
  validVersions = List.filter entryIsValid versions ∧
  selectVersion (Entries versions) =
    match chooseVersion validVersions with
    | Some version => Returned version
    | None => Thrown (Error "No valid Node.js versions found (minimum: 19.9.0)")
    end.
Proof.
  intros Hfilter. split; [by apply filterThrowing_filter|].
  unfold selectVersion. rewrite Hfilter. cbn [mbind Outcome_bind].
  apply filterThrowing_kept in Hfilter.
  destruct validVersions as [|first rest]; [done|].
  rewrite (firstPreferred_find _ Hfilter). cbn [mbind Outcome_bind chooseVersion].
  destruct (List.find _ preferredVersions); [done|].
  rewrite (find_lts20 _ Hfilter). cbn [mbind Outcome_bind].
  destruct (List.find entryIsLTS20 (first :: rest)) as [v|] eqn:Hfind.
  - apply find_some in Hfind as [Hin _]. rewrite Forall_forall in Hfilter.
    by rewrite (proj1 (isValidVersion_entry v
                         (Hfilter v (proj2 (list_elem_of_In _ _) Hin)))).
  - by rewrite (proj1 (isValidVersion_entry first (Forall_inv Hfilter))).
Qed.

Lemma selectVersion_choice_witness :
  selectVersion Scenario.mockIndex = Returned "20.11.1".
Proof.
  apply (selectVersion_choice
           [ mkIndexEntry (Some "v23.1.0") LtsFalse;
             mkIndexEntry (Some "v22.12.0-rc.1") LtsFalse;
             mkIndexEntry (Some "v22.11.0") LtsOther;
             mkIndexEntry (Some "v20.11.1") LtsOther;
             mkIndexEntry (Some "v18.20.4") LtsOther ]
           [ mkIndexEntry (Some "v22.11.0") LtsOther;
             mkIndexEntry (Some "v20.11.1") LtsOther ]).
  vm_compute. reflexivity.
Defined.

(* ===================================================================== *)
(** ** What [cleanup] touches *)
(* ===================================================================== *)

Section CleanupReach.

Context (E : Env).

(** One turn of the [forEach]: nothing happens to the files, or the file of
    this turn, a regular file, is deleted; it is deleted when the system
    does not refuse. *)
Lemma cleanup_turn (file : string) (rest : list string) (w : World) :
  ∃ w1,
    cleanup E (file :: rest) w = cleanup E rest w1 ∧
    trace w1 = trace w ∧
    (fs w1 = fs w ∨ regular w file ∧ fs w1 = delete file (fs w)) ∧
    (fs_fault E (UnlinkOp file) w = None -> regular w file ->
     fs w1 = delete file (fs w)).
Proof.
  assert (∃ w1,
            tryCatch
              (present ← existsSync file; when present (unlinkSync E file))
              (fun _ => console_warn ("Warning: Could not clean up " +:+ file)) w
              = (Returned tt, w1) ∧
            trace w1 = trace w ∧
            (fs w1 = fs w ∨ regular w file ∧ fs w1 = delete file (fs w)) ∧
            (fs_fault E (UnlinkOp file) w = None -> regular w file ->
             fs w1 = delete file (fs w))) as (w1 & Hturn & Hrest).
  { unfold tryCatch. rewrite bind_run. unfold existsSync at 1.
    destruct (bool_decide_reflect (is_Some (fs w !! file))) as [Hsome|Hnone].
    - rewrite when_true. unfold unlinkSync, fsOperation.
      destruct (fs_fault E (UnlinkOp file) w) as [e|] eqn:Hfault.
      + eexists. split; [reflexivity|]. cbn. split; [done|].
        split; [by left|done].
      + destruct (fs w !! file) as [[m|c m]|] eqn:Hfile.
        * eexists. split; [reflexivity|]. cbn. split; [done|].
          split; [by left|]. intros _ (? & ? & ?). congruence.
        * eexists. split; [reflexivity|]. cbn. split; [done|].
          split; [right; split; [by exists c, m | done] | done].
        * by destruct Hsome.
    - rewrite when_false. exists w. split; [reflexivity|]. split; [done|].
      split; [by left|]. intros _ (c & m & Hfile). destruct Hnone.
      by rewrite Hfile. }
  exists w1. split; [|done]. cbn [cleanup]. by rewrite (bind_returned _ _ _ _ _ Hturn).
Qed.

Lemma cleanup_reach (files : list string) (w : World) :
  trace (cleanup E files w).2 = trace w ∧
  ∀ q, fs (cleanup E files w).2 !! q = fs w !! q ∨
       (q ∈ files ∧ regular w q ∧ fs (cleanup E files w).2 !! q = None).
Proof.
  revert w. induction files as [|file rest IH]; intros w; [by split; [|left]|].
  destruct (cleanup_turn file rest w) as (w1 & -> & Htrace & Hturn & _).
  destruct (IH w1) as [Htrace' Hrest]. split; [congruence|].
  intros q. destruct Hturn as [Hsame | [Hreg Hdel]].
  - rewrite <- Hsame. destruct (Hrest q) as [? | (Hin & Hq & Hgone)]; [by left|].
    right. split; [by right|]. split; [|done].
    unfold regular in *. by rewrite <- Hsame.
  - destruct (decide (q = file)) as [->|Hne].
    + right. split; [left|]. split; [done|].
      destruct (Hrest file) as [Heq | (_ & _ & Hgone)]; [|done].
      by rewrite Heq, Hdel, lookup_delete_eq.
    + assert (fs w1 !! q = fs w !! q) as Hq by (by rewrite Hdel, lookup_delete_ne).
      destruct (Hrest q) as [? | (Hin & Hreg' & Hgone)]; [left; congruence|].
      right. split; [by right|]. split; [|done]. unfold regular in *.
      by rewrite <- Hq.
Qed.

Lemma cleanup_removes (files : list string) (w : World) (f : string) :
  f ∈ files ->
  (∀ w0, fs_fault E (UnlinkOp f) w0 = None) ->
  regular w f ->
  fs (cleanup E files w).2 !! f = None.
Proof.
  intros Hin Hfault. revert w. induction files as [|file rest IH]; intros w Hreg.
  - by apply elem_of_nil in Hin.
  - destruct (cleanup_turn file rest w) as (w1 & -> & _ & Hturn & Hdel).
    destruct (decide (f = file)) as [->|Hne].
    + specialize (Hdel (Hfault w) Hreg).
      destruct (proj2 (cleanup_reach rest w1) file) as [-> | (_ & _ & ?)]; [|done].
      by rewrite Hdel, lookup_delete_eq.
    + apply elem_of_cons in Hin as [?|Hin]; [done|]. apply (IH Hin).
      destruct Hreg as (c & m & Hf). exists c, m.
      destruct Hturn as [-> | [_ ->]]; [done | by rewrite lookup_delete_ne].
Qed.

End CleanupReach.

(** X4.  [cleanup] works file by file: a listed regular file whose removal
    the system does not refuse is gone afterwards, whatever happened to the
    files before it in the list; no path outside the list is touched, no
    directory is removed, and nothing leaves the process. *)
Theorem cleanup_file_by_file (E : Env) (files : list string) (w : World) :
  (∀ f, f ∈ files ->
        (∀ w0, fs_fault E (UnlinkOp f) w0 = None) ->
        (∃ c m, fs w !! f = Some (File c m)) ->
        fs (cleanup E files w).2 !! f = None) ∧
  (∀ q, q ∉ files -> fs (cleanup E files w).2 !! q = fs w !! q) ∧
  (∀ q m, fs w !! q = Some (Dir m) -> fs (cleanup E files w).2 !! q = Some (Dir m)) ∧
  trace (cleanup E files w).2 = trace w.
Proof.
  destruct (cleanup_reach E files w) as [Htrace Hreach].
  split; [intros f; apply cleanup_removes|].
  split; [|split; [|done]].
  - intros q Hq. by destruct (Hreach q) as [? | (? & _)].
  - intros q m Hdir. destruct (Hreach q) as [-> | (_ & (c & m' & Hfile) & _)];
      [done | congruence].
Qed.

(** An instance: the runtime cannot be unlinked, the entry point, next in
    the list, is removed all the same. *)
Lemma cleanup_file_by_file_witness :
  fs (cleanup Cases.stubborn ["/usr/bin/node"; "index.js"] Scenario.start).2
    !! "index.js" = None.
Proof.
  apply (proj1 (cleanup_file_by_file Cases.stubborn ["/usr/bin/node"; "index.js"]
                  Scenario.start) "index.js").
  - apply list_elem_of_In. cbn. tauto.
  - intros w0. reflexivity.
  - eexists _, _. vm_compute. reflexivity.
Defined.

(* ===================================================================== *)
(** ** The steps of the pipeline *)
(* ===================================================================== *)

Section StepFacts.

Context (E : Env).

(** A step whose failure is only warned about always returns. *)
Lemma tryCatch_warn {A} (m : Js A) (line : string) (w : World) :
  ∃ w', tryCatch (m;; mret tt) (fun _ => console_warn line) w = (Returned tt, w').
Proof.
  unfold tryCatch. rewrite bind_run.
  destruct (m w) as [[a|e] w1]; eexists; reflexivity.
Qed.

Lemma createExecutable_run (platform executableName : string) (w : World) :
  createExecutable E platform executableName w =
    (nodePath ← acquireRuntime E platform;
     tryCatch
       (copyFileSync E nodePath (copiedName platform executableName))
       (fun error =>
          throw (Error ("Failed to copy Node.js executable from '" +:+ nodePath +:+
                        "' to '" +:+ copiedName platform executableName +:+ "': " +:+
                        message error)));;
     when (String.eqb platform "darwin")
       (tryCatch
          (execSync E ("codesign --remove-signature " +:+ dquote +:+
                       copiedName platform executableName +:+ dquote) Ignore None;;
           mret tt)
          (fun _ => console_warn "Warning: Could not remove signature. Continuing..."));;
     when (String.eqb platform "win32")
       (tryCatch
          (execSync E ("signtool remove /s " +:+ dquote +:+
                       copiedName platform executableName +:+ dquote) Ignore None;;
           mret tt)
          (fun _ => console_warn "Warning: Could not remove signature. Continuing..."))) w.
Proof. reflexivity. Qed.

Lemma signExecutable_returns (platform executableName : string) (w : World) :
  ∃ w', signExecutable E platform executableName w = (Returned tt, w').
Proof.
  unfold signExecutable.
  destruct (String.eqb platform "darwin"); [apply tryCatch_warn|].
  destruct (String.eqb platform "win32"); [apply tryCatch_warn|].
  by eexists.
Qed.

End StepFacts.

(** X5.  The tools that only touch signatures never make a build fail:
    [signExecutable] always returns, and [createExecutable], once it holds
    the runtime, returns exactly when the copy succeeds, whatever
    [codesign] or [signtool] do; a failed copy is reported with both paths
    and the cause. *)
Theorem signature_tools_are_best_effort (E : Env) (platform executableName : string)
    (w : World) :
  (∃ w', signExecutable E platform executableName w = (Returned tt, w')) ∧
  ∀ nodePath w0,
    acquireRuntime E platform w = (Returned nodePath, w0) ->
    (∀ w1, copyFileSync E nodePath (copiedName platform executableName) w0
             = (Returned tt, w1) ->
           ∃ w', createExecutable E platform executableName w = (Returned tt, w')) ∧
    (∀ e w1, copyFileSync E nodePath (copiedName platform executableName) w0
               = (Thrown e, w1) ->
             createExecutable E platform executableName w =
               (Thrown (Error ("Failed to copy Node.js executable from '" +:+
                               nodePath +:+ "' to '" +:+
                               copiedName platform executableName +:+ "': " +:+
                               message e)), w1)).
Proof.
  split; [apply signExecutable_returns|].
  intros nodePath w0 Hacquire. rewrite createExecutable_run.
  rewrite (bind_returned _ _ _ _ _ Hacquire). split.
  - intros w1 Hcopy. rewrite bind_run. unfold tryCatch at 1. rewrite Hcopy.
    rewrite bind_run.
    destruct (String.eqb platform "darwin").
    + rewrite when_true.
      destruct (tryCatch_warn
                  (execSync E ("codesign --remove-signature " +:+ dquote +:+
                               copiedName platform executableName +:+ dquote)
                     Ignore None)
                  "Warning: Could not remove signature. Continuing..." w1)
        as [w2 ->].
      destruct (String.eqb platform "win32"); [apply tryCatch_warn | by eexists].
    + rewrite when_false.
      destruct (String.eqb platform "win32"); [apply tryCatch_warn | by eexists].
  - intros e w1 Hcopy. rewrite bind_run. unfold tryCatch at 1. by rewrite Hcopy.
Qed.

(** An instance: on the scenario host the copy of the host runtime
    succeeds, and so does [createExecutable]. *)
Lemma signature_tools_are_best_effort_witness :
  ∃ w', createExecutable Scenario.calm "linux" "app" Scenario.start = (Returned tt, w').
Proof.
  apply (proj1 (proj2 (signature_tools_are_best_effort Scenario.calm "linux" "app"
                         Scenario.start)
                  "/usr/bin/node" Scenario.start eq_refl)
           (copyFileSync Scenario.calm "/usr/bin/node" "app" Scenario.start).2).
  apply (run_outcome (copyFileSync Scenario.calm "/usr/bin/node" "app") Scenario.start).
  vm_compute. reflexivity.
Defined.

Section CommandFacts.

Context (E : Env).

Lemma execSync_trace (command : string) (stdio : Stdio) (timeout : option Z)
    (w : World) :
  trace (execSync E command stdio timeout w).2 = trace w ++ [Spawned command].
Proof.
  unfold execSync. destruct (spawn E command timeout w) as [[status out err| |code] files];
    [destruct (status =? 0)%Z|..]; reflexivity.
Qed.

(** [execSync] returns exactly when the command exits with status 0. *)
Lemma execSync_returns (command : string) (stdio : Stdio) (timeout : option Z)
    (w : World) :
  (∃ out, (execSync E command stdio timeout w).1 = Returned out) ↔
  (∃ out err, (spawn E command timeout w).1 = Exited 0 out err).
Proof.
  unfold execSync.
  destruct (spawn E command timeout w) as [[status out err| |code] files]; cbn.
  - destruct (Z.eqb_spec status 0) as [->|Hne]; cbn.
    + split; eauto.
    + split; [by intros [? ?] | intros (? & ? & [= ? _ _]); done].
  - split; [by intros [? ?] | by intros (? & ? & ?)].
  - split; [by intros [? ?] | by intros (? & ? & ?)].
Qed.

Lemma execSync_exit0 (command : string) (stdio : Stdio) (timeout : option Z)
    (w : World) (out err : string) :
  (spawn E command timeout w).1 = Exited 0 out err ->
  execSync E command stdio timeout w =
    (Returned (match stdio with Pipe => out | _ => EmptyString end),
     record (Spawned command) (withFs w (spawn E command timeout w).2)).
Proof.
  unfold execSync. destruct (spawn E command timeout w) as [r files].
  cbn [fst snd]. by intros ->.
Qed.

Lemma execSync_failed (command : string) (stdio : Stdio) (timeout : option Z)
    (w : World) :
  (∀ out err, (spawn E command timeout w).1 ≠ Exited 0 out err) ->
  ∃ e, execSync E command stdio timeout w =
         (Thrown e, record (Spawned command)
                      (withFs w (spawn E command timeout w).2)).
Proof.
  unfold execSync. destruct (spawn E command timeout w) as [r files].
  cbn [fst snd]. intros Hfail. destruct r as [status out err| |code]; eauto.
  destruct (Z.eqb_spec status 0) as [->|_]; [by destruct (Hfail out err) | eauto].
Qed.

Lemma generateBlob_run (configPath : string) (w : World) :
  generateBlob E configPath w =
    match execSync E (blobCommand E configPath) Inherit None w with
    | (Returned _, w') => (Returned tt, w')
    | (Thrown e, w') =>
        (Thrown (Error ("Failed to generate blob: " +:+ message e)), w')
    end.
Proof.
  unfold generateBlob, tryCatch, blobCommand. rewrite bind_run.
  by destruct (execSync E _ Inherit None w) as [[out|e] w'].
Qed.

Lemma injectBlob_run (platform executableName blobPath : string) (w : World) :
  injectBlob E platform executableName blobPath w =
    match (execSync E (postjectCommand platform executableName blobPath) Inherit None;;
           when (String.eqb platform "win32")
             (verifyWindowsExecutable E executableName)) w with
    | (Returned _, w') => (Returned tt, w')
    | (Thrown e, w') =>
        (Thrown (Error ("Failed to inject blob: " +:+ message e)), w')
    end.
Proof.
  unfold injectBlob, tryCatch, postjectCommand.
  destruct (String.eqb platform "darwin");
    by match goal with |- context [(?m ≫= ?f) w] =>
         destruct ((m ≫= f) w) as [[[]|e] w'] end.
Qed.

Lemma verifyWindowsExecutable_trace (executableName : string) (w : World) :
  trace (verifyWindowsExecutable E executableName w).2 =
    trace w ++ [Spawned (verifyCommand E executableName)].
Proof.
  unfold verifyWindowsExecutable, tryCatch. rewrite bind_run.
  pose proof (execSync_trace (verifyCommand E executableName) Pipe (Some 5000%Z) w)
    as Htrace.
  destruct (execSync E (verifyCommand E executableName) Pipe (Some 5000%Z) w)
    as [[out|e] w1]; cbn [snd] in Htrace.
  - destruct (includes out replBanner || includes out replHint); cbn; [|done].
    done.
  - by destruct (includes (message e) "REPL mode").
Qed.

End CommandFacts.

(** X6.  Blob generation and injection report every failure under their own
    prefix, and run their tool exactly once: [generateBlob] returns exactly
    when the compiler exits with status 0, and off win32 [injectBlob] runs
    postject and nothing else. *)
Theorem blob_steps_report_failures (E : Env)
    (platform configPath executableName blobPath : string) (w : World) :
  (∀ e w', generateBlob E configPath w = (Thrown e, w') ->
     ∃ cause, message e = "Failed to generate blob: " +:+ cause) ∧
  ((generateBlob E configPath w).1 = Returned tt ↔
   ∃ out err, (spawn E (blobCommand E configPath) None w).1 = Exited 0 out err) ∧
  trace (generateBlob E configPath w).2 =
    trace w ++ [Spawned (blobCommand E configPath)] ∧
  (∀ e w', injectBlob E platform executableName blobPath w = (Thrown e, w') ->
     ∃ cause, message e = "Failed to inject blob: " +:+ cause) ∧
  (platform ≠ "win32" ->
   trace (injectBlob E platform executableName blobPath w).2 =
     trace w ++ [Spawned (postjectCommand platform executableName blobPath)]).
Proof.
  pose proof (execSync_trace E (blobCommand E configPath) Inherit None w) as Htrace.
  pose proof (execSync_returns E (blobCommand E configPath) Inherit None w) as Hret.
  rewrite generateBlob_run, injectBlob_run.
  split; [|split; [|split; [|split]]].
  - destruct (execSync E (blobCommand E configPath) Inherit None w) as [[out|e] w1];
      intros e' w' [= <- _]. eauto.
  - destruct (execSync E (blobCommand E configPath) Inherit None w) as [[out|e] w1];
      cbn [fst] in *.
    + split; [intros _; apply Hret; eauto | done].
    + split; [intros [=]|]. intros Hexit. by apply Hret in Hexit as [? [=]].
  - by destruct (execSync E (blobCommand E configPath) Inherit None w) as [[out|e] w1].
  - intros e' w'.
    match goal with
    | |- context [match ?run with _ => _ end] => destruct run as [[[]|e0] w2]
    end; [done|]. intros [= <- _]. eauto.
  - intros Hplatform. rewrite bind_run.
    pose proof (execSync_trace E (postjectCommand platform executableName blobPath)
                  Inherit None w) as Htrace'.
    destruct (execSync E (postjectCommand platform executableName blobPath)
                Inherit None w) as [[out'|e0] w2]; cbn [snd] in Htrace';
      [|exact Htrace'].
    destruct (String.eqb_spec platform "win32"); [done|].
    rewrite when_false. exact Htrace'.
Qed.

Lemma blob_steps_report_failures_witness :
  trace (injectBlob Scenario.brokenInjection "darwin" "app" "/tmp/app.blob"
           Scenario.start).2 =
    [Spawned (postjectCommand "darwin" "app" "/tmp/app.blob")] ∧
  ∃ cause,
    message (Error ("Failed to inject blob: Command failed: " +:+
                    postjectCommand "darwin" "app" "/tmp/app.blob")) =
      "Failed to inject blob: " +:+ cause.
Proof.
  pose proof (blob_steps_report_failures Scenario.brokenInjection "darwin"
                "/tmp/sea-config.json" "app" "/tmp/app.blob" Scenario.start)
    as (_ & _ & _ & Hprefix & Hone).
  split.
  - apply Hone. discriminate.
  - apply (Hprefix _ (injectBlob Scenario.brokenInjection "darwin" "app"
                        "/tmp/app.blob" Scenario.start).2).
    apply (run_outcome (injectBlob Scenario.brokenInjection "darwin" "app"
                          "/tmp/app.blob") Scenario.start).
    vm_compute. reflexivity.
Defined.

(** X7.  On win32 a postject that exits with status 0 is followed by the
    verification, and an executable that still greets like the REPL makes
    the injection fail with the message of the verification under the
    injection prefix; a postject that fails is not followed by the
    verification at all. *)
Theorem injectBlob_win32_verification (E : Env) (executableName blobPath : string)
    (w : World) :
  let command := postjectCommand "win32" executableName blobPath in
  let w1 := record (Spawned command) (withFs w (spawn E command None w).2) in
  (∀ out err, (spawn E command None w).1 = Exited 0 out err ->
     trace (injectBlob E "win32" executableName blobPath w).2 =
       trace w ++ [Spawned command; Spawned (verifyCommand E executableName)] ∧
     ∀ out' err',
       (spawn E (verifyCommand E executableName) (Some 5000%Z) w1).1
         = Exited 0 out' err' ->
       includes out' replBanner || includes out' replHint = true ->
       (injectBlob E "win32" executableName blobPath w).1 =
         Thrown (Error ("Failed to inject blob: " +:+ message replModeError))) ∧
  ((∀ out err, (spawn E command None w).1 ≠ Exited 0 out err) ->
   trace (injectBlob E "win32" executableName blobPath w).2 =
     trace w ++ [Spawned command]).
Proof.
  intros command w1. rewrite injectBlob_run. fold command.
  rewrite bind_run. split.
  - intros out err Hexit.
    rewrite (execSync_exit0 E command Inherit None w out err Hexit). fold w1.
    cbn [String.eqb Ascii.eqb Bool.eqb]. rewrite when_true.
    pose proof (verifyWindowsExecutable_trace E executableName w1) as Htrace.
    split.
    + destruct (verifyWindowsExecutable E executableName w1) as [[[]|e] w2];
        cbn [snd] in *; rewrite Htrace; cbn; by rewrite <- app_assoc.
    + intros out' err' Hrun Hrepl.
      unfold verifyWindowsExecutable, tryCatch. rewrite bind_run.
      rewrite (execSync_exit0 E _ Pipe (Some 5000%Z) w1 out' err' Hrun).
      rewrite Hrepl. reflexivity.
  - intros Hfail.
    destruct (execSync_failed E command Inherit None w Hfail) as [e ->].
    reflexivity.
Qed.

Lemma injectBlob_win32_verification_witness :
  (injectBlob Scenario.greeting "win32" "app.exe" "/tmp/app.blob" Scenario.start).1 =
    Thrown (Error ("Failed to inject blob: " +:+ message replModeError)).
Proof.
  pose proof (injectBlob_win32_verification Scenario.greeting "app.exe"
                "/tmp/app.blob" Scenario.start) as [Hverified _].
  destruct (Hverified "Welcome to Node.js v20.18.0." EmptyString eq_refl)
    as [_ Hrepl].
  apply (Hrepl "Welcome to Node.js v20.18.0." EmptyString); reflexivity.
Defined.

(* ===================================================================== *)
(** ** Builds for the host stay off the network *)
(* ===================================================================== *)

Section OfflineFacts.

Context (E : Env).

Lemma networkCalls_same (w w' : World) :
  trace w' = trace w -> networkCalls w' = networkCalls w.
Proof. unfold networkCalls. by intros ->. Qed.

Lemma staysOffline_keepsTrace {A} (m : Js A) : keepsTrace m -> staysOffline m.
Proof. intros Hm w. apply networkCalls_same, Hm. Qed.

Lemma staysOffline_ret {A} (a : A) : staysOffline (mret a : Js A).
Proof. by intros w. Qed.

Lemma staysOffline_bind {A B} (m : Js A) (f : A -> Js B) :
  staysOffline m -> (∀ a, staysOffline (f a)) -> staysOffline (m ≫= f).
Proof.
  intros Hm Hf w. rewrite bind_run. specialize (Hm w).
  destruct (m w) as [[a|e] w1]; cbn in *; [|done]. by rewrite Hf.
Qed.

Lemma staysOffline_tryCatch {A} (m : Js A) (h : JsError -> Js A) :
  staysOffline m -> (∀ e, staysOffline (h e)) -> staysOffline (tryCatch m h).
Proof.
  intros Hm Hh w. unfold tryCatch. specialize (Hm w).
  destruct (m w) as [[a|e] w1]; cbn in *; [done|]. by rewrite Hh.
Qed.

Lemma staysOffline_tryFinally {A} (m : Js A) (f : Js unit) :
  staysOffline m -> staysOffline f -> staysOffline (tryFinally m f).
Proof.
  intros Hm Hf w. unfold tryFinally. specialize (Hm w).
  destruct (m w) as [r w1]. specialize (Hf w1).
  destruct (f w1) as [[[]|e] w2]; cbn in *; congruence.
Qed.

Lemma staysOffline_when (b : bool) (m : Js unit) :
  staysOffline m -> staysOffline (when b m).
Proof. destruct b; [done | intros _; apply staysOffline_ret]. Qed.

Lemma staysOffline_throw {A} (e : JsError) : staysOffline (throw e : Js A).
Proof. by intros w. Qed.

Lemma staysOffline_console (l : Level) (line : string) :
  staysOffline (consoleWrite l line).
Proof. by intros w. Qed.

Lemma staysOffline_fsOperation (op : FsOp)
    (act : gmap string Node -> Outcome (gmap string Node)) :
  staysOffline (fsOperation E op act).
Proof. apply staysOffline_keepsTrace, keepsTrace_fsOperation. Qed.

Lemma staysOffline_rmSync (p : string) : staysOffline (rmSync E p).
Proof. apply staysOffline_keepsTrace, keepsTrace_rmSync. Qed.

Lemma staysOffline_existsSync (p : string) : staysOffline (existsSync p).
Proof. by intros w. Qed.

Lemma staysOffline_execSync (command : string) (stdio : Stdio) (timeout : option Z) :
  staysOffline (execSync E command stdio timeout).
Proof.
  intros w. unfold networkCalls. rewrite execSync_trace, List.filter_app.
  apply app_nil_r.
Qed.

Lemma staysOffline_warned {A} (m : Js A) (line : string) :
  staysOffline m ->
  staysOffline (tryCatch (m;; mret tt) (fun _ => console_warn line)).
Proof.
  intros Hm. apply staysOffline_tryCatch.
  - apply staysOffline_bind; [done | intros _; apply staysOffline_ret].
  - intros _. apply staysOffline_console.
Qed.

Lemma staysOffline_cleanup (files : list string) : staysOffline (cleanup E files).
Proof.
  induction files as [|file rest IH]; [apply staysOffline_ret|].
  cbn [cleanup]. apply staysOffline_bind; [|done].
  apply staysOffline_tryCatch; [|intros _; apply staysOffline_console].
  apply staysOffline_bind; [apply staysOffline_existsSync|]. intros present.
  apply staysOffline_when, staysOffline_fsOperation.
Qed.

Lemma staysOffline_verify (executableName : string) :
  staysOffline (verifyWindowsExecutable E executableName).
Proof.
  apply staysOffline_tryCatch.
  - apply staysOffline_bind; [apply staysOffline_execSync|]. intros result.
    destruct (_ || _); [apply staysOffline_throw | apply staysOffline_ret].
  - intros e. destruct (includes _ _);
      [apply staysOffline_throw | apply staysOffline_ret].
Qed.

Lemma staysOffline_injectBlob (platform executableName blobPath : string) :
  staysOffline (injectBlob E platform executableName blobPath).
Proof.
  unfold injectBlob. apply staysOffline_tryCatch; [|intros e; apply staysOffline_throw].
  apply staysOffline_bind; [apply staysOffline_execSync|]. intros _.
  apply staysOffline_when, staysOffline_verify.
Qed.

Lemma staysOffline_signExecutable (platform executableName : string) :
  staysOffline (signExecutable E platform executableName).
Proof.
  unfold signExecutable.
  destruct (String.eqb platform "darwin");
    [apply staysOffline_warned, staysOffline_execSync|].
  destruct (String.eqb platform "win32");
    [apply staysOffline_warned, staysOffline_execSync|].
  apply staysOffline_tryCatch; [apply staysOffline_ret|].
  intros _. apply staysOffline_console.
Qed.

Lemma staysOffline_generateBlob (configPath : string) :
  staysOffline (generateBlob E configPath).
Proof.
  unfold generateBlob. apply staysOffline_tryCatch; [|intros e; apply staysOffline_throw].
  apply staysOffline_bind; [apply staysOffline_execSync|].
  intros _. apply staysOffline_ret.
Qed.

(** For the host, [createExecutable] takes the running runtime. *)
Lemma staysOffline_createExecutable_host (executableName : string) :
  staysOffline (createExecutable E (process_platform E) executableName).
Proof.
  unfold createExecutable. rewrite String.eqb_refl.
  apply staysOffline_bind; [apply staysOffline_ret|]. intros nodePath.
  apply staysOffline_bind.
  { apply staysOffline_tryCatch;
      [apply staysOffline_fsOperation | intros e; apply staysOffline_throw]. }
  intros _. apply staysOffline_bind.
  { apply staysOffline_when, staysOffline_warned, staysOffline_execSync. }
  intros _. apply staysOffline_when, staysOffline_warned, staysOffline_execSync.
Qed.

Context (this : Builder).

Lemma staysOffline_buildForPlatform_host :
  staysOffline (buildForPlatform E this (process_platform E)).
Proof.
  unfold buildForPlatform.
  apply staysOffline_bind.
  { unfold createSeaConfig. apply staysOffline_bind;
      [apply staysOffline_fsOperation | intros _; apply staysOffline_ret]. }
  intros configPath. apply staysOffline_tryCatch.
  - apply staysOffline_bind.
    { unfold pipelineSteps.
      apply staysOffline_bind; [apply staysOffline_generateBlob|]. intros _.
      apply staysOffline_bind; [apply staysOffline_createExecutable_host|]. intros _.
      apply staysOffline_bind; [apply staysOffline_injectBlob|]. intros _.
      apply staysOffline_when, staysOffline_signExecutable. }
    intros _. apply staysOffline_bind; [apply staysOffline_cleanup|].
    intros _. apply staysOffline_ret.
  - intros e. apply staysOffline_bind; [apply staysOffline_cleanup|].
    intros _. apply staysOffline_throw.
Qed.

Lemma staysOffline_cleanupTempDir : staysOffline (cleanupTempDir E this).
Proof.
  unfold cleanupTempDir. apply staysOffline_tryCatch;
    [|intros e; apply staysOffline_console].
  apply staysOffline_bind; [apply staysOffline_existsSync|]. intros present.
  apply staysOffline_when, staysOffline_bind; [apply staysOffline_rmSync|].
  intros _. apply staysOffline_console.
Qed.

Lemma staysOffline_buildLoop (platforms : list string) (results : list BuildResult) :
  Forall (fun platform => platform = process_platform E) platforms ->
  staysOffline (buildLoop E this platforms results).
Proof.
  intros Hhost. revert results.
  induction Hhost as [|platform rest -> _ IH]; intros results;
    [apply staysOffline_ret|].
  cbn [buildLoop]. apply staysOffline_bind; [|intros results'; apply IH].
  unfold buildOne. apply staysOffline_tryCatch.
  - apply staysOffline_bind; [apply staysOffline_buildForPlatform_host|].
    intros result. apply staysOffline_ret.
  - intros e. apply staysOffline_bind; [apply staysOffline_console|].
    intros _. apply staysOffline_ret.
Qed.

End OfflineFacts.

(** X8.  A build whose platforms are all the host's own makes no network
    call at all, neither for the version index nor for a download, whatever
    its subprocesses and file operations do. *)
Theorem build_for_host_stays_offline (E : Env) (this : Builder) (w : World) :
  Forall (fun platform => platform = process_platform E)
         (opt_platforms (options this)) ->
  networkCalls (build E this w).2 = networkCalls w.
Proof.
  intros Hhost. revert w. change (staysOffline (build E this)).
  unfold build. apply staysOffline_tryFinally;
    [by apply staysOffline_buildLoop | apply staysOffline_cleanupTempDir].
Qed.

Lemma build_for_host_stays_offline_witness :
  networkCalls (build Scenario.calm Scenario.linuxOnly Scenario.start).2 = [].
Proof.
  apply (build_for_host_stays_offline Scenario.calm Scenario.linuxOnly Scenario.start).
  repeat constructor.
Defined.

(* ===================================================================== *)
(** ** The cache is reused *)
(* ===================================================================== *)

Section ReuseFacts.

Context (E : Env).

(** Making sure a directory exists never removes anything, and only fails
    when the system refuses [mkdir]. *)
Lemma ensure_directory (d : string) (w : World) :
  (∀ w0, fs_fault E (MkdirOp d) w0 = None) ->
  ∃ w1,
    (present ← existsSync d; when (negb present) (mkdirSync E d)) w
      = (Returned tt, w1) ∧
    trace w1 = trace w ∧
    ∀ q, is_Some (fs w !! q) -> is_Some (fs w1 !! q).
Proof.
  intros Hfault. rewrite bind_run. unfold existsSync.
  destruct (bool_decide_reflect (is_Some (fs w !! d))) as [Hsome|Hnone].
  - exists w. by rewrite when_false.
  - cbn [negb]. rewrite when_true. unfold mkdirSync, fsOperation.
    rewrite Hfault. apply eq_None_not_Some in Hnone. rewrite Hnone.
    eexists. split; [reflexivity|]. split; [done|].
    intros q Hq. cbn [fs withFs]. destruct (decide (d = q)) as [->|Hne].
    + rewrite Hnone in Hq. by destruct Hq.
    + by rewrite lookup_insert_ne.
Qed.

Lemma ensureCacheDirs_allowed (platform : string) (w : World) :
  (∀ d w0, fs_fault E (MkdirOp d) w0 = None) ->
  ∃ w1,
    ensureCacheDirs E platform w = (Returned tt, w1) ∧
    trace w1 = trace w ∧
    ∀ q, is_Some (fs w !! q) -> is_Some (fs w1 !! q).
Proof.
  intros Hfault. unfold ensureCacheDirs.
  destruct (ensure_directory (cacheDir E) w (Hfault _)) as (w1 & H1 & Ht1 & Hk1).
  destruct (ensure_directory (path_join E [cacheDir E; platform]) w1 (Hfault _))
    as (w2 & H2 & Ht2 & Hk2).
  exists w2. split; [|split; [congruence | auto]].
  rewrite bind_run in H1. rewrite bind_run.
  destruct (existsSync (cacheDir E) w) as [[present|e] w0]; [|done].
  rewrite bind_run.
  destruct (when (negb present) (mkdirSync E (cacheDir E)) w0) as [[[]|e] w0'];
    [|done].
  injection H1 as ->. exact H2.
Qed.

(** Whatever [downloadNodeBinary] returns is on the disk afterwards. *)
Lemma downloadNodeBinary_on_disk (platform p : string) (w w' : World) :
  downloadNodeBinary E platform w = (Returned p, w') -> is_Some (fs w' !! p).
Proof.
  unfold downloadNodeBinary. intros Hrun.
  apply bind_returned_inv in Hrun as (version & wv & _ & Hrun).
  apply bind_returned_inv in Hrun as ([] & w1 & _ & Hrun).
  apply bind_returned_inv in Hrun as (cached & w2 & Hcached & Hrun).
  unfold existsSync in Hcached. injection Hcached as <- <-.
  destruct (bool_decide_reflect
              (is_Some (fs w1 !! cachedBinaryPath E platform version)))
    as [Hsome|_].
  - apply bind_returned_inv in Hrun as ([] & w3 & Hlog & [= <- <-]).
    by injection Hlog as <-.
  - unfold fetchNodeBinary in Hrun.
    apply bind_returned_inv in Hrun as ([] & w3 & _ & Hrun).
    apply bind_returned_inv in Hrun as (extracted & w4 & Hextracted & Hrun).
    unfold existsSync in Hextracted. injection Hextracted as <- <-.
    destruct (bool_decide_reflect
                (is_Some (fs w3 !! cachedBinaryPath E platform version)))
      as [Hsome|_]; [|done].
    cbn [negb] in Hrun.
    apply bind_returned_inv in Hrun as ([] & w5 & Hchmod & [= <- <-]).
    destruct (negb (String.eqb platform "win32")).
    + rewrite when_true in Hchmod. unfold chmodSync, fsOperation in Hchmod.
      destruct (fs_fault E _ w3); [done|].
      destruct (fs w3 !! cachedBinaryPath E platform version) as [[]|];
        [| |done]; injection Hchmod as <-; cbn [fs withFs];
        by rewrite lookup_insert_eq.
    + rewrite when_false in Hchmod. by injection Hchmod as <-.
Qed.

End ReuseFacts.

(** X9.  A binary that [downloadNodeBinary] has returned once is found in
    the cache the next time: if the same version is resolved again and the
    system does not refuse [mkdir], the second call returns the same path
    and downloads nothing. *)
Theorem downloadNodeBinary_second_call_hits (E : Env) (platform p version : string)
    (w w' wv wv' : World) :
  downloadNodeBinary E platform w = (Returned p, w') ->
  getRecommendedNodeVersion E w = (Returned version, wv) ->
  getRecommendedNodeVersion E w' = (Returned version, wv') ->
  (∀ d w0, fs_fault E (MkdirOp d) w0 = None) ->
  ∃ w'', downloadNodeBinary E platform w' = (Returned p, w'') ∧
         downloads w'' = downloads w'.
Proof.
  intros Hfirst Hversion Hagain Hfault.
  pose proof (downloadNodeBinary_on_disk E _ _ _ _ Hfirst) as Hdisk.
  assert (p = cachedBinaryPath E platform version) as ->.
  { unfold downloadNodeBinary in Hfirst.
    rewrite (bind_returned _ _ _ _ _ Hversion) in Hfirst.
    apply bind_returned_inv in Hfirst as ([] & w1 & _ & Hfirst).
    apply bind_returned_inv in Hfirst as (cached & w2 & _ & Hfirst).
    destruct cached.
    - apply bind_returned_inv in Hfirst as ([] & w3 & _ & Hfirst).
      by injection Hfirst as <- _.
    - by apply fetchNodeBinary_path in Hfirst. }
  destruct (getRecommendedNodeVersion_returns E w')
    as (version0 & wv0 & Hversion0 & Hfs & Hdownloads).
  rewrite Hagain in Hversion0. injection Hversion0 as <- <-.
  destruct (ensureCacheDirs_allowed E platform wv' Hfault)
    as (w1 & Hdirs & Htrace & Hkept).
  rewrite (downloadNodeBinary_lookup E _ _ _ _ _ Hagain Hdirs).
  rewrite bool_decide_eq_true_2 by (apply Hkept; by rewrite Hfs).
  eexists. split; [reflexivity|].
  etrans; [|exact Hdownloads]. by apply downloads_same.
Qed.

(** An instance: on the scenario host the darwin runtime is fetched into a
    cold cache, and asked for again. *)
Lemma downloadNodeBinary_second_call_hits_witness :
  ∃ w'', downloadNodeBinary Scenario.calm "darwin"
           (downloadNodeBinary Scenario.calm "darwin" Scenario.start).2
         = (Returned (cachedBinaryPath Scenario.calm "darwin" "20.18.0"), w'') ∧
         length (downloads w'') = 1.
Proof.
  pose (E := Scenario.calm).
  pose (w' := (downloadNodeBinary E "darwin" Scenario.start).2).
  destruct (downloadNodeBinary_second_call_hits E "darwin"
              (cachedBinaryPath E "darwin" "20.18.0") "20.18.0"
              Scenario.start w'
              (getRecommendedNodeVersion E Scenario.start).2
              (getRecommendedNodeVersion E w').2) as (w'' & Hrun & Hsame).
  - apply (run_outcome (downloadNodeBinary E "darwin") Scenario.start).
    vm_compute. reflexivity.
  - apply (run_outcome (getRecommendedNodeVersion E) Scenario.start).
    vm_compute. reflexivity.
  - apply (run_outcome (getRecommendedNodeVersion E) w').
    vm_compute. reflexivity.
  - intros d w0. reflexivity.
  - exists w''. split; [exact Hrun|]. rewrite Hsame. vm_compute. reflexivity.
Defined.

(* ===================================================================== *)
(** ** Construction *)
(* ===================================================================== *)

Section ConstructionFacts.

Context (E : Env).

(** After [if (!existsSync(d)) mkdirSync(d)] has returned, [d] exists and
    whatever existed still does. *)
Lemma ensure_directory_returned (d : string) (w w1 : World) :
  (present ← existsSync d; when (negb present) (mkdirSync E d)) w
    = (Returned tt, w1) ->
  is_Some (fs w1 !! d) ∧ trace w1 = trace w ∧
  ∀ q, is_Some (fs w !! q) -> is_Some (fs w1 !! q).
Proof.
  rewrite bind_run. unfold existsSync.
  destruct (bool_decide_reflect (is_Some (fs w !! d))) as [Hsome|Hnone].
  - rewrite when_false. by intros [= <-].
  - cbn [negb]. rewrite when_true. unfold mkdirSync, fsOperation.
    destruct (fs_fault E (MkdirOp d) w); [done|].
    apply eq_None_not_Some in Hnone. rewrite Hnone. intros [= <-].
    cbn [fs withFs trace]. split; [by rewrite lookup_insert_eq|]. split; [done|].
    intros q Hq. destruct (decide (d = q)) as [->|Hne].
    + rewrite Hnone in Hq. by destruct Hq.
    + by rewrite lookup_insert_ne.
Qed.

Lemma ensureTempDir_returned (this : Builder) (w w' : World) :
  ensureTempDir E this w = (Returned tt, w') ->
  is_Some (fs w' !! opt_tempDir (options this)) ∧
  is_Some (fs w' !! tempBuildDir E this) ∧
  trace w' = trace w ∧
  ∀ q, is_Some (fs w !! q) -> is_Some (fs w' !! q).
Proof.
  unfold ensureTempDir. intros Hrun.
  assert (∃ w1,
            (present ← existsSync (opt_tempDir (options this));
             when (negb present) (mkdirSync E (opt_tempDir (options this)))) w
              = (Returned tt, w1) ∧
            (present ← existsSync (tempBuildDir E this);
             when (negb present) (mkdirSync E (tempBuildDir E this))) w1
              = (Returned tt, w')) as (w1 & H1 & H2).
  { rewrite bind_run in Hrun. rewrite bind_run.
    destruct (existsSync (opt_tempDir (options this)) w) as [[present|e] w0];
      [|done].
    rewrite bind_run in Hrun.
    destruct (when (negb present) (mkdirSync E (opt_tempDir (options this))) w0)
      as [[[]|e] w1]; [|done].
    by exists w1. }
  apply ensure_directory_returned in H1 as (Hd1 & Ht1 & Hk1).
  apply ensure_directory_returned in H2 as (Hd2 & Ht2 & Hk2).
  split; [auto|]. split; [done|]. split; [congruence | auto].
Qed.

End ConstructionFacts.

(** X10.  The constructor checks the version of the host before it touches
    the disk: on a host below 19.9.0 it throws and leaves the world as it
    was.  When it returns, the builder carries the resolved options and an
    identifier that starts with [build-], the temporary root and the
    directory of the session exist, nothing that existed was removed and
    nothing left the process. *)
Theorem constructor_checks_then_prepares (E : Env) (o : UserOptions) (w : World) :
  let this := mkBuilder (resolveOptions E o) (generateBuildId E) in
  (isVersionGreaterOrEqual (slice1 (process_version E)) "19.9.0" = false ->
   ∃ e, newNodePackageBuilder E o w = (Thrown e, w)) ∧
  (∀ b w', newNodePackageBuilder E o w = (Returned b, w') ->
     b = this ∧
     isVersionGreaterOrEqual (slice1 (process_version E)) "19.9.0" = true ∧
     startsWith (buildId b) "build-" = true ∧
     is_Some (fs w' !! opt_tempDir (options b)) ∧
     is_Some (fs w' !! tempBuildDir E b) ∧
     trace w' = trace w ∧
     ∀ q, is_Some (fs w !! q) -> is_Some (fs w' !! q)).
Proof.
  intros this. unfold newNodePackageBuilder, checkNodeVersion, checkNodeVersionWith.
  fold isVersionGreaterOrEqual. fold this.
  destruct (isVersionGreaterOrEqual (slice1 (process_version E)) "19.9.0").
  - split; [done|]. intros b w' Hrun. cbn [negb] in Hrun.
    apply bind_returned_inv in Hrun as ([] & w0 & [= <-] & Hrun).
    apply bind_returned_inv in Hrun as ([] & w1 & Hdirs & [= <- <-]).
    apply ensureTempDir_returned in Hdirs as (? & ? & ? & ?).
    repeat (split; [done|]). split; [|done].
    apply (prefix_append "build-").
  - split; [eauto|]. intros b w' Hrun. cbn in Hrun. discriminate.
Qed.

Lemma constructor_checks_then_prepares_witness :
  (∃ e, newNodePackageBuilder Cases.node18
          (mkUserOptions None None None None None None None None)
          (mkWorld ∅ [] []) = (Thrown e, mkWorld ∅ [] [])) ∧
  is_Some (fs (newNodePackageBuilder Scenario.calm
                 (mkUserOptions None None None None None None None None)
                 (mkWorld ∅ [] [])).2
           !! "/tmp/node-package-builder/build-1700000000000-9f8e7d6c").
Proof.
  split.
  - apply (proj1 (constructor_checks_then_prepares Cases.node18
                    (mkUserOptions None None None None None None None None)
                    (mkWorld ∅ [] []))).
    vm_compute. reflexivity.
  - pose (o := mkUserOptions None None None None None None None None).
    pose (w := mkWorld ∅ [] []).
    destruct (proj2 (constructor_checks_then_prepares Scenario.calm o w)
                (mkBuilder (resolveOptions Scenario.calm o)
                   (generateBuildId Scenario.calm))
                (newNodePackageBuilder Scenario.calm o w).2)
      as (_ & _ & _ & _ & Hsession & _).
    + apply (run_outcome (newNodePackageBuilder Scenario.calm o) w).
      vm_compute. reflexivity.
    + exact Hsession.
Defined.

(* ===================================================================== *)
(** ** Sweeping the temporary root *)
(* ===================================================================== *)

Section SweepFacts.

Context (E : Env).

(** What [rmSync p] leaves of a disk. *)
Lemma rm_lookup (p q : string) (files : gmap string Node) :
  filter (fun kv : string * Node => kv.1 ≠ p ∧ path_inside E p kv.1 = false)
         files !! q
  = if decide (q ≠ p ∧ path_inside E p q = false) then files !! q else None.
Proof.
  apply option_eq. intros x. rewrite map_lookup_filter_Some. cbn [fst].
  destruct (decide (q ≠ p ∧ path_inside E p q = false)) as [Hkeep|Hgone].
  - split; [by intros [? _] | by intros].
  - split; [by intros [_ ?] | done].
Qed.

(** What a refused [rmSync p] leaves: [p], and some of what lay below. *)
Lemma rm_refused_lookup (p q : string) (w : World) :
  let left :=
    filter (fun kv : string * Node =>
              kv.1 = p ∨ path_inside E p kv.1 = false ∨ rm_kept E p w kv.1 = true)
           (fs w) in
  left !! q = fs w !! q ∨ (left !! q = None ∧ path_inside E p q = true).
Proof.
  intros left. subst left.
  destruct (decide (q = p ∨ path_inside E p q = false ∨ rm_kept E p w q = true))
    as [Hkeep|Hgone].
  - left. apply option_eq. intros x. rewrite map_lookup_filter_Some. cbn [fst].
    split; [by intros [? _] | by intros].
  - right. split.
    + apply map_lookup_filter_None. right. intros x _ Hkeep. by apply Hgone.
    + destruct (path_inside E p q); [done|]. destruct Hgone. right. by left.
Qed.

Lemma sweep_turn (tempDir buildDir : string) (rest : list string) (w : World) :
  let fullPath := path_join E [tempDir; buildDir] in
  let removed :=
    filter (fun kv : string * Node =>
              kv.1 ≠ fullPath ∧ path_inside E fullPath kv.1 = false) (fs w) in
  ∃ w1,
    sweep E tempDir (buildDir :: rest) w = sweep E tempDir rest w1 ∧
    trace w1 = trace w ∧
    (∀ q, fs w1 !! q = fs w !! q ∨
          (fs w1 !! q = None ∧
           (q = fullPath ∨ path_inside E fullPath q = true))) ∧
    (fs_fault E (RmOp fullPath) w = None -> fs w1 = removed).
Proof.
  intros fullPath removed. cbn [sweep]. fold fullPath.
  rewrite bind_run. unfold tryCatch at 1.
  rewrite bind_run. unfold rmSync. fold removed.
  destruct (fs_fault E (RmOp fullPath) w) as [e|].
  - eexists. split; [reflexivity|]. split; [done|]. split; [|done].
    intros q. cbn [fs withFs consoleWrite console_warn snd].
    destruct (rm_refused_lookup fullPath q w) as [? | [? ?]]; [by left|].
    right. split; [done | by right].
  - eexists. split; [reflexivity|]. split; [done|]. split; [|done].
    intros q. cbn [fs withFs consoleWrite console_log snd]. subst removed.
    rewrite rm_lookup. destruct (decide _) as [?|Hout]; [by left|].
    right. split; [done|].
    destruct (decide (q = fullPath)); [by left|].
    right. destruct (path_inside E fullPath q) eqn:?; [done|]. by destruct Hout.
Qed.

Lemma sweep_reach (tempDir : string) (names : list string) (w : World) :
  (sweep E tempDir names w).1 = Returned tt ∧
  trace (sweep E tempDir names w).2 = trace w ∧
  ∀ q, fs (sweep E tempDir names w).2 !! q = fs w !! q ∨
       (fs (sweep E tempDir names w).2 !! q = None ∧
        ∃ name, name ∈ names ∧
          (q = path_join E [tempDir; name] ∨
           path_inside E (path_join E [tempDir; name]) q = true)).
Proof.
  revert w. induction names as [|name rest IH]; intros w.
  { split; [done|]. split; [done|]. by left. }
  destruct (sweep_turn tempDir name rest w) as (w1 & -> & Htrace & Hturn & _).
  destruct (IH w1) as (Hret & Htrace' & Hrest).
  split; [done|]. split; [congruence|]. intros q.
  destruct (Hrest q) as [Heq | (Hgone & n & Hin & Hq)].
  - destruct (Hturn q) as [Hsame | [Hnone Hq]]; [left; congruence|].
    right. split; [congruence|]. exists name. split; [left | done].
  - right. split; [done|]. exists n. split; [by right | done].
Qed.

Lemma sweep_removes (tempDir name : string) (names : list string) (w : World) :
  name ∈ names ->
  (∀ w0, fs_fault E (RmOp (path_join E [tempDir; name])) w0 = None) ->
  fs (sweep E tempDir names w).2 !! path_join E [tempDir; name] = None.
Proof.
  intros Hin Hfault. revert w. induction names as [|n rest IH]; intros w.
  { by apply elem_of_nil in Hin. }
  destruct (sweep_turn tempDir n rest w) as (w1 & -> & _ & _ & Hrm).
  destruct (decide (name = n)) as [->|Hne].
  - destruct (proj2 (proj2 (sweep_reach tempDir rest w1))
                (path_join E [tempDir; n])) as [-> | [? _]]; [|done].
    rewrite (Hrm (Hfault w)), rm_lookup.
    destruct (decide _) as [[? _]|?]; done.
  - apply elem_of_cons in Hin as [?|Hin]; [done | by apply IH].
Qed.

Context (R : Reads).

Lemma cleanupAllTempDirs_removes (w : World) (p mode : string) :
  fs w !! sharedTempDir E = Some (Dir mode) ->
  read_fault R (sharedTempDir E) w = None ->
  (∀ q w0, fs_fault E (RmOp q) w0 = None) ->
  is_Some (fs w !! p) ->
  path_join E [sharedTempDir E; path_basename R p] = p ->
  startsWith (path_basename R p) "build-" = true ->
  fs (cleanupAllTempDirs E R w).2 !! p = None.
Proof.
  intros Hdir Hread Hfault Hp Hjoin Hname.
  unfold cleanupAllTempDirs, tryCatch. rewrite bind_run. unfold existsSync.
  rewrite Hdir, bool_decide_eq_true_2 by eauto. rewrite bind_run.
  destruct (readdirSync E R (sharedTempDir E) w) as [[names|e] w0] eqn:Hlist;
    unfold readdirSync in Hlist; rewrite Hread, Hdir in Hlist; [|done].
  injection Hlist as Hnames <-.
  set (buildDirs := List.filter (fun dir => startsWith dir "build-") names).
  pose proof (sweep_reach (sharedTempDir E) buildDirs w) as (Hret & _ & _).
  pose proof (sweep_removes (sharedTempDir E) (path_basename R p) buildDirs w)
    as Hgone.
  destruct (sweep E (sharedTempDir E) buildDirs w) as [[[]|e] w1]; [|done].
  rewrite Hjoin in Hgone. apply Hgone; [|by intros].
  apply list_elem_of_In, filter_In. split; [|done].
  apply list_elem_of_In. rewrite <- Hnames. apply list_elem_of_omap.
  destruct Hp as [x Hp]. exists (p, x).
  split; [by apply elem_of_map_to_list|]. cbn [fst].
  by rewrite Hjoin, String.eqb_refl.
Qed.

End SweepFacts.

(** X11.  [cleanupAllTempDirs] never throws and starts no process.  A path
    it removes is a child of the temporary root whose name starts with
    [build-], or lies below such a child; everything else is kept, and a
    missing root leaves the world as it is.  When the root can be read and
    no removal is refused, every child of the root named [build-...] is
    gone afterwards. *)
Theorem cleanupAllTempDirs_sweeps (E : Env) (R : Reads) (w : World) :
  let tempDir := sharedTempDir E in
  let w' := (cleanupAllTempDirs E R w).2 in
  (cleanupAllTempDirs E R w).1 = Returned tt ∧
  trace w' = trace w ∧
  (fs w !! tempDir = None -> w' = w) ∧
  (∀ q, fs w' !! q = fs w !! q ∨
        (fs w' !! q = None ∧
         ∃ name, startsWith name "build-" = true ∧
           (q = path_join E [tempDir; name] ∨
            path_inside E (path_join E [tempDir; name]) q = true))) ∧
  (∀ p mode,
     fs w !! tempDir = Some (Dir mode) ->
     read_fault R tempDir w = None ->
     (∀ q w0, fs_fault E (RmOp q) w0 = None) ->
     is_Some (fs w !! p) ->
     path_join E [tempDir; path_basename R p] = p ->
     startsWith (path_basename R p) "build-" = true ->
     fs w' !! p = None).
Proof.
  intros tempDir w'. subst w'.
  assert ((cleanupAllTempDirs E R w).1 = Returned tt ∧
          trace (cleanupAllTempDirs E R w).2 = trace w ∧
          (fs w !! tempDir = None -> (cleanupAllTempDirs E R w).2 = w) ∧
          (∀ q, fs (cleanupAllTempDirs E R w).2 !! q = fs w !! q ∨
                (fs (cleanupAllTempDirs E R w).2 !! q = None ∧
                 ∃ name, startsWith name "build-" = true ∧
                   (q = path_join E [tempDir; name] ∨
                    path_inside E (path_join E [tempDir; name]) q = true))))
    as (Hret & Htrace & Habsent & Hreach).
  { unfold cleanupAllTempDirs. fold tempDir.
    unfold tryCatch. rewrite bind_run. unfold existsSync.
    destruct (bool_decide_reflect (is_Some (fs w !! tempDir))) as [Hsome|Hnone];
      [|by repeat split; [..|left]].
    rewrite bind_run.
    destruct (readdirSync E R tempDir w) as [[names|e] w0] eqn:Hread.
    - assert (w0 = w) as ->.
      { unfold readdirSync in Hread.
        destruct (read_fault R tempDir w); [by injection Hread|].
        destruct (fs w !! tempDir) as [[?|? ?]|]; by injection Hread. }
      pose proof (sweep_reach E tempDir
                    (List.filter (fun dir => startsWith dir "build-") names) w)
        as (Hret & Htrace & Hreach).
      destruct (sweep E tempDir _ w) as [[[]|e] w1]; [|done].
      cbn [fst snd] in *. split; [done|]. split; [done|].
      split; [intros Hnone; rewrite Hnone in Hsome; by destruct Hsome|].
      intros q. destruct (Hreach q) as [? | (? & n & Hin & ?)]; [by left|].
      right. split; [done|]. exists n. split; [|done].
      apply list_elem_of_In, filter_In in Hin. by destruct Hin.
    - assert (w0 = w) as ->.
      { unfold readdirSync in Hread.
        destruct (read_fault R tempDir w); [by injection Hread|].
        destruct (fs w !! tempDir) as [[?|? ?]|]; by injection Hread. }
      cbn. split; [done|]. split; [done|].
      split; [intros Hnone; rewrite Hnone in Hsome; by destruct Hsome|].
      by left. }
  repeat (split; [done|]).
  intros p mode. apply cleanupAllTempDirs_removes.
Qed.

(** An instance: both session directories go, with the blob one of them
    holds; the file beside them stays. *)
Lemma cleanupAllTempDirs_sweeps_witness :
  fs (cleanupAllTempDirs Scenario.calm Cases.posix Cases.leftovers).2
    !! "/tmp/node-package-builder/build-2-bb" = None.
Proof.
  apply (proj2 (proj2 (proj2 (proj2
           (cleanupAllTempDirs_sweeps Scenario.calm Cases.posix Cases.leftovers))))
           "/tmp/node-package-builder/build-2-bb" "755").
  - vm_compute. reflexivity.
  - reflexivity.
  - reflexivity.
  - vm_compute. eauto.
  - vm_compute. reflexivity.
  - vm_compute. reflexivity.
Defined.

(* ===================================================================== *)
(** ** Extraction *)
(* ===================================================================== *)

Section ExtractionFacts.

Context (E : Env).

Lemma writeFileSync_reach (p data : string) (w : World) :
  trace (writeFileSync E p data w).2 = trace w ∧
  ∀ q, q ≠ p -> fs (writeFileSync E p data w).2 !! q = fs w !! q.
Proof.
  unfold writeFileSync, fsOperation.
  destruct (fs_fault E (WriteOp p) w); [done|].
  destruct (fs w !! p) as [[m|c m]|]; [done| |];
    (split; [done|]; intros q Hq; cbn [snd fs withFs];
     by rewrite lookup_insert_ne).
Qed.

Lemma writeFileSync_holds (p data : string) (w : World) :
  fs_fault E (WriteOp p) w = None ->
  (∀ mode, fs w !! p ≠ Some (Dir mode)) ->
  ∃ w' mode, writeFileSync E p data w = (Returned tt, w') ∧
             fs w' !! p = Some (File data mode).
Proof.
  intros Hfault Hdir. unfold writeFileSync, fsOperation. rewrite Hfault.
  destruct (fs w !! p) as [[m|c m]|] eqn:Hp.
  - by destruct (Hdir m).
  - eexists _, m. split; [reflexivity|]. cbn [fs withFs]. by rewrite lookup_insert_eq.
  - eexists _, "644". split; [reflexivity|]. cbn [fs withFs]. by rewrite lookup_insert_eq.
Qed.

Lemma walkZip_reach (extractDir : string) (entries : list ZipEntry)
    (tail : option JsError) (w : World) :
  trace (walkZip E extractDir entries tail w).2 = trace w ∧
  ∀ q, q ≠ path_join E [extractDir; "node.exe"] ->
       fs (walkZip E extractDir entries tail w).2 !! q = fs w !! q.
Proof.
  induction entries as [|entry rest IH]; cbn [walkZip].
  - by destruct tail.
  - destruct (endsWith (fileName entry) "node.exe"); [|done].
    destruct (readStream entry); [apply writeFileSync_reach | done].
Qed.

Lemma walkZip_first (extractDir : string) (before after : list ZipEntry)
    (entry : ZipEntry) (tail : option JsError) :
  Forall (fun e => endsWith (fileName e) "node.exe" = false) before ->
  endsWith (fileName entry) "node.exe" = true ->
  walkZip E extractDir (before ++ entry :: after) tail
  = match readStream entry with
    | Thrown err => throw err
    | Returned data =>
        writeFileSync E (path_join E [extractDir; "node.exe"]) data
    end.
Proof.
  intros Hbefore Hentry. induction Hbefore as [|e before He _ IH]; cbn [app walkZip].
  - by rewrite Hentry.
  - by rewrite He.
Qed.

Lemma walkZip_none (extractDir : string) (entries : list ZipEntry)
    (tail : option JsError) :
  Forall (fun e => endsWith (fileName e) "node.exe" = false) entries ->
  walkZip E extractDir entries tail
  = match tail with None => mret tt | Some e => throw e end.
Proof.
  induction 1 as [|e entries He _ IH]; cbn [walkZip]; [done|]. by rewrite He.
Qed.

End ExtractionFacts.

(** X12.  [extractZip] writes at most one file, [node.exe] in the directory
    it is given, and starts no process.  The first entry whose name ends in
    [node.exe] decides: when its stream opens and the write is not refused,
    the call returns with exactly the data of that entry in [node.exe],
    whatever follows in the archive and however the listing would have
    ended; when its stream does not open, the call fails with that error.
    An archive without such an entry leaves the disk as it is, and the
    call returns unless the listing ends in an error. *)
Theorem extractZip_first_match (E : Env) (zipPath extractDir version platform : string)
    (zip : ZipFile) (w : World) :
  yauzl_open E zipPath w = Returned zip ->
  let outputPath := path_join E [extractDir; "node.exe"] in
  let run := extractZip E zipPath extractDir version platform w in
  trace run.2 = trace w ∧
  (∀ q, q ≠ outputPath -> fs run.2 !! q = fs w !! q) ∧
  (∀ before entry after,
     zipEntries zip = before ++ entry :: after ->
     Forall (fun e => endsWith (fileName e) "node.exe" = false) before ->
     endsWith (fileName entry) "node.exe" = true ->
     match readStream entry with
     | Thrown err => run = (Thrown err, w)
     | Returned data =>
         fs_fault E (WriteOp outputPath) w = None ->
         (∀ mode, fs w !! outputPath ≠ Some (Dir mode)) ->
         run.1 = Returned tt ∧
         ∃ mode, fs run.2 !! outputPath = Some (File data mode)
     end) ∧
  (Forall (fun e => endsWith (fileName e) "node.exe" = false) (zipEntries zip) ->
   run = (match zipTail zip with None => Returned tt | Some e => Thrown e end, w)).
Proof.
  intros Hopen outputPath run. subst run. unfold extractZip.
  rewrite bind_run, Hopen.
  destruct (walkZip_reach E extractDir (zipEntries zip) (zipTail zip) w)
    as [Htrace Hreach].
  split; [done|]. split; [done|]. split.
  - intros before entry after -> Hbefore Hentry.
    rewrite (walkZip_first E extractDir before after entry (zipTail zip)
               Hbefore Hentry).
    destruct (readStream entry) as [data|err]; [|done].
    intros Hfault Hdir.
    destruct (writeFileSync_holds E outputPath data w Hfault Hdir)
      as (w' & mode & Hrun & Hfile).
    fold outputPath. rewrite Hrun. eauto.
  - intros Hnone. rewrite (walkZip_none E extractDir _ _ Hnone).
    by destruct (zipTail zip).
Qed.

(** An instance: the archive of the scenario lists a README before the
    runtime. *)
Lemma extractZip_first_match_witness :
  ∃ mode,
    fs (extractZip Scenario.calm "/cache/node.zip" "/cache/20.18.0" "20.18.0"
          "win32" Scenario.start).2 !! "/cache/20.18.0/node.exe"
    = Some (File "PE" mode).
Proof.
  pose proof (extractZip_first_match Scenario.calm "/cache/node.zip"
                "/cache/20.18.0" "20.18.0" "win32"
                (mkZipFile
                   [ mkZipEntry "node-v20.18.0-win-x64/README.md" (Returned "readme");
                     mkZipEntry "node-v20.18.0-win-x64/node.exe" (Returned "PE") ]
                   None)
                Scenario.start eq_refl) as (_ & _ & Hfirst & _).
  apply (Hfirst [mkZipEntry "node-v20.18.0-win-x64/README.md" (Returned "readme")]
           (mkZipEntry "node-v20.18.0-win-x64/node.exe" (Returned "PE")) []
           eq_refl).
  - repeat constructor.
  - reflexivity.
  - reflexivity.
  - intros mode. vm_compute. discriminate.
Defined.

(** X13.  [extractTarGz] on an archive that unpacks.  When the archive held
    no [node-v<version>-<platform>-x64/bin/node], the call returns without
    a word and without the binary: only the check of the caller notices.
    When it did, and the system refuses neither the move nor the removal,
    the binary ends up as [node] in the directory given, and neither its
    unpacked path nor the unpacked folder is left. *)
Theorem extractTarGz_moves_binary (E : Env)
    (tarPath extractDir version platform : string) (w : World)
    (files : gmap string Node) :
  let folderName := "node-v" +:+ version +:+ "-" +:+ platform +:+ "-x64" in
  let nodeBinaryPath := folderName +:+ "/bin/node" in
  let extractedPath := path_join E [extractDir; nodeBinaryPath] in
  let finalPath := path_join E [extractDir; "node"] in
  let folderPath := path_join E [extractDir; folderName] in
  let run := extractTarGz E tarPath extractDir version platform w in
  tar_extract E tarPath extractDir (fun path => String.eqb path nodeBinaryPath) w
    = (Returned tt, files) ->
  (files !! extractedPath = None -> run = (Returned tt, withFs w files)) ∧
  (∀ binary,
     files !! extractedPath = Some binary ->
     (∀ w0, fs_fault E (RenameOp extractedPath finalPath) w0 = None) ->
     (∀ w0, fs_fault E (RmOp folderPath) w0 = None) ->
     extractedPath ≠ finalPath ->
     finalPath ≠ folderPath ->
     path_inside E folderPath finalPath = false ->
     run.1 = Returned tt ∧
     fs run.2 !! finalPath = Some binary ∧
     fs run.2 !! extractedPath = None ∧
     fs run.2 !! folderPath = None ∧
     trace run.2 = trace w).
Proof.
  intros folderName nodeBinaryPath extractedPath finalPath folderPath run Htar.
  subst run. unfold extractTarGz.
  fold folderName. fold nodeBinaryPath. fold extractedPath. fold finalPath.
  fold folderPath.
  rewrite bind_run, Htar, bind_run.
  change (existsSync extractedPath (withFs w files))
    with (Returned (bool_decide (is_Some (files !! extractedPath))),
          withFs w files).
  split.
  - intros Hnone. rewrite Hnone.
    rewrite bool_decide_eq_false_2 by (by intros [? ?]). by rewrite when_false.
  - intros binary Hsome Hrename Hrm Hne Hne' Hout.
    rewrite bool_decide_eq_true_2 by eauto. rewrite when_true, bind_run.
    set (moved := <[finalPath:=binary]> (delete extractedPath files)).
    assert (renameSync E extractedPath finalPath (withFs w files)
            = (Returned tt, withFs w moved)) as ->.
    { unfold renameSync, fsOperation. rewrite Hrename. cbn [fs withFs].
      by rewrite Hsome. }
    rewrite bind_run.
    change (existsSync folderPath (withFs w moved))
      with (Returned (bool_decide (is_Some (moved !! folderPath))),
            withFs w moved).
    assert (moved !! finalPath = Some binary) as Hfinal
      by (by unfold moved; rewrite lookup_insert_eq).
    assert (moved !! extractedPath = None) as Hextracted.
    { unfold moved. rewrite lookup_insert_ne by done. by rewrite lookup_delete_eq. }
    destruct (bool_decide_reflect (is_Some (moved !! folderPath)))
      as [Hfolder|Hfolder].
    + rewrite when_true. unfold rmSync. rewrite Hrm.
      cbn [fst snd fs withFs trace]. split; [done|].
      rewrite !(rm_lookup E).
      split; [|split; [|split; [|done]]].
      * by rewrite decide_True by done.
      * by destruct (decide _).
      * by rewrite decide_False by (by intros [? _]).
    + rewrite when_false. cbn [fst snd fs withFs trace].
      split; [done|]. split; [done|]. split; [done|].
      split; [by apply eq_None_not_Some | done].
Qed.

Lemma extractTarGz_moves_binary_witness :
  fs (extractTarGz Scenario.calm "/cache/node.tar.gz" "/cache/20.18.0"
        "20.18.0" "darwin" Scenario.start).2 !! "/cache/20.18.0/node"
  = Some (File "MACH-O" "644").
Proof.
  pose (w := Scenario.start).
  refine (proj1 (proj2 (proj2 (extractTarGz_moves_binary Scenario.calm
            "/cache/node.tar.gz" "/cache/20.18.0" "20.18.0" "darwin" w
            (Scenario.untar "/cache/node.tar.gz" "/cache/20.18.0"
               (fun path =>
                  String.eqb path "node-v20.18.0-darwin-x64/bin/node") w).2
            eq_refl) (File "MACH-O" "644") _ _ _ _ _ _))).
  - vm_compute. reflexivity.
  - reflexivity.
  - reflexivity.
  - vm_compute. discriminate.
  - vm_compute. discriminate.
  - vm_compute. reflexivity.
Defined.

(* ===================================================================== *)
(** ** The pipeline as [buildForPlatform] runs it *)
(* ===================================================================== *)

(** X14.  In a build the suffix [createExecutable] would append is never
    appended: [buildForPlatform] hands it the name [getExecutableName]
    made, which on win32 already ends in [.exe].  The file that is copied
    is therefore the file the blob is injected into and the one the result
    reports. *)
Theorem build_uses_one_executable_name (E : Env) (this : Builder) (platform : string) :
  let executableName := getExecutableName this platform in
  copiedName platform executableName = executableName ∧
  res_executable (successResult E this platform executableName)
    = Some (copiedName platform executableName).
Proof.
  intros executableName.
  assert (copiedName platform executableName = executableName) as Hname.
  { subst executableName. unfold copiedName, getExecutableName.
    destruct (String.eqb platform "win32"); [|done].
    destruct (endsWith (opt_output (options this)) ".exe") eqn:Hexe.
    - by rewrite Hexe.
    - by rewrite (endsWith_append (opt_output (options this)) ".exe"). }
  split; [done|]. by rewrite Hname.
Qed.

(* ===================================================================== *)
(** ** Downloads that go wrong *)
(* ===================================================================== *)

Section DownloadFacts.

Context (E : Env).

Lemma downloadFile_refused (url filePath : string) (e : JsError) (w : World) :
  http_stream E url w = Thrown e ->
  downloadFile E url filePath w = (Thrown e, record (Downloaded url filePath) w).
Proof. intros Hget. unfold downloadFile. by rewrite Hget. Qed.

Lemma downloadFile_written (url filePath body : string) (cut : option JsError)
    (w : World) :
  http_stream E url w = Returned (body, cut) ->
  fs_fault E (WriteOp filePath) (record (Downloaded url filePath) w) = None ->
  (∀ mode, fs w !! filePath ≠ Some (Dir mode)) ->
  ∃ w' mode,
    downloadFile E url filePath w
      = (match cut with Some e => Thrown e | None => Returned tt end, w') ∧
    fs w' = <[filePath := File body mode]> (fs w) ∧
    console w' = console w ∧
    trace w' = trace w ++ [Downloaded url filePath].
Proof.
  intros Hget Hfault Hdir. unfold downloadFile. rewrite Hget, bind_run.
  unfold writeFileSync, fsOperation. rewrite Hfault. cbn [fs record].
  destruct (fs w !! filePath) as [[m|c m]|] eqn:Hp.
  - by destruct (Hdir m).
  - eexists _, m. by destruct cut.
  - eexists _, "644". by destruct cut.
Qed.

End DownloadFacts.

(** X15.  A download that fails is not tidied up.  When the request itself
    fails, [downloadNodeBinary]'s fetch fails with that error and the disk
    is as before.  When the connection drops while the archive is being
    received, the fetch fails with the error of the stream and what was
    received stays in the cache directory under the name of the archive;
    nothing is unpacked and no other path changes. *)
Theorem failed_download_is_left_behind (E : Env) (platform version url : string)
    (w : World) :
  getNodeDownloadUrl version platform = Returned url ->
  let archivePath := archivePathFor E platform version in
  let run := fetchNodeBinary E platform version w in
  (∀ e, (∀ w0, http_stream E url w0 = Thrown e) ->
        run.1 = Thrown e ∧ fs run.2 = fs w ∧
        trace run.2 = trace w ++ [Downloaded url archivePath]) ∧
  (∀ body e,
     (∀ w0, http_stream E url w0 = Returned (body, Some e)) ->
     (∀ w0, fs_fault E (WriteOp archivePath) w0 = None) ->
     (∀ mode, fs w !! archivePath ≠ Some (Dir mode)) ->
     run.1 = Thrown e ∧
     (∃ mode, fs run.2 !! archivePath = Some (File body mode)) ∧
     (∀ q, q ≠ archivePath -> fs run.2 !! q = fs w !! q) ∧
     trace run.2 = trace w ++ [Downloaded url archivePath]).
Proof.
  intros Hurl archivePath run. subst run.
  unfold fetchNodeBinary, acquireArchive. fold archivePath.
  rewrite !bind_run. cbn [console_log consoleWrite].
  set (w0 := mkWorld (fs w) _ (trace w)).
  unfold liftOutcome. rewrite Hurl, !bind_run.
  split.
  - intros e Hget. by rewrite (downloadFile_refused E url archivePath e w0 (Hget w0)).
  - intros body e Hget Hfault Hdir.
    destruct (downloadFile_written E url archivePath body (Some e) w0
                (Hget w0) (Hfault _) Hdir) as (w' & mode & -> & Hfs & _ & Htrace).
    cbn [fst snd]. split; [done|]. rewrite Hfs. cbn [fs w0].
    split; [exists mode; by rewrite lookup_insert_eq|].
    split; [intros q Hq; by rewrite lookup_insert_ne | done].
Qed.

Lemma failed_download_is_left_behind_witness :
  ∃ mode,
    fs (fetchNodeBinary Cases.dropping "darwin" "20.18.0" Scenario.start).2
      !! archivePathFor Cases.dropping "darwin" "20.18.0"
    = Some (File "archive-by" mode).
Proof.
  refine (proj1 (proj2 (proj2 (failed_download_is_left_behind Cases.dropping
            "darwin" "20.18.0"
            "https://nodejs.org/dist/v20.18.0/node-v20.18.0-darwin-x64.tar.gz"
            Scenario.start _) "archive-by" (Error "aborted") _ _ _))).
  - reflexivity.
  - reflexivity.
  - reflexivity.
  - intros mode. vm_compute. discriminate.
Defined.

(** X16.  A win32 archive without [node.exe], on a system that refuses
    nothing: the unpacking passes without a word, the archive is deleted,
    and only then the missing binary is noticed.  The fetch fails with
    [Failed to extract Node.js executable for win32] after one whole
    download, and keeps nothing of it. *)
Theorem archive_without_runtime_is_noticed_late (E : Env) (version url body : string)
    (zip : ZipFile) (w : World) :
  let archivePath := archivePathFor E "win32" version in
  let versionDir := path_join E [path_join E [cacheDir E; "win32"]; version] in
  let executablePath := cachedBinaryPath E "win32" version in
  let run := fetchNodeBinary E "win32" version w in
  getNodeDownloadUrl version "win32" = Returned url ->
  (∀ w0, http_stream E url w0 = Returned (body, None)) ->
  (∀ op w0, fs_fault E op w0 = None) ->
  (∀ w0, yauzl_open E archivePath w0 = Returned zip) ->
  Forall (fun e => endsWith (fileName e) "node.exe" = false) (zipEntries zip) ->
  zipTail zip = None ->
  (∀ mode, fs w !! archivePath ≠ Some (Dir mode)) ->
  fs w !! executablePath = None ->
  executablePath ≠ versionDir ->
  run.1 = Thrown (Error "Failed to extract Node.js executable for win32") ∧
  fs run.2 !! archivePath = None ∧
  fs run.2 !! executablePath = None ∧
  trace run.2 = trace w ++ [Downloaded url archivePath].
Proof.
  intros archivePath versionDir executablePath run Hurl Hget Hfault Hopen Hnone
    Htail Hdir Hexe Hne.
  subst run. unfold fetchNodeBinary, acquireArchive.
  fold archivePath. fold versionDir. fold executablePath.
  rewrite !bind_run. cbn [console_log consoleWrite].
  set (w0 := mkWorld (fs w) _ (trace w)).
  unfold liftOutcome. rewrite Hurl, !bind_run.
  destruct (downloadFile_written E url archivePath body None w0
              (Hget w0) (Hfault _ _) Hdir) as (w1 & mode & -> & Hfs1 & _ & Htrace1).
  cbn [fs w0] in Hfs1. cbn [trace w0] in Htrace1.
  rewrite bind_run.
  change (existsSync versionDir w1)
    with (Returned (bool_decide (is_Some (fs w1 !! versionDir))), w1).
  cbn iota.
  assert (∃ w2,
            when (negb (bool_decide (is_Some (fs w1 !! versionDir))))
              (mkdirSync E versionDir) w1 = (Returned tt, w2) ∧
            fs w2 !! archivePath = Some (File body mode) ∧
            fs w2 !! executablePath = fs w1 !! executablePath ∧
            trace w2 = trace w1) as (w2 & Hmk & Harchive & Hexe2 & Htrace2).
  { destruct (bool_decide_reflect (is_Some (fs w1 !! versionDir))) as [Hsome|Hno].
    - rewrite when_false. exists w1. split; [done|]. split; [|done].
      by rewrite Hfs1, lookup_insert_eq.
    - cbn [negb]. rewrite when_true. unfold mkdirSync, fsOperation.
      rewrite Hfault. apply eq_None_not_Some in Hno. rewrite Hno.
      assert (versionDir ≠ archivePath) as Hne'.
      { intros Heq. rewrite Heq, Hfs1, lookup_insert_eq in Hno. discriminate. }
      eexists. split; [reflexivity|]. cbn [fs withFs trace].
      split; [|split; [|done]].
      + rewrite lookup_insert_ne by done. by rewrite Hfs1, lookup_insert_eq.
      + by rewrite lookup_insert_ne. }
  rewrite bind_run, Hmk, bind_run.
  unfold extractNodeBinary. cbn [String.eqb Ascii.eqb Bool.eqb].
  unfold extractZip. rewrite bind_run, Hopen, (walkZip_none E versionDir _ _ Hnone), Htail.
  cbn [mret Js_ret].
  unfold unlinkSync, fsOperation. rewrite Hfault, Harchive.
  rewrite bind_run. unfold existsSync. cbn [fs withFs].
  assert (delete archivePath (fs w2) !! executablePath = None) as Hgone.
  { destruct (decide (executablePath = archivePath)) as [->|?].
    - by rewrite lookup_delete_eq.
    - rewrite lookup_delete_ne by done. rewrite Hexe2, Hfs1.
      by rewrite lookup_insert_ne. }
  rewrite Hgone, bool_decide_eq_false_2 by (by intros [? ?]).
  cbn [negb fst snd throw fs withFs trace].
  split; [done|]. split; [by rewrite lookup_delete_eq|]. split; [done|]. congruence.
Qed.

Lemma archive_without_runtime_is_noticed_late_witness :
  (fetchNodeBinary Cases.incomplete "win32" "20.18.0" Scenario.start).1
  = Thrown (Error "Failed to extract Node.js executable for win32").
Proof.
  refine (proj1 (archive_without_runtime_is_noticed_late Cases.incomplete
            "20.18.0"
            "https://nodejs.org/dist/v20.18.0/node-v20.18.0-win-x64.zip"
            "archive-bytes" Cases.docsOnly Scenario.start _ _ _ _ _ _ _ _ _)).
  - reflexivity.
  - reflexivity.
  - reflexivity.
  - reflexivity.
  - repeat constructor.
  - reflexivity.
  - intros mode. vm_compute. discriminate.
  - vm_compute. reflexivity.
  - vm_compute. discriminate.
Defined.

(* ===================================================================== *)
(** ** The runtime cache, cold and warm *)
(* ===================================================================== *)

Section FetchFacts.

Context (E : Env).





Lemma chmodSync_file (p content mode mode' : string) (w : World) :
  fs_fault E (ChmodOp p) w = None ->
  fs w !! p = Some (File content mode) ->
  chmodSync E p mode' w = (Returned tt, withFs w (<[p := File content mode']> (fs w))).
Proof. intros Hfault Hp. unfold chmodSync, fsOperation. by rewrite Hfault, Hp. Qed.



End FetchFacts.

Section ColdCache.

Context (E : Env).


End ColdCache.



(** X17.  The directory a constructor leaves behind is one the sweep
    finds.  A builder made with the default temporary root gets a session
    directory directly below the root that [cleanupAllTempDirs] reads, under
    a name starting with [build-]; when the root can be read and removals
    are not refused, the sweep removes it. *)
Theorem session_directory_is_swept (E : Env) (R : Reads) (o : UserOptions)
    (b : Builder) (w w1 : World) (mode : string) :
  user_tempDir o = None ->
  newNodePackageBuilder E o w = (Returned b, w1) ->
  fs w1 !! sharedTempDir E = Some (Dir mode) ->
  read_fault R (sharedTempDir E) w1 = None ->
  (∀ q w0, fs_fault E (RmOp q) w0 = None) ->
  path_basename R (tempBuildDir E b) = buildId b ->
  is_Some (fs w1 !! tempBuildDir E b) ∧
  fs (cleanupAllTempDirs E R w1).2 !! tempBuildDir E b = None.
Proof.
  intros Hdefault Hnew Hroot Hread Hfault Hbase.
  unfold newNodePackageBuilder in Hnew.
  apply bind_returned_inv in Hnew as ([] & w0 & _ & Hnew).
  apply bind_returned_inv in Hnew as ([] & w2 & Hdirs & [= <- <-]).
  apply ensureTempDir_returned in Hdirs as (_ & Hsession & _).
  split; [done|].
  assert (tempBuildDir E (mkBuilder (resolveOptions E o) (generateBuildId E))
          = path_join E [sharedTempDir E; generateBuildId E]) as Hpath.
  { unfold tempBuildDir, resolveOptions. cbn. by rewrite Hdefault. }
  cbn [buildId] in Hbase.
  apply (cleanupAllTempDirs_removes E R w2 _ mode); try done.
  - by rewrite Hbase.
  - rewrite Hbase. apply (prefix_append "build-").
Qed.

Lemma session_directory_is_swept_witness :
  fs (cleanupAllTempDirs Scenario.calm Cases.posix
        (newNodePackageBuilder Scenario.calm
           (mkUserOptions None None None None None None None None)
           (mkWorld ∅ [] [])).2).2
    !! "/tmp/node-package-builder/build-1700000000000-9f8e7d6c" = None.
Proof.
  pose (o := mkUserOptions None None None None None None None None).
  pose (w := mkWorld ∅ [] []).
  refine (proj2 (session_directory_is_swept Scenario.calm Cases.posix o
            (mkBuilder (resolveOptions Scenario.calm o)
               (generateBuildId Scenario.calm))
            w (newNodePackageBuilder Scenario.calm o w).2 "755" _ _ _ _ _ _)).
  - reflexivity.
  - apply (run_outcome (newNodePackageBuilder Scenario.calm o) w).
    vm_compute. reflexivity.
  - vm_compute. reflexivity.
  - reflexivity.
  - reflexivity.
  - vm_compute. reflexivity.
Defined.
